(** * vcsnoop: a shallow embedding of [vcsnoop.c]

    [vcsnoop /dev/ttyN] copies the text shown on a Linux virtual console to
    standard output: it switches to the console, selects the whole screen,
    switches back, and pastes the selection into its own controlling
    terminal, where a worker thread reads it and forwards it.

    The program is embedded as functions in a small monad [M] over a
    [world]: the program's globals, the part of the kernel state the program
    depends on, and a script of replies that says how each system call made
    by the process is answered.  Every call appends an [entry] to the log of
    the run, stamped with the kernel state in which it was issued.

    What the model fixes about the environment:
    - a call takes the next reply of the script, whatever the call; a run
      whose script is used up is [Stalled] in the call it was making;
    - [fprintf] and [perror] always succeed, take no reply and raise no
      signal: a run in which a standard stream is a closed pipe while
      [SIGPIPE] is not blocked is not among the runs of the model;
    - the calls of the worker thread are logged where the main thread
      joins it (see [pthread_join]), also when the worker ends the process
      earlier than that; what depends on that moment is stated for the
      runs in which the worker does not end the process;
    - signals have their default disposition (see [deliver]), and none
      reaches the process from outside;
    - [getopt] is the GNU one without [POSIXLY_CORRECT]. *)

From Stdlib Require Import ZArith List String Ascii Bool Lia.
From Stdlib.Strings Require Import Byte.
Import ListNotations.
Open Scope string_scope.
Open Scope list_scope.
Open Scope Z_scope.


(** ** Constants of the C library and of the Linux headers *)

Module Consts.
Definition PROGRAM_NAME : string := "vcsnoop".

(* <stdlib.h>, <unistd.h>, <limits.h> *)
Definition EXIT_SUCCESS : Z := 0.
Definition EXIT_FAILURE : Z := 1.
Definition STDOUT_FILENO : Z := 1.
Definition PIPE_BUF : Z := 4096.
Definition SHRT_MAX : Z := 32767.

(* <errno.h> *)
Definition ENOENT : Z := 2.
Definition ESRCH : Z := 3.
Definition EIO : Z := 5.
Definition EAGAIN : Z := 11.
Definition ENOTTY : Z := 25.
Definition EPIPE : Z := 32.
Definition ETIME : Z := 62.

(* <signal.h> *)
Definition SIGKILL : Z := 9.
Definition SIGPIPE : Z := 13.
Definition SIGSTOP : Z := 19.
Definition SIGCANCEL : Z := 32.      (* glibc's own: __SIGRTMIN *)
Definition SIGSETXID : Z := 33.      (* glibc's own: __SIGRTMIN + 1 *)
Definition NSIG : Z := 64.
Definition SIG_BLOCK : Z := 0.
Definition SIG_UNBLOCK : Z := 1.

(* <fcntl.h>, <poll.h>, <termios.h>, <sys/stat.h> *)
Definition O_RDWR : Z := 2.
Definition POLLIN : Z := 1.
Definition ECHO : Z := 8.            (* 0000010 *)
Definition TCSAFLUSH : Z := 2.
Definition S_IFMT : Z := 61440.      (* 0170000 *)
Definition S_IFCHR : Z := 8192.      (* 0020000 *)

(* <linux/major.h>, <linux/vt.h>, <linux/tiocl.h> *)
Definition TTY_MAJOR : Z := 4.
Definition MIN_NR_CONSOLES : Z := 1.
Definition MAX_NR_CONSOLES : Z := 63.
Definition TIOCL_SETSEL : Z := 2.
Definition TIOCL_PASTESEL : Z := 3.
Definition TIOCL_SELLINE : Z := 2.
End Consts.
Import Consts.

(** ** Data *)

(** [struct termios]; [tcflag_t] is a 32-bit unsigned integer. *)
Record termios := mk_termios {
  c_iflag : Z;
  c_oflag : Z;
  c_cflag : Z;
  c_lflag : Z;
  c_cc : list Z
}.

(** The two fields of [struct stat] that [main] looks at. *)
Record stat_t := mk_stat {
  st_mode : Z;
  st_rdev : Z
}.

(** [struct tiocl_selection] *)
Record tiocl_selection := mk_sel {
  xs : Z;
  ys : Z;
  xe : Z;
  ye : Z;
  sel_mode : Z
}.

(** The [ioctl] requests the program issues, with their arguments. *)
Inductive request :=
| VT_GETSTATE
| VT_ACTIVATE (n : Z)
| VT_WAITACTIVE (n : Z)
| TIOCLINUX (subcode : Z) (sel : tiocl_selection).

Inductive stream := stdout | stderr.

(** Functions registered with [atexit] and started with [pthread_create]
    are named rather than stored, so that the world stays first order. *)
Inductive handler := H_restore_tty.
Inductive routine := R_rw_thread.

(** What the process asks of its environment.  [Read] carries the bytes the
    call placed in the buffer, [Write] the bytes it was given. *)
Inductive call :=
| Stat (path : string)
| Open (path : string) (flags : Z)
| Ioctl (fd : Z) (req : request)
| Tcgetattr (fd : Z)
| Tcsetattr (fd : Z) (actions : Z) (tio : termios)
| Atexit (h : handler)
| Poll (fd : Z) (events : Z) (timeout : Z)
| Read (fd : Z) (count : Z) (data : list byte)
| Write (fd : Z) (buf : list byte)
| Kill (pid : Z) (sig : Z)
| Sigprocmask (how : Z) (set : Z)
| PthreadCreate (start : routine) (arg : Z)
| PthreadJoin
| Fputs (fp : stream) (s : string)
| Perror (s : string) (errnum : Z).

(** The kernel state the program depends on or changes. *)
Record kernel := mk_kernel {
  k_active : Z;                 (* [vt_stat.v_active], the foreground console *)
  k_sel_from : option Z;        (* console the selection buffer was taken from *)
  k_tio : termios;              (* attributes of the controlling terminal *)
  k_blocked : Z;                (* blocked signals, bit [sig - 1] for [sig] *)
  k_pending : Z                 (* pending signals, same layout *)
}.

(** How the environment answers one call.  A call that fails returns [-1]
    (or, for the pthread functions, the error number) and reports
    [rp_errno]; the other fields are what a successful call delivers, each
    call using the ones it needs. *)
Record reply := mk_reply {
  rp_fail : bool;
  rp_errno : positive;
  rp_val : nat;
  rp_bytes : list byte;
  rp_stat : stat_t
}.

Record world := mk_world {
  w_script : list reply;        (* replies to the calls still to come *)
  w_kernel : kernel;
  w_errno : Z;                  (* [errno] *)
  tty_fd : Z;                   (* [static int tty_fd] *)
  orig_tio : termios;           (* [static struct termios orig_tio] *)
  w_atexit : list handler;      (* registered exit handlers, last first *)
  w_thread : option (routine * Z) (* thread created and not yet joined *)
}.

(** One line of the log of a run: the kernel state when the call was issued,
    the call, what it returned, and [errno] after it. *)
Record entry := mk_entry {
  e_kernel : kernel;
  e_call : call;
  e_ret : Z;
  e_errno : Z
}.

(** ** The monad *)

(** A computation returns, calls [exit], is killed by a signal, or is
    still waiting for the environment when the script ends. *)
Inductive outcome (A : Type) :=
| Ret (a : A)
| Exit (status : Z)
| Signaled (sig : Z)
| Stalled.
Arguments Ret {A} a.
Arguments Exit {A} status.
Arguments Signaled {A} sig.
Arguments Stalled {A}.

Definition M (A : Type) : Type := world -> outcome A * world * list entry.

Definition ret {A} (a : A) : M A := fun w => (Ret a, w, []).

Definition bind {A B} (m : M A) (k : A -> M B) : M B := fun w =>
  match m w with
  | (Ret a, w1, l1) =>
      match k a w1 with
      | (o, w2, l2) => (o, w2, l1 ++ l2)
      end
  | (Exit c, w1, l1) => (Exit c, w1, l1)
  | (Signaled s, w1, l1) => (Signaled s, w1, l1)
  | (Stalled, w1, l1) => (Stalled, w1, l1)
  end.

Declare Scope prog_scope.
Delimit Scope prog_scope with prog.
Notation "x <- m ;; k" := (bind m (fun x => k))
  (at level 61, m at next level, right associativity) : prog_scope.
Notation "m ;; k" := (bind m (fun _ => k))
  (at level 61, right associativity) : prog_scope.
Notation "' pat <- m ;; k" := (bind m (fun x => match x with pat => k end))
  (at level 61, pat pattern, m at next level, right associativity)
  : prog_scope.
Open Scope prog_scope.

Definition exit {A} (status : Z) : M A := fun w => (Exit status, w, []).
Definition killed {A} (sig : Z) : M A := fun w => (Signaled sig, w, []).

Definition get : M world := fun w => (Ret w, w, []).
Definition get_errno : M Z := fun w => (Ret (w_errno w), w, []).

Definition set_errno (e : Z) : M unit := fun w =>
  (Ret tt, mk_world (w_script w) (w_kernel w) e (tty_fd w) (orig_tio w)
                    (w_atexit w) (w_thread w), []).
Definition set_kernel (k : kernel) : M unit := fun w =>
  (Ret tt, mk_world (w_script w) k (w_errno w) (tty_fd w) (orig_tio w)
                    (w_atexit w) (w_thread w), []).
Definition set_tty_fd (fd : Z) : M unit := fun w =>
  (Ret tt, mk_world (w_script w) (w_kernel w) (w_errno w) fd (orig_tio w)
                    (w_atexit w) (w_thread w), []).
Definition set_orig_tio (t : termios) : M unit := fun w =>
  (Ret tt, mk_world (w_script w) (w_kernel w) (w_errno w) (tty_fd w) t
                    (w_atexit w) (w_thread w), []).
Definition set_atexit (hs : list handler) : M unit := fun w =>
  (Ret tt, mk_world (w_script w) (w_kernel w) (w_errno w) (tty_fd w)
                    (orig_tio w) hs (w_thread w), []).
Definition set_thread (t : option (routine * Z)) : M unit := fun w =>
  (Ret tt, mk_world (w_script w) (w_kernel w) (w_errno w) (tty_fd w)
                    (orig_tio w) (w_atexit w) t, []).

(** The next reply of the environment; the computation stalls when the
    script has none left. *)
Definition next_reply : M reply := fun w =>
  match w_script w with
  | [] => (Stalled, w, [])
  | r :: s =>
      (Ret r, mk_world s (w_kernel w) (w_errno w) (tty_fd w) (orig_tio w)
                       (w_atexit w) (w_thread w), [])
  end.

(** Log a call and its return value, with the kernel state and [errno] of
    the moment. *)
Definition emit (c : call) (r : Z) : M unit := fun w =>
  (Ret tt, w, [mk_entry (w_kernel w) c r (w_errno w)]).

(** A call that failed: [errno] is set and [-1] returned. *)
Definition failed (c : call) (e : positive) : M Z :=
  set_errno (Z.pos e) ;; emit c (-1) ;; ret (-1).

Definition when (b : bool) (m : M unit) : M unit := if b then m else ret tt.

(** ** Signal sets *)

Definition sigbit (sig : Z) : Z := Z.shiftl 1 (sig - 1).
Definition sigemptyset : Z := 0.

(** The C library keeps two signals for its threads, [SIGCANCEL] and
    [SIGSETXID]; its [sigfillset] leaves them out of the set. *)
Definition reserved : Z := Z.lor (sigbit SIGCANCEL) (sigbit SIGSETXID).
Definition sigfillset : Z := Z.ldiff (Z.ones NSIG) reserved.
Definition sigaddset (set sig : Z) : Z := Z.lor set (sigbit sig).
Definition sigdelset (set sig : Z) : Z := Z.ldiff set (sigbit sig).
Definition sigismember (set sig : Z) : bool := Z.testbit set (sig - 1).

(** [SIGKILL] and [SIGSTOP] cannot be blocked; the kernel drops them from
    the set silently. *)
Definition unmaskable : Z := Z.lor (sigbit SIGKILL) (sigbit SIGSTOP).

(** The lowest signal that is pending and not blocked, if there is one. *)
Definition deliverable (k : kernel) : option Z :=
  let d := Z.ldiff (k_pending k) (k_blocked k) in
  if d =? 0 then None else Some (Z.log2 (Z.land d (- d)) + 1).

(** The signals the process sends itself all have the default disposition,
    which for [SIGPIPE] terminates the process. *)
Definition deliver : M unit :=
  w <- get ;;
  match deliverable (w_kernel w) with
  | Some sig => killed sig
  | None => ret tt
  end.

(** ** The system and library calls *)

Definition stat (path : string) : M (Z * stat_t) :=
  r <- next_reply ;;
  if rp_fail r then
    rc <- failed (Stat path) (rp_errno r) ;; ret (rc, rp_stat r)
  else
    emit (Stat path) 0 ;; ret (0, rp_stat r).

Definition open (path : string) (flags : Z) : M Z :=
  r <- next_reply ;;
  if rp_fail r then failed (Open path flags) (rp_errno r)
  else
    let fd := Z.of_nat (rp_val r) in
    emit (Open path flags) fd ;; ret fd.

(** What a successful [ioctl] does to the kernel state: [VT_ACTIVATE n]
    brings console [n] to the foreground, and [VT_WAITACTIVE n] returns
    once it is there; [TIOCL_SETSEL] fills the selection buffer from the
    console that is in the foreground. *)
Definition ioctl_effect (req : request) (k : kernel) : kernel :=
  match req with
  | VT_GETSTATE => k
  | VT_ACTIVATE n =>
      mk_kernel n (k_sel_from k) (k_tio k) (k_blocked k) (k_pending k)
  | VT_WAITACTIVE _ => k
  | TIOCLINUX subcode _ =>
      if subcode =? TIOCL_SETSEL then
        mk_kernel (k_active k) (Some (k_active k)) (k_tio k)
                  (k_blocked k) (k_pending k)
      else k
  end.

Definition ioctl (fd : Z) (req : request) : M Z :=
  r <- next_reply ;;
  if rp_fail r then failed (Ioctl fd req) (rp_errno r)
  else
    emit (Ioctl fd req) 0 ;;
    w <- get ;;
    set_kernel (ioctl_effect req (w_kernel w)) ;;
    ret 0.

(** [ioctl(fd, VT_GETSTATE, &vts)], returning [vts.v_active] as well. *)
Definition ioctl_VT_GETSTATE (fd : Z) : M (Z * Z) :=
  rc <- ioctl fd VT_GETSTATE ;;
  w <- get ;;
  ret (rc, k_active (w_kernel w)).

Definition tcgetattr (fd : Z) : M (Z * termios) :=
  r <- next_reply ;;
  w <- get ;;
  if rp_fail r then
    rc <- failed (Tcgetattr fd) (rp_errno r) ;; ret (rc, k_tio (w_kernel w))
  else
    emit (Tcgetattr fd) 0 ;; ret (0, k_tio (w_kernel w)).

Definition tcsetattr (fd : Z) (actions : Z) (tio : termios) : M Z :=
  r <- next_reply ;;
  if rp_fail r then failed (Tcsetattr fd actions tio) (rp_errno r)
  else
    emit (Tcsetattr fd actions tio) 0 ;;
    w <- get ;;
    let k := w_kernel w in
    set_kernel (mk_kernel (k_active k) (k_sel_from k) tio
                          (k_blocked k) (k_pending k)) ;;
    ret 0.

Definition atexit (h : handler) : M Z :=
  emit (Atexit h) 0 ;;
  w <- get ;;
  set_atexit (h :: w_atexit w) ;;
  ret 0.

(** [poll] on one descriptor: [-1], [0] on timeout, or [1]. *)
Definition poll (fd : Z) (events : Z) (timeout : Z) : M Z :=
  r <- next_reply ;;
  if rp_fail r then failed (Poll fd events timeout) (rp_errno r)
  else
    let rc := Z.min (Z.of_nat (rp_val r)) 1 in
    emit (Poll fd events timeout) rc ;; ret rc.

(** [read] returns the number of bytes placed in the buffer, at most
    [count], together with these bytes. *)
Definition read (fd : Z) (count : Z) : M (Z * list byte) :=
  r <- next_reply ;;
  if rp_fail r then
    rc <- failed (Read fd count []) (rp_errno r) ;; ret (rc, [])
  else
    let data := firstn (Z.to_nat count) (rp_bytes r) in
    let n := Z.of_nat (List.length data) in
    emit (Read fd count data) n ;; ret (n, data).

(** [write] transfers a prefix of the buffer and returns its length. *)
Definition write (fd : Z) (buf : list byte) : M Z :=
  r <- next_reply ;;
  if rp_fail r then failed (Write fd buf) (rp_errno r)
  else
    let m := Z.min (Z.of_nat (rp_val r)) (Z.of_nat (List.length buf)) in
    emit (Write fd buf) m ;; ret m.

Definition with_signals (blocked pending : Z) (k : kernel) : kernel :=
  mk_kernel (k_active k) (k_sel_from k) (k_tio k) blocked pending.

(** A signal sent with [kill(0, sig)] reaches the whole process group, the
    sender included, where it stays pending while it is blocked. *)
Definition kill (pid : Z) (sig : Z) : M Z :=
  emit (Kill pid sig) 0 ;;
  w <- get ;;
  let k := w_kernel w in
  set_kernel (with_signals (k_blocked k) (Z.lor (k_pending k) (sigbit sig)) k) ;;
  deliver ;;
  ret 0.

Definition sigprocmask (how : Z) (set : Z) : M Z :=
  emit (Sigprocmask how set) 0 ;;
  w <- get ;;
  let k := w_kernel w in
  let blocked :=
    if how =? SIG_BLOCK then Z.lor (k_blocked k) (Z.ldiff set unmaskable)
    else if how =? SIG_UNBLOCK then Z.ldiff (k_blocked k) set
    else Z.ldiff set unmaskable in
  set_kernel (with_signals blocked (k_pending k) k) ;;
  deliver ;;
  ret 0.

(** The pthread functions return an error number, not [-1], when they
    fail, and leave [errno] alone. *)
Definition pthread_create (start : routine) (arg : Z) : M Z :=
  r <- next_reply ;;
  if rp_fail r then
    emit (PthreadCreate start arg) (Z.pos (rp_errno r)) ;;
    ret (Z.pos (rp_errno r))
  else
    emit (PthreadCreate start arg) 0 ;;
    set_thread (Some (start, arg)) ;;
    ret 0.

(** The calls of the worker thread are placed in the log where the main
    thread joins it: the worker spends its life waiting for the paste, and
    the main thread does nothing between the paste and the join.  A worker
    that calls [exit] is shown at the join as well, though it may do so
    while the main thread is still in [init_tty].  Joining when no thread
    was created, which C leaves undefined, is answered with [ESRCH]. *)
Definition pthread_join (run : routine -> Z -> M Z) : M Z :=
  w <- get ;;
  match w_thread w with
  | Some (start, arg) =>
      run start arg ;;
      set_thread None ;;
      emit PthreadJoin 0 ;;
      ret 0
  | None =>
      emit PthreadJoin ESRCH ;; ret ESRCH
  end.

Definition fputs (fp : stream) (s : string) : M unit := emit (Fputs fp s) 0.

Definition perror (s : string) : M unit :=
  e <- get_errno ;; emit (Perror s e) 0.

(** [major] and [minor] of <sys/sysmacros.h>. *)
Definition major (dev : Z) : Z :=
  Z.lor (Z.land (Z.shiftr dev 32) 4294963200) (Z.land (Z.shiftr dev 8) 4095).
Definition minor (dev : Z) : Z :=
  Z.lor (Z.land (Z.shiftr dev 12) 4294967040) (Z.land dev 255).
Definition makedev (maj min : Z) : Z :=
  Z.lor (Z.lor (Z.shiftl (Z.land maj 4095) 8)
               (Z.shiftl (Z.land maj 4294963200) 32))
        (Z.lor (Z.land min 255) (Z.shiftl (Z.land min 4294967040) 12)).

(** ** [getopt]

    GNU [getopt] without [POSIXLY_CORRECT]: arguments that are not options
    are skipped and end up after the options, [--] ends the options, and an
    option character followed by [:] in [optstring] takes an argument, the
    rest of its element or else the next element.  Only the first option
    found matters to [main]. *)

Inductive getopt_result :=
| GetoptOption (opt : ascii) (optarg : string)
| GetoptError (diag : string)
| GetoptEnd (operands : list string).

Definition nl : string := String "010"%char EmptyString.

(** Whether [c] is an option character of [optstring], and if so whether it
    takes an argument. *)
Fixpoint optspec (c : ascii) (optstring : string) : option bool :=
  match optstring with
  | EmptyString => None
  | String d rest =>
      if (Ascii.eqb c d && negb (Ascii.eqb c ":"%char))%bool then
        Some match rest with
             | String ":"%char _ => true
             | _ => false
             end
      else optspec c rest
  end.

Fixpoint getopt_scan (argv0 : string) (optstring : string)
    (args skipped : list string) : getopt_result :=
  match args with
  | [] => GetoptEnd (rev skipped)
  | a :: rest =>
      if String.eqb a "--" then GetoptEnd (rev skipped ++ rest)
      else
        match a with
        | String "-"%char (String c tail) =>
            match optspec c optstring with
            | None =>
                GetoptError (argv0 ++ ": invalid option -- '"
                             ++ String c "'" ++ nl)%string
            | Some false => GetoptOption c EmptyString
            | Some true =>
                match tail, rest with
                | EmptyString, [] =>
                    GetoptError (argv0 ++ ": option requires an argument -- '"
                                 ++ String c "'" ++ nl)%string
                | EmptyString, x :: _ => GetoptOption c x
                | _, _ => GetoptOption c tail
                end
            end
        | _ => getopt_scan argv0 optstring rest (a :: skipped)
        end
  end.

Definition getopt (argv : list string) (optstring : string) : getopt_result :=
  getopt_scan (hd EmptyString argv) optstring (tl argv) [].

(** ** The program *)

Definition show_usage (fp : stream) : M unit :=
  fputs fp ("Usage: " ++ PROGRAM_NAME ++ " /dev/ttyN" ++ nl)%string ;;
  match fp with
  | stdout =>
      fputs fp (nl ++ "Options:" ++ nl
                ++ "  -h, --help  show this help message and exit" ++ nl)%string
  | stderr => ret tt
  end.

Definition xerror {A} (context : string) : M A :=
  orig_errno <- get_errno ;;
  fputs stderr (PROGRAM_NAME ++ ": ")%string ;;
  set_errno orig_errno ;;
  perror context ;;
  exit EXIT_FAILURE.

Definition chvt (fd : Z) (n : Z) : M unit :=
  rc <- ioctl fd (VT_ACTIVATE n) ;;
  when (rc <? 0) (xerror "VT_ACTIVATE") ;;
  rc <- ioctl fd (VT_WAITACTIVE n) ;;
  when (rc <? 0) (xerror "VT_WAITACTIVE").

Definition restore_tty : M unit :=
  w <- get ;;
  if tty_fd w <? 0 then ret tt
  else
    rc <- tcsetattr (tty_fd w) TCSAFLUSH (orig_tio w) ;;
    when (rc <? 0) (xerror "tcsetattr()") ;;
    set_tty_fd (-1).

(** [tio.c_lflag &= ~ECHO] on the 32-bit [tcflag_t]. *)
Definition clear_echo (tio : termios) : termios :=
  mk_termios (c_iflag tio) (c_oflag tio) (c_cflag tio)
             (Z.land (c_lflag tio) (Z.lnot ECHO) mod 2 ^ 32)
             (c_cc tio).

Definition init_tty (fd : Z) : M unit :=
  '(rc, tio) <- tcgetattr fd ;;
  when (rc <? 0) (xerror "tcgetattr()") ;;
  set_orig_tio tio ;;
  rc <- tcsetattr fd TCSAFLUSH (clear_echo tio) ;;
  when (rc <? 0) (xerror "tcsetattr()") ;;
  set_tty_fd fd ;;
  atexit H_restore_tty ;;
  ret tt.

(** The loop of [rw_thread], with its two flags as arguments; it returns
    [write_error] when the loop is left by [break].  Every round takes at
    least one reply from the script, so the rounds are bounded by [fuel],
    which [rw_thread] sets above the length of the script. *)
Fixpoint rw_loop (fuel : nat) (fd : Z) (empty : bool) (write_error : Z)
    : M Z :=
  match fuel with
  | O => fun w => (Stalled, w, [])
  | S fuel' =>
      rc <- poll fd POLLIN 1000 ;;
      if rc <? 0 then xerror "poll()"
      else if rc =? 0 then
        if empty then set_errno ETIME ;; xerror "poll()"
        else ret write_error
      else
        '(n, buf) <- read fd PIPE_BUF ;;
        if n =? 0 then ret write_error
        else if n <? 0 then xerror "read()"
        else
          write_error' <-
            (if write_error =? 0 then
               m <- write STDOUT_FILENO buf ;;
               if m <? 0 then get_errno
               else if negb (m =? n) then ret EIO
               else ret write_error
             else ret write_error) ;;
          rw_loop fuel' fd false write_error'
  end.

(** The statements of [rw_thread] after the loop. *)
Definition rw_finish (write_error : Z) : M Z :=
  (if write_error =? EPIPE then
     kill 0 SIGPIPE ;; ret tt
   else if negb (write_error =? 0) then
     set_errno write_error ;; xerror "write()"
   else ret tt) ;;
  ret 0.

Definition rw_thread (arg : Z) : M Z :=
  let fd := arg in
  w <- get ;;
  write_error <- rw_loop (S (List.length (w_script w))) fd true 0 ;;
  rw_finish write_error.

Definition start_routine (r : routine) : Z -> M Z :=
  match r with
  | R_rw_thread => rw_thread
  end.

Definition full_screen : tiocl_selection :=
  mk_sel 1 1 SHRT_MAX SHRT_MAX TIOCL_SELLINE.

(** The end of [snoop], from the join of the worker on. *)
Definition snoop_join (sig_mask : Z) : M unit :=
  rc <- pthread_join start_routine ;;
  when (rc <? 0) (xerror "pthread_join()") ;;
  restore_tty ;;
  sigprocmask SIG_UNBLOCK sig_mask ;;
  ret tt.

Definition snoop (n : Z) : M unit :=
  fd <- open "/dev/tty" O_RDWR ;;
  when (fd <? 0) (xerror "/dev/tty") ;;
  '(rc, v_active) <- ioctl_VT_GETSTATE fd ;;
  when (rc <? 0) (xerror "VT_GETSTATE") ;;
  let orig_vt := v_active in
  chvt fd n ;;
  rc <- ioctl 0 (TIOCLINUX TIOCL_SETSEL full_screen) ;;
  when (rc <? 0) (xerror "TIOCL_SETSEL") ;;
  chvt fd orig_vt ;;
  let sig_mask := sigaddset sigfillset SIGPIPE in
  sigprocmask SIG_BLOCK sig_mask ;;
  rc <- pthread_create R_rw_thread fd ;;
  when (rc <? 0) (xerror "pthread_create()") ;;
  init_tty fd ;;
  rc <- ioctl 0 (TIOCLINUX TIOCL_PASTESEL full_screen) ;;
  when (rc <? 0) (xerror "TIOCL_PASTESEL") ;;
  snoop_join sig_mask.

(** The part of [main] after the options: the device check and the call of
    [snoop]. *)
Definition main_device (path : string) : M Z :=
  '(rc, sb) <- stat path ;;
  if rc <? 0 then xerror path
  else if negb (Z.land (st_mode sb) S_IFMT =? S_IFCHR) then
    set_errno ENOTTY ;; xerror path
  else if negb (major (st_rdev sb) =? TTY_MAJOR) then
    set_errno ENOTTY ;; xerror path
  else
    let sb_minor := minor (st_rdev sb) in
    if ((sb_minor <? MIN_NR_CONSOLES) || (sb_minor >? MAX_NR_CONSOLES))%bool
    then set_errno ENOTTY ;; xerror path
    else snoop sb_minor ;; ret 0.

(** Every arm of the [switch] in the option loop leaves the process, so the
    loop body runs at most once, on the first option [getopt] finds. *)
Definition main (argv : list string) : M Z :=
  match getopt argv "h-:" with
  | GetoptOption opt optarg =>
      if Ascii.eqb opt "h" then
        show_usage stdout ;; exit EXIT_SUCCESS
      else if (Ascii.eqb opt "-" && String.eqb optarg "help")%bool then
        show_usage stdout ;; exit EXIT_SUCCESS
      else
        show_usage stderr ;; exit EXIT_FAILURE
  | GetoptError diag =>
      fputs stderr diag ;;
      show_usage stderr ;; exit EXIT_FAILURE
  | GetoptEnd operands =>
      match operands with
      | [path] => main_device path
      | _ => show_usage stderr ;; exit EXIT_FAILURE
      end
  end.

(** ** The process *)

Inductive status :=
| Exited (code : Z)
| Killed (sig : Z)
| Hung.

Definition call_handler (h : handler) : M unit :=
  match h with
  | H_restore_tty => restore_tty
  end.

(** [exit] runs the registered handlers, last registered first, each one
    once; a handler that calls [exit] itself hands over to the handlers
    that remain. *)
Fixpoint run_exit (hs : list handler) (code : Z) (w : world)
    : status * world * list entry :=
  match hs with
  | [] => (Exited (Z.land code 255), w, [])
  | h :: hs' =>
      match (set_atexit hs' ;; call_handler h) w with
      | (Ret _, w1, l1) =>
          match run_exit hs' code w1 with
          | (s, w2, l2) => (s, w2, l1 ++ l2)
          end
      | (Exit code', w1, l1) =>
          match run_exit hs' code' w1 with
          | (s, w2, l2) => (s, w2, l1 ++ l2)
          end
      | (Signaled sig, w1, l1) => (Killed sig, w1, l1)
      | (Stalled, w1, l1) => (Hung, w1, l1)
      end
  end.

Definition process (argv : list string) (w : world)
    : status * world * list entry :=
  match main argv w with
  | (Ret code, w1, l1) | (Exit code, w1, l1) =>
      match run_exit (w_atexit w1) code w1 with
      | (s, w2, l2) => (s, w2, l1 ++ l2)
      end
  | (Signaled sig, w1, l1) => (Killed sig, w1, l1)
  | (Stalled, w1, l1) => (Hung, w1, l1)
  end.

(** The world in which a process starts: nothing registered, no thread,
    the globals as initialised, [tty_fd] to [-1] and [orig_tio] to zero. *)
Definition initial_world (script : list reply) (k : kernel) : world :=
  mk_world script k 0 (-1) (mk_termios 0 0 0 0 []) [] None.

(** ** Logs *)

Definition calls (l : list entry) : list call := map e_call l.

Definition usage_line : string :=
  ("Usage: " ++ PROGRAM_NAME ++ " /dev/ttyN" ++ nl)%string.

Definition options_text : string :=
  (nl ++ "Options:" ++ nl
   ++ "  -h, --help  show this help message and exit" ++ nl)%string.

(** An element of [argv] that [getopt] takes for options: a dash followed
    by at least one more character. *)
Definition is_option_element (a : string) : bool :=
  match a with
  | String "-"%char (String _ _) => true
  | _ => false
  end.


(** As the specification words it: the path stats as a character device on
    the console major with a minor in the range of console indices. *)
Definition console_device (sb : stat_t) : Prop :=
  Z.land (st_mode sb) S_IFMT = S_IFCHR /\
  major (st_rdev sb) = TTY_MAJOR /\
  MIN_NR_CONSOLES <= minor (st_rdev sb) <= MAX_NR_CONSOLES.

(** The report of [xerror]: the two things it writes to standard error. *)
Definition report (context : string) (errnum : Z) : list call :=
  [Fputs stderr (PROGRAM_NAME ++ ": ")%string; Perror context errnum].


(** ** Sample environments *)

Module Sample.
(** A terminal in cooked mode with echo on (ISIG, ICANON, ECHO). *)
Definition cooked : termios := mk_termios 0 0 0 11 [].

(** Console 1 in the foreground, no selection, no signal blocked. *)
Definition idle : kernel := mk_kernel 1 None cooked 0 0.

(** Replies: success with a value, success with data, failure. *)
Definition ok (v : nat) : reply := mk_reply false 1 v [] (mk_stat 0 0).
Definition bytes (bs : list byte) : reply :=
  mk_reply false 1 1 bs (mk_stat 0 0).
Definition err (e : Z) : reply :=
  mk_reply true (Z.to_pos e) 0 [] (mk_stat 0 0).
Definition stat_ok (mode rdev : Z) : reply :=
  mk_reply false 1 0 [] (mk_stat mode rdev).

(** [/dev/tty2] is character device 4:2; a regular file has [S_IFREG]. *)
Definition tty2 : reply := stat_ok 8592 (makedev 4 2).
Definition regular : reply := stat_ok 33188 0.
End Sample.

Definition is_tcsetattr (e : entry) : bool :=
  match e_call e with
  | Tcsetattr _ _ _ => true
  | _ => false
  end.

Definition is_poll (e : entry) : bool :=
  match e_call e with
  | Poll _ _ _ => true
  | _ => false
  end.

Definition is_read (e : entry) : bool :=
  match e_call e with
  | Read _ _ _ => true
  | _ => false
  end.

Definition is_write (e : entry) : bool :=
  match e_call e with
  | Write _ _ => true
  | _ => false
  end.

(** A [write] that did not transfer the whole buffer: it returned [-1] or a
    count other than the size of the buffer. *)
Definition write_failed (e : entry) : bool :=
  match e_call e with
  | Write _ buf =>
      ((e_ret e <? 0) || negb (e_ret e =? Z.of_nat (List.length buf)))%bool
  | _ => false
  end.

(** The chunks the [read] calls of a log delivered, in order. *)
Fixpoint chunks_read (l : list entry) : list (list byte) :=
  match l with
  | [] => []
  | e :: l' =>
      match e_call e with
      | Read _ _ data =>
          if 0 <? e_ret e then data :: chunks_read l' else chunks_read l'
      | _ => chunks_read l'
      end
  end.

(** The bytes a log entry put on standard output. *)
Definition written (e : entry) : list byte :=
  match e_call e with
  | Write fd buf =>
      if fd =? STDOUT_FILENO then firstn (Z.to_nat (e_ret e)) buf else []
  | _ => []
  end.

Definition stdout_bytes (l : list entry) : list byte := flat_map written l.

(** ** The runs of the relay loop

    [loop_run k fd empty write_error errno l o errno'] describes one run of
    the loop of [rw_thread] started with the flags [empty] and
    [write_error]: the log [l] it leaves, its outcome [o] ([Ret] of the
    final [write_error] when the loop is left by [break]), and [errno]
    before and after. *)

Section LoopRun.

Variable k : kernel.
Variable fd : Z.

Definition polled (rc en : Z) : entry := mk_entry k (Poll fd POLLIN 1000) rc en.

Definition was_read (data : list byte) (n en : Z) : entry :=
  mk_entry k (Read fd PIPE_BUF data) n en.

Definition wrote (buf : list byte) (m en : Z) : entry :=
  mk_entry k (Write STDOUT_FILENO buf) m en.

Definition reported (context : string) (en : Z) : list entry :=
  [mk_entry k (Fputs stderr (PROGRAM_NAME ++ ": ")%string) 0 en;
   mk_entry k (Perror context en) 0 en].

Definition size (data : list byte) : Z := Z.of_nat (List.length data).

Inductive loop_run : bool -> Z -> Z -> list entry -> outcome Z -> Z -> Prop :=
| run_stalled_poll : forall empty we en,
    loop_run empty we en [] Stalled en
| run_poll_failed : forall empty we en e,
    loop_run empty we en
      (polled (-1) (Z.pos e) :: reported "poll()" (Z.pos e))
      (Exit EXIT_FAILURE) (Z.pos e)
| run_timeout_empty : forall we en,
    loop_run true we en
      (polled 0 en :: reported "poll()" ETIME) (Exit EXIT_FAILURE) ETIME
| run_timeout : forall we en,
    loop_run false we en [polled 0 en] (Ret we) en
| run_stalled_read : forall empty we en,
    loop_run empty we en [polled 1 en] Stalled en
| run_eof : forall empty we en,
    loop_run empty we en [polled 1 en; was_read [] 0 en] (Ret we) en
| run_read_failed : forall empty we en e,
    loop_run empty we en
      (polled 1 en :: was_read [] (-1) (Z.pos e) :: reported "read()" (Z.pos e))
      (Exit EXIT_FAILURE) (Z.pos e)
| run_stalled_write : forall empty en data,
    data <> [] ->
    loop_run empty 0 en [polled 1 en; was_read data (size data) en] Stalled en
| run_discard : forall empty we en data l o en',
    we <> 0 -> data <> [] ->
    loop_run false we en l o en' ->
    loop_run empty we en
      (polled 1 en :: was_read data (size data) en :: l) o en'
| run_forward : forall empty en data l o en',
    data <> [] ->
    loop_run false 0 en l o en' ->
    loop_run empty 0 en
      (polled 1 en :: was_read data (size data) en
       :: wrote data (size data) en :: l) o en'
| run_write_failed : forall empty en data e l o en',
    data <> [] ->
    loop_run false (Z.pos e) (Z.pos e) l o en' ->
    loop_run empty 0 en
      (polled 1 en :: was_read data (size data) en
       :: wrote data (-1) (Z.pos e) :: l) o en'
| run_write_short : forall empty en data m l o en',
    data <> [] -> 0 <= m < size data ->
    loop_run false EIO en l o en' ->
    loop_run empty 0 en
      (polled 1 en :: was_read data (size data) en
       :: wrote data m en :: l) o en'.

End LoopRun.

Definition is_kill (e : entry) : bool :=
  match e_call e with
  | Kill _ _ => true
  | _ => false
  end.

(** The calls of the loop that wait for and take input. *)
Definition is_input (e : entry) : bool := (is_poll e || is_read e)%bool.

(** No [poll] and no [read] of the log failed. *)
Definition input_ok (l : list entry) : Prop :=
  forall x, In x l -> is_input x = true -> 0 <= e_ret x.

(** The value [rw_thread] keeps in [write_error] for a failed [write]. *)
Definition error_code (e : entry) : Z :=
  if e_ret e <? 0 then e_errno e else EIO.

(** The parts of the world the loop leaves alone. *)
Definition same_process (w w' : world) : Prop :=
  w_kernel w' = w_kernel w /\ tty_fd w' = tty_fd w /\
  orig_tio w' = orig_tio w /\ w_atexit w' = w_atexit w /\
  w_thread w' = w_thread w.


(** The calls the worker thread can make. *)
Definition worker_call (c : call) : bool :=
  match c with
  | Poll _ _ _ | Read _ _ _ | Write _ _ | Kill _ _
  | Fputs _ _ | Perror _ _ => true
  | _ => false
  end.

(** The [ioctl] requests of a log, in order. *)
Fixpoint ioctls (l : list entry) : list request :=
  match l with
  | [] => []
  | e :: l' =>
      match e_call e with
      | Ioctl _ req => req :: ioctls l'
      | _ => ioctls l'
      end
  end.

(** The console requests of [snoop n] when console [orig] is in the
    foreground, in program order. *)
Definition choreography (n orig : Z) : list request :=
  [VT_GETSTATE;
   VT_ACTIVATE n; VT_WAITACTIVE n;
   TIOCLINUX TIOCL_SETSEL full_screen;
   VT_ACTIVATE orig; VT_WAITACTIVE orig;
   TIOCLINUX TIOCL_PASTESEL full_screen].

Definition is_create (e : entry) : bool :=
  match e_call e with
  | PthreadCreate _ _ => true
  | _ => false
  end.

(** The log from the first [pthread_create] on. *)
Fixpoint from_create (l : list entry) : list entry :=
  match l with
  | [] => []
  | e :: l' => if is_create e then e :: l' else from_create l'
  end.

(** Most signals are blocked: all of them but the two that cannot be
    blocked and the two the C library keeps for itself. *)
Definition blocks_most (k : kernel) : Prop :=
  forall sig, 1 <= sig <= NSIG ->
    sig <> SIGKILL -> sig <> SIGSTOP ->
    sig <> SIGCANCEL -> sig <> SIGSETXID ->
    sigismember (k_blocked k) sig = true.

Definition is_ioctl (e : entry) : bool :=
  match e_call e with
  | Ioctl _ _ => true
  | _ => false
  end.


Module Script.
Import Sample.

(** A run of [snoop] in which everything succeeds: the descriptor 3 for
    [/dev/tty], the seven console requests, the thread, the two terminal
    calls of [init_tty], the paste, then one chunk read and written, a
    timeout, and the [tcsetattr] of [restore_tty]. *)
Definition capture : list reply :=
  [ok 3; ok 0; ok 0; ok 0; ok 0; ok 0; ok 0;
   ok 0; ok 0; ok 0; ok 0;
   ok 1; bytes [x68; x69]; ok 2; ok 0;
   ok 0].

(** The same with [pthread_create] failing with [EAGAIN]. *)
Definition no_thread : list reply :=
  [ok 3; ok 0; ok 0; ok 0; ok 0; ok 0; ok 0;
   err EAGAIN; ok 0; ok 0; ok 0;
   ok 0].

(** The worker alone: one chunk forwarded, a short write on the second,
    a third chunk, then a timeout. *)
Definition short_write : list reply :=
  [ok 1; bytes [x61; x62]; ok 2;
   ok 1; bytes [x63; x64]; ok 1;
   ok 1; bytes [x65; x66];
   ok 0].

(** The worker alone: one chunk forwarded, [EPIPE] on the second, a third
    chunk, then a timeout. *)
Definition broken_pipe : list reply :=
  [ok 1; bytes [x61; x62]; ok 2;
   ok 1; bytes [x63; x64]; err EPIPE;
   ok 1; bytes [x65; x66];
   ok 0].

(** The kernel state in which [snoop] starts its worker: the idle state
    with the mask of [snoop] blocked. *)
Definition capturing : kernel :=
  mk_kernel 1 (Some 2) cooked
            (Z.ldiff (sigaddset sigfillset SIGPIPE) unmaskable) 0.

End Script.

(** The calls of a log with what they returned. *)
Definition returns (l : list entry) : list (call * Z) :=
  map (fun e => (e_call e, e_ret e)) l.


(** The three parts of a run. *)
Definition outcome_of {A} (r : outcome A * world * list entry) : outcome A :=
  fst (fst r).
Definition world_of {A} (r : outcome A * world * list entry) : world :=
  snd (fst r).
Definition log_of {A} (r : outcome A * world * list entry) : list entry :=
  snd r.

(** The buffers the [write] calls on standard output were given, in
    order. *)
Fixpoint chunks_written (l : list entry) : list (list byte) :=
  match l with
  | [] => []
  | e :: l' =>
      match e_call e with
      | Write fd buf =>
          if fd =? STDOUT_FILENO then buf :: chunks_written l'
          else chunks_written l'
      | _ => chunks_written l'
      end
  end.

(** Whether a call writes to standard error. *)
Definition to_stderr (e : entry) : bool :=
  match e_call e with
  | Fputs stderr _ | Perror _ _ => true
  | _ => false
  end.

(** A run that has written nothing to standard error if it returned, and
    something if it called [exit]. *)
Definition reports_on_exit {A} (o : outcome A) (l : list entry) : Prop :=
  (forall a, o = Ret a -> forall x, In x l -> to_stderr x = false) /\
  (forall c, o = Exit c ->
     c = EXIT_FAILURE /\ exists x, In x l /\ to_stderr x = true).

(** What the worker may ask for: to wait for and read from its descriptor,
    at most [PIPE_BUF] bytes at a time, and to write to standard output a
    buffer that is not empty and no longer than [PIPE_BUF]. *)
Definition bounded_transfer (fd : Z) (e : entry) : Prop :=
  match e_call e with
  | Poll f _ _ => f = fd
  | Read f count data => f = fd /\ count = PIPE_BUF /\ size data <= PIPE_BUF
  | Write f buf => f = STDOUT_FILENO /\ 0 < size buf <= PIPE_BUF
  | _ => True
  end.

(** Whether an entry is a report of the worker: [perror] with one of the
    three contexts [rw_thread] gives to [xerror]. *)
Definition worker_report (e : entry) : bool :=
  match e_call e with
  | Perror context _ =>
      (String.eqb context "poll()" || String.eqb context "read()"
       || String.eqb context "write()")%bool
  | _ => false
  end.

(** * Properties *)

(** ** The command line *)

Example usage_line_text :
  usage_line = ("Usage: vcsnoop /dev/ttyN" ++ nl)%string.
Proof. reflexivity. Qed.

Lemma getopt_scan_skip : forall argv0 optstring pre rest skipped,
  Forall (fun a => is_option_element a = false) pre ->
  getopt_scan argv0 optstring (pre ++ rest) skipped =
  getopt_scan argv0 optstring rest (rev pre ++ skipped).
Proof.
  induction pre as [|a pre IH]; intros rest skipped Hpre; [reflexivity|].
  inversion Hpre as [|? ? Ha Hpre']; subst.
  cbn [app getopt_scan rev].
  rewrite <- app_assoc. cbn [app]. rewrite <- IH by assumption.
  destruct a as [|c t]; [reflexivity|].
  destruct c as [[] [] [] [] [] [] [] []]; try reflexivity.
  destruct t as [|d t]; [reflexivity|discriminate].
Qed.

Lemma optspec_vcsnoop : forall c,
  optspec c "h-:" =
  if Ascii.eqb c "h" then Some false
  else if Ascii.eqb c "-" then Some true else None.
Proof.
  intros c. cbn.
  destruct (Ascii.eqb_spec c "h"); subst; [reflexivity|].
  destruct (Ascii.eqb_spec c "-"); subst; [reflexivity|].
  destruct (Ascii.eqb_spec c ":"); subst; reflexivity.
Qed.

Lemma getopt_scan_option : forall argv0 c t post skipped,
  String "-" (String c t) <> "--" ->
  getopt_scan argv0 "h-:" (String "-" (String c t) :: post) skipped =
  if Ascii.eqb c "h" then GetoptOption c EmptyString
  else if Ascii.eqb c "-" then GetoptOption c t
  else GetoptError (argv0 ++ ": invalid option -- '" ++ String c "'" ++ nl)%string.
Proof.
  intros argv0 c t post skipped Hne.
  cbn [getopt_scan].
  destruct (String.eqb_spec (String "-" (String c t)) "--") as [E|_];
    [contradiction|].
  rewrite optspec_vcsnoop.
  destruct (Ascii.eqb_spec c "h"); [reflexivity|].
  destruct (Ascii.eqb_spec c "-"); [subst c|reflexivity].
  destruct t; [contradiction Hne; reflexivity|reflexivity].
Qed.

Lemma getopt_scan_operands : forall argv0 pre post,
  Forall (fun a => is_option_element a = false) pre ->
  getopt_scan argv0 "h-:" pre [] = GetoptEnd pre /\
  getopt_scan argv0 "h-:" (pre ++ "--" :: post) [] = GetoptEnd (pre ++ post).
Proof.
  intros argv0 pre post Hpre. split.
  - rewrite <- (app_nil_r pre) at 1.
    rewrite getopt_scan_skip by assumption.
    cbn. now rewrite app_nil_r, rev_involutive.
  - rewrite getopt_scan_skip by assumption.
    cbn. now rewrite app_nil_r, rev_involutive.
Qed.

Lemma process_usage_error : forall argv w operands,
  w_atexit w = [] ->
  getopt argv "h-:" = GetoptEnd operands ->
  List.length operands <> 1%nat ->
  process argv w =
  (Exited 1, w, [mk_entry (w_kernel w) (Fputs stderr usage_line) 0 (w_errno w)]).
Proof.
  intros argv w operands Hat Hg Hlen.
  unfold process, main. rewrite Hg.
  destruct operands as [|p [|q ops]]; [|contradiction Hlen; reflexivity|];
    cbn; rewrite Hat; reflexivity.
Qed.

(** C8. The command line: when the first option on the command line is
    [-h] (alone or leading a cluster) or [--help], the usage line and the
    option summary go to standard output and the process exits with 0.
    When the first option is anything else, or when there is no option and
    the number of operands is not one, the usage line goes to standard
    error, nothing goes to standard output, and the process exits with 1. *)
Theorem cli_contract :
  forall (argv0 a : string) (pre post : list string)
         (script : list reply) (k : kernel),
    let w := initial_world script k in
    let out c := mk_entry k c 0 0 in
    Forall (fun x => is_option_element x = false) pre ->
    ((a = "--help" \/ exists t, a = String "-" (String "h" t)) ->
     process (argv0 :: pre ++ a :: post) w =
     (Exited 0, w,
      [out (Fputs stdout usage_line); out (Fputs stdout options_text)]))
    /\
    (is_option_element a = true -> a <> "--" -> a <> "--help" ->
     (forall t, a <> String "-" (String "h" t)) ->
     exists diag,
       process (argv0 :: pre ++ a :: post) w =
       (Exited 1, w,
        map (fun s => out (Fputs stderr s)) (diag ++ [usage_line])))
    /\
    (List.length pre <> 1%nat ->
     process (argv0 :: pre) w = (Exited 1, w, [out (Fputs stderr usage_line)]))
    /\
    (List.length (pre ++ post) <> 1%nat ->
     process (argv0 :: pre ++ "--" :: post) w =
     (Exited 1, w, [out (Fputs stderr usage_line)])).
Proof.
  intros argv0 a pre post script k w out Hpre.
  assert (Hscan : forall x,
    getopt (argv0 :: pre ++ x :: post) "h-:" =
    getopt_scan argv0 "h-:" (x :: post) (rev pre ++ [])).
  { intros x. unfold getopt. cbn [hd tl].
    now apply getopt_scan_skip. }
  repeat split.
  - intros [->|[t ->]]; unfold process, main; rewrite Hscan;
      rewrite getopt_scan_option by discriminate; reflexivity.
  - intros Hopt Hdd Hhelp Hh.
    destruct a as [|c0 [|c t]]; try discriminate;
      destruct c0 as [[] [] [] [] [] [] [] []]; try discriminate.
    unfold process, main. rewrite Hscan.
    rewrite getopt_scan_option by assumption.
    destruct (Ascii.eqb_spec c "h") as [->|Hc];
      [exfalso; apply (Hh t); reflexivity|].
    destruct (Ascii.eqb_spec c "-") as [->|Hc'].
    + destruct (Ascii.eqb_spec "-" "h"); [discriminate|].
      destruct (String.eqb_spec t "help") as [->|Ht];
        [contradiction Hhelp; reflexivity|].
      exists []. reflexivity.
    + eexists [_]. reflexivity.
  - intros Hlen.
    apply process_usage_error with (operands := pre);
      [reflexivity| |assumption].
    unfold getopt. cbn [hd tl].
    now apply (getopt_scan_operands argv0 pre post).
  - intros Hlen.
    apply process_usage_error with (operands := pre ++ post);
      [reflexivity| |assumption].
    unfold getopt. cbn [hd tl].
    now apply getopt_scan_operands.
Qed.

(** ** The device check *)

Lemma console_device_dec : forall sb,
  {console_device sb} + {~ console_device sb}.
Proof.
  intros sb. unfold console_device.
  destruct (Z.eq_dec (Z.land (st_mode sb) S_IFMT) S_IFCHR);
    [|right; tauto].
  destruct (Z.eq_dec (major (st_rdev sb)) TTY_MAJOR); [|right; tauto].
  destruct (Z_le_dec MIN_NR_CONSOLES (minor (st_rdev sb))); [|right; tauto].
  destruct (Z_le_dec (minor (st_rdev sb)) MAX_NR_CONSOLES); [|right; tauto].
  left; tauto.
Qed.

Lemma main_device_run : forall path r script k en tfd otio hs th,
  let w := mk_world (r :: script) k en tfd otio hs th in
  let w1 e := mk_world script k e tfd otio hs th in
  let sb := rp_stat r in
  main_device path w =
  if rp_fail r then
    (Exit EXIT_FAILURE, w1 (Z.pos (rp_errno r)),
     [mk_entry k (Stat path) (-1) (Z.pos (rp_errno r));
      mk_entry k (Fputs stderr "vcsnoop: ") 0 (Z.pos (rp_errno r));
      mk_entry k (Perror path (Z.pos (rp_errno r))) 0 (Z.pos (rp_errno r))])
  else if console_device_dec sb then
    match (snoop (minor (st_rdev sb)) ;; ret 0) (w1 en) with
    | (o, w', l) => (o, w', mk_entry k (Stat path) 0 en :: l)
    end
  else
    (Exit EXIT_FAILURE, w1 ENOTTY,
     [mk_entry k (Stat path) 0 en;
      mk_entry k (Fputs stderr "vcsnoop: ") 0 ENOTTY;
      mk_entry k (Perror path ENOTTY) 0 ENOTTY]).
Proof.
  intros path [pf pe pv pb [mode rdev]] script k en tfd otio hs th w w1 sb.
  subst w w1 sb. unfold main_device.
  destruct pf; [reflexivity|].
  cbn -[snoop Z.land major minor console_device_dec].
  destruct (console_device_dec _) as [(Hc & Hmaj & Hlo & Hhi)|Hn];
    cbn [st_mode st_rdev] in *.
  - rewrite Hc, Hmaj, Z.eqb_refl.
    replace (minor rdev <? MIN_NR_CONSOLES) with false by (symmetry; apply Z.ltb_ge; assumption).
    replace (minor rdev >? MAX_NR_CONSOLES) with false by (symmetry; rewrite Z.gtb_ltb; apply Z.ltb_ge; assumption).
    cbn [negb orb]. reflexivity.
  - unfold console_device in Hn. cbn [st_mode st_rdev] in Hn.
    destruct (Z.eqb_spec (Z.land mode S_IFMT) S_IFCHR); [|reflexivity].
    destruct (Z.eqb_spec (major rdev) TTY_MAJOR); [|reflexivity].
    cbn [negb].
    destruct (Z.ltb_spec (minor rdev) MIN_NR_CONSOLES); [reflexivity|].
    rewrite Z.gtb_ltb.
    destruct (Z.ltb_spec MAX_NR_CONSOLES (minor rdev)); [reflexivity|].
    exfalso. apply Hn. repeat split; assumption.
Qed.

(** C5, as amended. For a path given as the only operand: when [stat]
    succeeds and reports a character device on the console major with a
    minor in the console range, [main] goes on with [snoop] on that minor;
    when [stat] succeeds and reports anything else, the process exits with
    1 after reporting [ENOTTY] against the path; when [stat] itself fails,
    the process exits with 1 after reporting the error of [stat] against
    the path.  In the last two cases [stat] is the only call made and the
    kernel state is untouched. *)
Theorem device_check :
  forall (argv : list string) (path : string) (r : reply)
         (script : list reply) (k : kernel),
    getopt argv "h-:" = GetoptEnd [path] ->
    let w := initial_world (r :: script) k in
    (rp_fail r = false -> console_device (rp_stat r) ->
     main argv w =
     match (snoop (minor (st_rdev (rp_stat r))) ;; ret 0)
             (initial_world script k) with
     | (o, w', l) => (o, w', mk_entry k (Stat path) 0 0 :: l)
     end)
    /\
    (rp_fail r = false -> ~ console_device (rp_stat r) ->
     exists w' l,
       process argv w = (Exited 1, w', l) /\
       calls l = Stat path :: report path ENOTTY /\
       w_kernel w' = k /\ w_script w' = script)
    /\
    (rp_fail r = true ->
     exists w' l,
       process argv w = (Exited 1, w', l) /\
       calls l = Stat path :: report path (Z.pos (rp_errno r)) /\
       w_kernel w' = k /\ w_script w' = script).
Proof.
  intros argv path r script k Hg w.
  assert (Hmain : main argv w = main_device path w).
  { unfold main. now rewrite Hg. }
  unfold process. rewrite Hmain. subst w. unfold initial_world.
  rewrite main_device_run.
  repeat split.
  - intros -> Hc.
    destruct (console_device_dec (rp_stat r)); [reflexivity|contradiction].
  - intros -> Hn.
    destruct (console_device_dec (rp_stat r)); [contradiction|].
    do 2 eexists. cbn. repeat split.
  - intros ->. do 2 eexists. cbn. repeat split.
Qed.

(** C5 as stated fails for a path that cannot be stat'ed: it is not a
    character device, the process exits with 1, but the error reported
    against the path is the one [stat] set, here [ENOENT], not [ENOTTY]. *)
Lemma device_check_counterexample :
  let r := Sample.err ENOENT in
  exists w' l,
    process ["vcsnoop"; "/nonexistent"] (initial_world [r] Sample.idle)
      = (Exited 1, w', l) /\
    ~ (rp_fail r = false /\ console_device (rp_stat r)) /\
    In (Perror "/nonexistent" ENOENT) (calls l) /\
    ~ In (Perror "/nonexistent" ENOTTY) (calls l).
Proof.
  do 2 eexists. split; [reflexivity|].
  split; [intros [H _]; discriminate H|].
  split; [cbn; tauto|].
  cbn. intros [H|[H|[H|[]]]]; discriminate H.
Qed.

(** ** The terminal mode guard *)

Lemma restore_tty_disarmed : forall w,
  tty_fd w < 0 -> restore_tty w = (Ret tt, w, []).
Proof.
  intros w H. unfold restore_tty, bind, get.
  apply Z.ltb_lt in H. rewrite H. reflexivity.
Qed.

(** What a successful [restore_tty] on an armed guard does: one
    [tcsetattr] with the saved attributes, after which the guard is
    disarmed. *)
Lemma restore_tty_armed : forall w o w' l,
  0 <= tty_fd w ->
  restore_tty w = (o, w', l) ->
  (List.length (filter is_tcsetattr l) <= 1)%nat /\
  (o = Ret tt ->
   calls l = [Tcsetattr (tty_fd w) TCSAFLUSH (orig_tio w)] /\
   k_tio (w_kernel w') = orig_tio w /\
   tty_fd w' = -1 /\
   w_atexit w' = w_atexit w).
Proof.
  intros [script k en tfd otio hs th] o w' l Hfd H.
  cbn [tty_fd orig_tio] in *.
  unfold restore_tty, bind at 1, get in H. cbn [tty_fd orig_tio] in H.
  apply Z.ltb_ge in Hfd. rewrite Hfd in H.
  destruct script as [|[[] pe pv pb ps] script]; cbn in H;
    inversion H; subst; cbn; split; auto; try discriminate.
Qed.

(** What a successful [init_tty] leaves behind. *)
Lemma init_tty_armed : forall fd w w1 l1,
  init_tty fd w = (Ret tt, w1, l1) ->
  tty_fd w1 = fd /\
  orig_tio w1 = k_tio (w_kernel w) /\
  k_tio (w_kernel w1) = clear_echo (k_tio (w_kernel w)) /\
  w_atexit w1 = H_restore_tty :: w_atexit w /\
  calls l1 = [Tcgetattr fd;
              Tcsetattr fd TCSAFLUSH (clear_echo (k_tio (w_kernel w)));
              Atexit H_restore_tty].
Proof.
  intros fd [script k en tfd otio hs th] w1 l1 H.
  unfold init_tty in H.
  destruct script as [|[[] pe pv pb ps] script]; cbn in H;
    try discriminate H.
  destruct script as [|[[] pe' pv' pb' ps'] script]; cbn in H;
    try discriminate H.
  inversion H; subst; cbn. repeat split.
Qed.

(** C6. After one [init_tty], two calls of [restore_tty] in a row issue at
    most one [tcsetattr]; when the first returns, it has put back the
    attributes [init_tty] found, and the second does nothing at all, nor
    does the exit hook that [init_tty] registered.  [restore_tty] with
    nothing suspended does nothing. *)
Theorem restore_tty_idempotent :
  forall (fd : Z) (w w1 : world) (l1 : list entry),
    0 <= fd ->
    init_tty fd w = (Ret tt, w1, l1) ->
    (forall o w2 l2,
       (restore_tty ;; restore_tty) w1 = (o, w2, l2) ->
       (List.length (filter is_tcsetattr l2) <= 1)%nat)
    /\
    (forall wr lr,
       restore_tty w1 = (Ret tt, wr, lr) ->
       calls lr = [Tcsetattr fd TCSAFLUSH (k_tio (w_kernel w))] /\
       k_tio (w_kernel wr) = k_tio (w_kernel w) /\
       restore_tty wr = (Ret tt, wr, []) /\
       (forall code, w_atexit w = [] ->
          exists w', run_exit (w_atexit wr) code wr
                     = (Exited (Z.land code 255), w', [])))
    /\
    (forall w0, tty_fd w0 < 0 -> restore_tty w0 = (Ret tt, w0, [])).
Proof.
  intros fd w w1 l1 Hfd Hinit.
  apply init_tty_armed in Hinit.
  destruct Hinit as (Htty & Horig & _ & Hat & _).
  assert (Harmed : 0 <= tty_fd w1) by (rewrite Htty; assumption).
  repeat split.
  - intros o w2 l2 H. unfold bind in H.
    destruct (restore_tty w1) as [[o1 wr] lr] eqn:E1.
    destruct (restore_tty_armed _ _ _ _ Harmed E1) as [Hcount Hret].
    destruct o1 as [[]| | |]; try (inversion H; subst; assumption).
    destruct (Hret eq_refl) as (_ & _ & Hoff & _).
    rewrite restore_tty_disarmed in H by lia.
    inversion H; subst. rewrite app_nil_r. assumption.
  - destruct (restore_tty_armed _ _ _ _ Harmed H) as [_ Hret].
    destruct (Hret eq_refl) as (Hc & _). now rewrite Hc, Htty, Horig.
  - destruct (restore_tty_armed _ _ _ _ Harmed H) as [_ Hret].
    destruct (Hret eq_refl) as (_ & Hk & _). now rewrite Hk, Horig.
  - destruct (restore_tty_armed _ _ _ _ Harmed H) as [_ Hret].
    destruct (Hret eq_refl) as (_ & _ & Hoff & _).
    apply restore_tty_disarmed. lia.
  - intros code Hnil.
    destruct (restore_tty_armed _ _ _ _ Harmed H) as [_ Hret].
    destruct (Hret eq_refl) as (_ & _ & Hoff & Hat').
    rewrite Hat', Hat, Hnil.
    destruct wr as [script k en tfd otio hs th]. cbn in Hoff. subst tfd.
    eexists. reflexivity.
  - apply restore_tty_disarmed.
Qed.

(** ** The relay worker *)

Lemma size_pos : forall data : list byte, data <> [] -> 0 < size data.
Proof.
  intros [|b d] H; [contradiction|]. unfold size. cbn [List.length]. lia.
Qed.

Ltac loop_done H :=
  inversion H; subst; clear H;
  split; [econstructor; eauto; try lia
         |split; [repeat split
                 |intros Hs Hlen; cbn in *;
                  try discriminate; try reflexivity; try lia]].

Ltac loop_next IH H :=
  match type of H with
  | context [rw_loop ?f ?fd ?b ?we ?w0] =>
      let E := fresh "E" in
      let Hrun := fresh "Hrun" in
      let Hsame := fresh "Hsame" in
      let Hstall := fresh "Hstall" in
      destruct (rw_loop f fd b we w0) as [[?o2 ?w2] ?l2] eqn:E;
      apply IH in E; destruct E as (Hrun & Hsame & Hstall);
      inversion H; subst; clear H;
      split; [cbn in Hrun |- *
             |split; [exact Hsame
                     |intros Hs Hlen; apply Hstall;
                      [exact Hs|cbn in Hlen |- *; lia]]]
  end.

Lemma rw_loop_run : forall fuel fd empty we w o w' l,
  rw_loop fuel fd empty we w = (o, w', l) ->
  loop_run (w_kernel w) fd empty we (w_errno w) l o (w_errno w') /\
  same_process w w' /\
  (o = Stalled -> (List.length (w_script w) < fuel)%nat -> w_script w' = []).
Proof.
  induction fuel as [|fuel IH]; intros fd empty we w o w' l H.
  - loop_done H.
  - destruct w as [script k en tfd otio hs th].
    (* poll *)
    destruct script as [|[pf pe pv pb ps] script]; [cbn in H; loop_done H|].
    destruct pf; [cbn in H; loop_done H|].
    destruct pv as [|pv]; [destruct empty; cbn in H; loop_done H|].
    assert (Hrc : Z.min (Z.of_nat (S pv)) 1 = 1) by lia.
    cbn -[Z.min Z.of_nat firstn Z.to_nat] in H. rewrite Hrc in H. clear Hrc.
    (* read *)
    destruct script as [|[pf' pe' pv' pb' ps'] script];
      [cbn in H; loop_done H|].
    destruct pf'; [cbn in H; loop_done H|].
    cbn -[Z.min Z.of_nat firstn Z.to_nat List.length] in H.
    remember (firstn (Z.to_nat PIPE_BUF) pb') as data eqn:Edata. clear Edata.
    fold (size data) in H.
    destruct data as [|b d]; [cbn in H; loop_done H|].
    assert (Hne : b :: d <> []) by discriminate.
    pose proof (size_pos _ Hne) as Hpos.
    remember (b :: d) as data eqn:Edata. clear Edata b d.
    destruct (Z.eqb_spec (size data) 0) as [E|_]; [lia|].
    destruct (Z.ltb_spec (size data) 0) as [E|_]; [lia|].
    destruct (Z.eqb_spec we 0) as [->|Hwe].
    + (* write *)
      destruct script as [|[pf2 pe2 pv2 pb2 ps2] script];
        [cbn in H; loop_done H|].
      destruct pf2.
      * cbn -[Z.min Z.of_nat firstn Z.to_nat List.length] in H.
        loop_next IH H. now apply run_write_failed.
      * unfold bind in H. cbn -[Z.min Z.of_nat size] in H.
        fold (size data) in H.
        destruct (Z.ltb_spec (Z.min (Z.of_nat pv2) (size data)) 0) as [E|_];
          [lia|].
        destruct (Z.eqb_spec (Z.min (Z.of_nat pv2) (size data)) (size data))
          as [Em|Em]; cbn [negb] in H.
        -- rewrite Em in H. cbn -[Z.of_nat List.length] in H.
           loop_next IH H. now apply run_forward.
        -- cbn -[Z.min Z.of_nat List.length] in H.
           loop_next IH H.
           apply run_write_short; [assumption|lia|assumption].
    + cbn -[Z.of_nat List.length] in H.
      loop_next IH H. now apply run_discard.
Qed.

(** Splitting a log at an entry that can only be in its first part. *)
Lemma split_left : forall (P : entry -> bool) l1 l2 pre e post,
  l1 ++ l2 = pre ++ e :: post ->
  (forall x, In x l2 -> P x = false) ->
  P e = true ->
  exists post1, l1 = pre ++ e :: post1 /\ post = post1 ++ l2.
Proof.
  intros P l1 l2. induction l1 as [|a l1 IH]; intros pre e post H Hl2 He.
  - cbn in H. subst l2.
    rewrite (Hl2 e) in He by (apply in_or_app; right; left; reflexivity).
    discriminate.
  - destruct pre as [|p pre]; cbn in H; inversion H; subst.
    + exists l1. split; reflexivity.
    + destruct (IH _ _ _ H2 Hl2 He) as (post1 & -> & ->).
      exists post1. split; reflexivity.
Qed.

Ltac entries H :=
  cbn [In reported] in H;
  repeat (destruct H as [H|H]; [subst|]); try contradiction.

(** Once [write_error] is set, the loop only polls and reads and leaves
    [write_error] as it is; if no [poll] or [read] fails, it ends on a
    [poll] that times out or a [read] that returns 0. *)
Lemma loop_run_sticky : forall k fd empty we en l o en',
  loop_run k fd empty we en l o en' ->
  empty = false -> we <> 0 ->
  (forall x, In x l -> is_write x = false /\ is_kill x = false) /\
  (forall we', o = Ret we' -> we' = we) /\
  (o <> Stalled -> input_ok l ->
   o = Ret we /\ en' = en /\
   (forall x, In x l -> is_input x = true) /\
   exists mid x, l = mid ++ [x] /\ e_ret x = 0).
Proof.
  induction 1; intros Hempty Hwe; try discriminate Hempty;
    try (contradiction Hwe; reflexivity);
    (split; [|split]);
    try (intros x Hx; entries Hx; split; reflexivity);
    try (intros we' Hret; congruence).
  - intros _ Hok; exfalso.
    specialize (Hok _ (or_introl eq_refl) eq_refl); cbn in Hok; lia.
  - intros _ _. split; [reflexivity|split; [reflexivity|split]].
    + intros x Hx; entries Hx; reflexivity.
    + exists [], (polled k fd 0 en). split; reflexivity.
  - intros _ _. split; [reflexivity|split; [reflexivity|split]].
    + intros x Hx; entries Hx; reflexivity.
    + exists [polled k fd 1 en], (was_read k fd [] 0 en). split; reflexivity.
  - intros _ Hok; exfalso.
    specialize (Hok _ (or_intror (or_introl eq_refl)) eq_refl);
      cbn in Hok; lia.
  - destruct (IHloop_run eq_refl Hwe) as (Hw & _ & _).
    intros x [<-|[<-|Hx]]; [split; reflexivity..|auto].
  - destruct (IHloop_run eq_refl Hwe) as (_ & Hret & _). exact Hret.
  - destruct (IHloop_run eq_refl Hwe) as (_ & _ & Hend).
    intros Hs Hok.
    destruct (Hend Hs) as (Ho & Hen & Hin & mid & x & -> & Hx).
    { intros y Hy. apply Hok. right; right; exact Hy. }
    split; [assumption|split; [assumption|split]].
    + intros y [<-|[<-|Hy]]; [reflexivity..|auto].
    + exists (polled k fd 1 en :: was_read k fd data (size data) en :: mid), x.
      split; [reflexivity|assumption].
Qed.

Lemma write_failed_is_write : forall e, write_failed e = true -> is_write e = true.
Proof.
  intros e. unfold write_failed, is_write.
  destruct (e_call e); auto; discriminate.
Qed.

Lemma size_nonneg : forall data, 0 <= size data.
Proof. intros data. unfold size. lia. Qed.

Lemma wrote_all : forall k data en,
  write_failed (wrote k data (size data) en) = false /\
  written (wrote k data (size data) en) = data.
Proof.
  intros k data en. unfold write_failed, written, wrote, size. cbn.
  rewrite Z.eqb_refl, Nat2Z.id, firstn_all.
  destruct (Z.ltb_spec (Z.of_nat (List.length data)) 0); [lia|].
  split; reflexivity.
Qed.

(** Peel the entries of a known log off a split [l = pre ++ e :: post]. *)
Ltac unsplit H pre :=
  first
    [ solve [destruct pre; discriminate H]
    | destruct pre as [|? pre]; cbn [app] in H;
      [ injection H as ? ?; subst
      | injection H as ? H; subst; try (unsplit H pre) ] ].

(** The first [write] that fails: everything read before it was forwarded
    whole, and the loop goes on from there with [write_error] set. *)
Lemma loop_run_first_failure : forall k fd empty we en l o en',
  loop_run k fd empty we en l o en' ->
  we = 0 ->
  forall pre e post,
    l = pre ++ e :: post ->
    write_failed e = true ->
    exists chunks data en1,
      chunks_read pre = chunks ++ [data] /\
      e_call e = Write STDOUT_FILENO data /\
      (forall x, In x pre -> write_failed x = false) /\
      stdout_bytes pre = List.concat chunks /\
      error_code e <> 0 /\
      loop_run k fd false (error_code e) en1 post o en'.
Proof.
  induction 1; intros Hwe pre x post Hl Hx; unfold reported in Hl.
  all: try (solve [unsplit Hl pre; discriminate Hx]).
  all: try (contradiction H; assumption).
  - (* the chunk was forwarded whole *)
    destruct pre as [|a [|b [|c pre]]]; cbn [app] in Hl;
      injection Hl as <- Hl; try injection Hl as <- Hl;
      try injection Hl as <- Hl; subst; try discriminate Hx.
    { rewrite (proj1 (wrote_all k data en)) in Hx. discriminate. }
    destruct (IHloop_run eq_refl _ _ _ eq_refl Hx)
      as (chunks & data0 & en1 & Hread & Hcall & Hpre & Hout & Hcode & Hrun).
    exists (data :: chunks), data0, en1.
    pose proof (size_pos _ H) as Hpos. apply Z.ltb_lt in Hpos.
    repeat split; try assumption.
    + cbn. rewrite Hpos. now rewrite Hread.
    + intros y [<-|[<-|[<-|Hy]]]; try reflexivity.
      * apply wrote_all.
      * now apply Hpre.
    + unfold stdout_bytes in *. cbn [flat_map]. rewrite Hout.
      rewrite (proj2 (wrote_all k data en)). reflexivity.
  - (* the write returned -1 *)
    destruct pre as [|a [|b [|c pre]]]; cbn [app] in Hl;
      injection Hl as <- Hl; try injection Hl as <- Hl;
      try injection Hl as <- Hl; subst; try discriminate Hx.
    + exists [], data, (Z.pos e).
      pose proof (size_pos _ H) as Hpos. apply Z.ltb_lt in Hpos.
      repeat split; try assumption; try discriminate.
      * cbn. now rewrite Hpos.
      * intros y [<-|[<-|[]]]; reflexivity.
    + exfalso. apply write_failed_is_write in Hx.
      destruct (loop_run_sticky _ _ _ _ _ _ _ _ H0 eq_refl) as (Hw & _); [discriminate|].
      destruct (Hw x) as [Hw' _]; [apply in_or_app; right; left; reflexivity|].
      congruence.
  - (* the write was short *)
    destruct pre as [|a [|b [|c pre]]]; cbn [app] in Hl;
      injection Hl as <- Hl; try injection Hl as <- Hl;
      try injection Hl as <- Hl; subst; try discriminate Hx.
    + exists [], data, en.
      pose proof (size_pos _ H) as Hpos. apply Z.ltb_lt in Hpos.
      assert (Hcode : error_code (wrote k data m en) = EIO).
      { unfold error_code. cbn.
        destruct (Z.ltb_spec m 0); [lia|reflexivity]. }
      rewrite Hcode.
      repeat split; try assumption; try discriminate.
      * cbn. now rewrite Hpos.
      * intros y [<-|[<-|[]]]; reflexivity.
    + exfalso. apply write_failed_is_write in Hx.
      destruct (loop_run_sticky _ _ _ _ _ _ _ _ H1 eq_refl) as (Hw & _); [discriminate|].
      destruct (Hw x) as [Hw' _]; [apply in_or_app; right; left; reflexivity|].
      congruence.
Qed.

Ltac conjuncts := repeat match goal with |- _ /\ _ => split end.

(** The statements after the loop: a signal for [EPIPE], a report for any
    other error, nothing when no [write] failed. *)
Lemma rw_finish_run : forall we w o w' l,
  rw_finish we w = (o, w', l) ->
  (we = EPIPE ->
   l = [mk_entry (w_kernel w) (Kill 0 SIGPIPE) 0 (w_errno w)] /\
   (o = Ret 0 \/ exists sig, o = Signaled sig)) /\
  (we <> EPIPE -> we <> 0 ->
   l = reported (w_kernel w) "write()" we /\ o = Exit EXIT_FAILURE) /\
  (we = 0 -> l = [] /\ o = Ret 0 /\ w' = w).
Proof.
  intros we [script k en tfd otio hs th] o w' l H.
  unfold rw_finish in H.
  destruct (Z.eqb_spec we EPIPE) as [->|Hne].
  - split; [intros _|split; [congruence|intros E; discriminate E]].
    unfold kill, deliver, bind in H.
    cbn -[deliverable Z.lor sigbit] in H.
    destruct (deliverable _) as [sig|]; cbn in H; inversion H; subst;
      (split; [reflexivity|]); [right; eexists; reflexivity|left; reflexivity].
  - destruct (Z.eqb_spec we 0) as [->|Hnz]; cbn in H; inversion H; subst.
    + split; [congruence|split; [congruence|auto]].
    + split; [congruence|split; [auto|congruence]].
Qed.

(** A run of [rw_thread] is a run of the loop from its initial flags,
    followed, when the loop is left by [break], by the statements after the
    loop. *)
Lemma rw_thread_run : forall fd w o w' l,
  rw_thread fd w = (o, w', l) ->
  exists o1 w1 l1 l2,
    l = l1 ++ l2 /\
    loop_run (w_kernel w) fd true 0 (w_errno w) l1 o1 (w_errno w1) /\
    same_process w w1 /\
    match o1 with
    | Ret we => rw_finish we w1 = (o, w', l2)
    | Exit c => o = Exit c /\ w' = w1 /\ l2 = []
    | Signaled s => o = Signaled s /\ w' = w1 /\ l2 = []
    | Stalled => o = Stalled /\ w' = w1 /\ l2 = [] /\ w_script w' = []
    end.
Proof.
  intros fd w o w' l H.
  unfold rw_thread in H. unfold bind at 1, get in H.
  unfold bind at 1 in H.
  destruct (rw_loop _ fd true 0 w) as [[o1 w1] l1] eqn:E.
  apply rw_loop_run in E. destruct E as (Hrun & Hsame & Hstall).
  exists o1, w1, l1.
  destruct o1 as [we| | |].
  - destruct (rw_finish we w1) as [[o2 w2] l2] eqn:E2.
    inversion H; subst. exists l2. conjuncts; auto.
  - inversion H; subst. exists []. rewrite app_nil_r. conjuncts; auto.
  - inversion H; subst. exists []. rewrite app_nil_r. conjuncts; auto.
  - inversion H; subst. exists []. rewrite app_nil_r.
    conjuncts; auto; apply Hstall; auto.
Qed.

(** A [poll] that times out ends the run: with the fatal [ETIME] report
    when nothing has been read, with [break] otherwise. *)
Lemma loop_run_timeout : forall k fd empty we en l o en',
  loop_run k fd empty we en l o en' ->
  forall pre e post,
    l = pre ++ e :: post ->
    is_poll e = true -> e_ret e = 0 ->
    (empty = true -> chunks_read pre = [] ->
     o = Exit EXIT_FAILURE /\ post = reported k "poll()" ETIME) /\
    (empty = false \/ chunks_read pre <> [] ->
     post = [] /\ exists we', o = Ret we').
Proof.
  induction 1; intros pre x post Hl Hpoll Hret; unfold reported in Hl.
  all: try (solve [unsplit Hl pre; cbn in Hpoll, Hret;
                try discriminate Hpoll; try discriminate Hret;
                (split;
                 [intros Ht Hc; try discriminate Ht; split; reflexivity
                 |intros [Hf|Hc];
                  [try discriminate Hf|try (contradiction Hc; reflexivity)];
                  (split; [reflexivity|eexists; reflexivity])])]).
  all: match goal with Hd : _ <> [] |- _ =>
         pose proof (size_pos _ Hd) as Hpos; apply Z.ltb_lt in Hpos end.
  2-4: destruct pre as [|a [|b [|c pre]]].
  1: destruct pre as [|a [|b pre]].
  all: cbn [app] in Hl; inversion Hl; subst; clear Hl;
    try (cbn in Hret; discriminate Hret);
    try (cbn in Hpoll; discriminate Hpoll).
  all: destruct (IHloop_run _ _ _ eq_refl Hpoll Hret) as [_ HB];
    (split;
     [intros _ Hc; cbn in Hc; rewrite Hpos in Hc; discriminate Hc
     |intros _; apply HB; left; reflexivity]).
Qed.

(** While no [write] fails, [write_error] keeps its value. *)
Lemma loop_run_clean : forall k fd empty we en l o en',
  loop_run k fd empty we en l o en' ->
  forall we', o = Ret we' ->
  (forall x, In x l -> write_failed x = false) ->
  we' = we.
Proof.
  induction 1; intros we' Ho Hclean; try discriminate Ho;
    try (injection Ho as <-; reflexivity).
  - apply IHloop_run; [assumption|]. intros x Hx. apply Hclean. cbn; auto.
  - apply IHloop_run; [assumption|]. intros x Hx. apply Hclean. cbn; auto.
  - specialize (Hclean (wrote k data (-1) (Z.pos e))). cbn in Hclean.
    discriminate Hclean. auto.
  - specialize (Hclean (wrote k data m en)).
    unfold write_failed in Hclean. cbn in Hclean. fold (size data) in Hclean.
    destruct (Z.eqb_spec m (size data)); [lia|].
    rewrite orb_true_r in Hclean. discriminate Hclean. auto.
Qed.

Lemma rw_finish_log : forall we w o w' l,
  rw_finish we w = (o, w', l) ->
  forall x, In x l -> is_input x = false /\ is_write x = false.
Proof.
  intros we w o w' l H x Hx.
  destruct (rw_finish_run _ _ _ _ _ H) as (Hpipe & Herr & Hnone).
  destruct (Z.eq_dec we EPIPE) as [E|E].
  - destruct (Hpipe E) as [-> _]. entries Hx. split; reflexivity.
  - destruct (Z.eq_dec we 0) as [E0|E0].
    + destruct (Hnone E0) as [-> _]. contradiction.
    + destruct (Herr E E0) as [-> _]. entries Hx; split; reflexivity.
Qed.

(** The log of [rw_thread] after its loop holds no call of the loop. *)
Lemma rw_thread_tail : forall (o1 : outcome Z) (w1 : world) o w' l2,
  match o1 with
  | Ret we => rw_finish we w1 = (o, w', l2)
  | Exit c => o = Exit c /\ w' = w1 /\ l2 = []
  | Signaled s => o = Signaled s /\ w' = w1 /\ l2 = []
  | Stalled => o = Stalled /\ w' = w1 /\ l2 = [] /\ w_script w' = []
  end ->
  forall x, In x l2 -> is_input x = false /\ is_write x = false.
Proof.
  intros [we| | |] w1 o w' l2 H x Hx.
  - eapply rw_finish_log; eassumption.
  - destruct H as (_ & _ & ->). contradiction.
  - destruct H as (_ & _ & ->). contradiction.
  - destruct H as (_ & _ & -> & _). contradiction.
Qed.

(** C1. When a [poll] of the worker times out: if no [read] before it
    delivered any byte, the worker reports [ETIME] for [poll()] and exits
    with failure; if some [read] did, the loop is over, the rest of the run
    is the statements after the loop, and when no [write] failed the
    worker returns with nothing more done. *)
Theorem relay_timeout :
  forall (arg : Z) (w w' : world) (o : outcome Z)
         (l pre post : list entry) (e : entry),
    rw_thread arg w = (o, w', l) ->
    l = pre ++ e :: post ->
    is_poll e = true -> e_ret e = 0 ->
    (chunks_read pre = [] ->
     o = Exit EXIT_FAILURE /\ calls post = report "poll()" ETIME)
    /\
    (chunks_read pre <> [] ->
     (forall x, In x post -> is_input x = false /\ is_write x = false) /\
     (exists we w1, rw_finish we w1 = (o, w', post)) /\
     ((forall x, In x pre -> write_failed x = false) ->
      o = Ret 0 /\ post = [])).
Proof.
  intros arg w w' o l pre post e Hrun Hl Hpoll Hret.
  destruct (rw_thread_run _ _ _ _ _ Hrun) as (o1 & w1 & l1 & l2 & -> & Hloop & _ & Hfin).
  pose proof (@rw_thread_tail o1 w1 _ _ _ Hfin) as Htail.
  destruct (split_left is_poll l1 l2 pre e post Hl) as (post1 & -> & ->);
    [|assumption|].
  { intros x Hx. destruct (Htail x Hx) as [Hi _].
    unfold is_input in Hi. now apply orb_false_iff in Hi. }
  destruct (loop_run_timeout _ _ _ _ _ _ _ _ Hloop _ _ _ eq_refl Hpoll Hret) as [Hnone Hsome].
  split.
  - intros Hc. destruct (Hnone eq_refl Hc) as [-> ->].
    destruct Hfin as (-> & _ & ->). split; reflexivity.
  - intros Hc. destruct (Hsome (or_intror Hc)) as (-> & we & ->).
    cbn [app]. split; [exact Htail|]. split; [eauto|].
    intros Hclean.
    assert (we = 0) as ->.
    { eapply loop_run_clean; [exact Hloop|reflexivity|].
      intros x Hx. apply in_app_or in Hx. destruct Hx as [Hx|[<-|[]]].
      - now apply Hclean.
      - unfold write_failed. unfold is_poll in Hpoll.
        destruct (e_call e); try discriminate Hpoll. reflexivity. }
    destruct (rw_finish_run _ _ _ _ _ Hfin) as (_ & _ & Hz).
    destruct (Hz eq_refl) as (-> & -> & _). split; reflexivity.
Qed.

(** A run of the loop starts by polling, and reports no [write] error and
    sends no signal. *)
Lemma loop_run_calls : forall k fd empty we en l o en',
  loop_run k fd empty we en l o en' ->
  match l with
  | [] => o = Stalled
  | x :: _ => is_poll x = true
  end /\
  forall x, In x l ->
    is_kill x = false /\ forall c, e_call x <> Perror "write()" c.
Proof.
  induction 1; (split; [reflexivity|]); intros x Hx;
    try destruct IHloop_run as [_ IH]; cbn [In] in Hx;
    repeat (destruct Hx as [<-|Hx]; [split; [reflexivity|discriminate]|]);
    try contradiction; auto.
Qed.

Lemma stdout_bytes_app : forall l1 l2,
  stdout_bytes (l1 ++ l2) = stdout_bytes l1 ++ stdout_bytes l2.
Proof. intros l1 l2. unfold stdout_bytes. apply flat_map_app. Qed.

Lemma stdout_bytes_quiet : forall l,
  (forall x, In x l -> is_write x = false) -> stdout_bytes l = [].
Proof.
  induction l as [|a l IH]; intros H; [reflexivity|].
  unfold stdout_bytes in *. cbn [flat_map].
  rewrite IH by (intros x Hx; apply H; right; exact Hx).
  specialize (H a (or_introl eq_refl)).
  unfold is_write in H. unfold written.
  destruct (e_call a); try reflexivity. discriminate H.
Qed.

(** The first failed [write] of the worker, and what follows it: a run of
    the loop with [write_error] set, then the statements after the loop. *)
Lemma rw_thread_first_failure : forall arg w o w' l pre e post,
  rw_thread arg w = (o, w', l) ->
  l = pre ++ e :: post ->
  write_failed e = true ->
  exists chunks data en1 o1 w1 post1 l2,
    chunks_read pre = chunks ++ [data] /\
    e_call e = Write STDOUT_FILENO data /\
    (forall x, In x pre -> write_failed x = false) /\
    stdout_bytes pre = List.concat chunks /\
    error_code e <> 0 /\
    post = post1 ++ l2 /\
    loop_run (w_kernel w) arg false (error_code e) en1 post1 o1 (w_errno w1) /\
    w_kernel w1 = w_kernel w /\
    match o1 with
    | Ret we => rw_finish we w1 = (o, w', l2)
    | Exit c => o = Exit c /\ w' = w1 /\ l2 = []
    | Signaled s => o = Signaled s /\ w' = w1 /\ l2 = []
    | Stalled => o = Stalled /\ w' = w1 /\ l2 = [] /\ w_script w' = []
    end.
Proof.
  intros arg w o w' l pre e post Hrun Hl He.
  destruct (rw_thread_run _ _ _ _ _ Hrun)
    as (o1 & w1 & l1 & l2 & -> & Hloop & Hsame & Hfin).
  pose proof (@rw_thread_tail o1 w1 _ _ _ Hfin) as Htail.
  destruct (split_left is_write l1 l2 pre e post Hl) as (post1 & -> & ->).
  { intros x Hx. now destruct (Htail x Hx). }
  { now apply write_failed_is_write. }
  destruct (loop_run_first_failure _ _ _ _ _ _ _ _ Hloop eq_refl _ _ _ eq_refl He)
    as (chunks & data & en1 & H1 & H2 & H3 & H4 & H5 & H6).
  exists chunks, data, en1, o1, w1, post1, l2.
  conjuncts; auto. apply Hsame.
Qed.

(** After the first failed [write], when no [poll] or [read] fails and the
    script does not run out: the loop goes on polling and reading until a
    [poll] times out or a [read] returns 0, and then the statements after
    the loop act on the code of that failed [write]. *)
Lemma rw_thread_failure_end : forall arg w o w' l pre e post,
  rw_thread arg w = (o, w', l) ->
  l = pre ++ e :: post ->
  write_failed e = true ->
  o <> Stalled -> input_ok post ->
  exists mid last l2 w1,
    post = mid ++ last :: l2 /\
    (forall x, In x (mid ++ [last]) -> is_input x = true) /\
    e_ret last = 0 /\
    rw_finish (error_code e) w1 = (o, w', l2) /\
    w_kernel w1 = w_kernel w.
Proof.
  intros arg w o w' l pre e post Hrun Hl He Hs Hok.
  destruct (rw_thread_first_failure _ _ _ _ _ _ _ _ Hrun Hl He)
    as (chunks & data & en1 & o1 & w1 & post1 & l2 &
        _ & _ & _ & _ & Hcode & -> & Hloop & Hk & Hfin).
  destruct (loop_run_sticky _ _ _ _ _ _ _ _ Hloop eq_refl Hcode) as (_ & _ & Hend).
  destruct Hend as (-> & _ & Hin & mid & last & -> & Hlast).
  { intros ->. destruct Hfin as (-> & _). contradiction Hs; reflexivity. }
  { intros x Hx. apply Hok. apply in_or_app. left. exact Hx. }
  exists mid, last, l2, w1. rewrite <- app_assoc. cbn [app].
  conjuncts; auto.
Qed.

(** C2. When a forwarding [write] fails with [EPIPE], no error is reported
    at that point and the loop is not left: the worker polls again and
    writes no more; if no [poll] or [read] fails and the script does not
    run out, the loop ends on a [poll] that times out or a [read] that
    returns 0, and the one call after the loop is [kill(0, SIGPIPE)], with
    nothing written to standard error. *)
Theorem relay_broken_pipe :
  forall (arg : Z) (w w' : world) (o : outcome Z)
         (l pre post : list entry) (e : entry),
    rw_thread arg w = (o, w', l) ->
    l = pre ++ e :: post ->
    is_write e = true -> e_ret e < 0 -> e_errno e = EPIPE ->
    (forall x, In x post -> is_write x = false)
    /\
    match post with
    | [] => o = Stalled
    | x :: _ => is_poll x = true
    end
    /\
    (o <> Stalled -> input_ok post ->
     exists mid last sent,
       post = mid ++ [last; sent] /\
       (forall x, In x (mid ++ [last]) -> is_input x = true) /\
       e_ret last = 0 /\
       e_call sent = Kill 0 SIGPIPE /\
       (o = Ret 0 \/ exists sig, o = Signaled sig)).
Proof.
  intros arg w w' o l pre post e Hrun Hl Hw Hneg Herr.
  assert (He : write_failed e = true).
  { unfold write_failed. unfold is_write in Hw.
    destruct (e_call e); try discriminate Hw.
    apply Z.ltb_lt in Hneg. now rewrite Hneg. }
  assert (Hcode : error_code e = EPIPE).
  { unfold error_code. apply Z.ltb_lt in Hneg. now rewrite Hneg. }
  destruct (rw_thread_first_failure _ _ _ _ _ _ _ _ Hrun Hl He)
    as (chunks & data & en1 & o1 & w1 & post1 & l2 &
        _ & _ & _ & _ & Hnz & Hpost & Hloop & Hk & Hfin).
  pose proof (@rw_thread_tail o1 w1 _ _ _ Hfin) as Htail.
  destruct (loop_run_sticky _ _ _ _ _ _ _ _ Hloop eq_refl Hnz) as (Hquiet & _ & _).
  destruct (loop_run_calls _ _ _ _ _ _ _ _ Hloop) as [Hhead _].
  split; [|split].
  - intros x Hx. rewrite Hpost in Hx. apply in_app_or in Hx.
    destruct Hx as [Hx|Hx]; [now destruct (Hquiet x Hx)|].
    now destruct (Htail x Hx).
  - rewrite Hpost. destruct post1 as [|x post1]; [|exact Hhead].
    subst o1. destruct Hfin as (-> & _ & -> & _). reflexivity.
  - intros Hs Hok.
    destruct (rw_thread_failure_end _ _ _ _ _ _ _ _ Hrun Hl He Hs Hok)
      as (mid & last & l2' & w1' & -> & Hin & Hlast & Hfin' & _).
    rewrite Hcode in Hfin'.
    destruct (rw_finish_run _ _ _ _ _ Hfin') as (Hpipe & _).
    destruct (Hpipe eq_refl) as [-> Ho].
    eexists mid, last, _. conjuncts; auto.
Qed.

(** C9. When a forwarding [write] returns a count that is not the number
    of bytes read, the worker writes no more; if no [poll] or [read] fails
    and the script does not run out, the loop ends on a [poll] that times
    out or a [read] that returns 0, and the worker then reports [EIO] for
    [write()] and exits with failure. *)
Theorem relay_short_write :
  forall (arg : Z) (w w' : world) (o : outcome Z)
         (l pre post : list entry) (e : entry) (buf : list byte),
    rw_thread arg w = (o, w', l) ->
    l = pre ++ e :: post ->
    e_call e = Write STDOUT_FILENO buf ->
    0 <= e_ret e -> e_ret e <> size buf ->
    (forall x, In x post -> is_write x = false)
    /\
    (o <> Stalled -> input_ok post ->
     o = Exit EXIT_FAILURE /\
     exists mid last,
       post = mid ++ last :: reported (w_kernel w) "write()" EIO /\
       (forall x, In x (mid ++ [last]) -> is_input x = true) /\
       e_ret last = 0).
Proof.
  intros arg w w' o l pre post e buf Hrun Hl Hcall Hret Hshort.
  assert (He : write_failed e = true).
  { unfold write_failed. rewrite Hcall.
    destruct (Z.eqb_spec (e_ret e) (Z.of_nat (List.length buf))) as [E|E];
      [contradiction|]. apply orb_true_r. }
  assert (Hcode : error_code e = EIO).
  { unfold error_code. destruct (Z.ltb_spec (e_ret e) 0); [lia|reflexivity]. }
  destruct (rw_thread_first_failure _ _ _ _ _ _ _ _ Hrun Hl He)
    as (chunks & data & en1 & o1 & w1 & post1 & l2 &
        _ & _ & _ & _ & Hnz & Hpost & Hloop & Hk & Hfin).
  pose proof (@rw_thread_tail o1 w1 _ _ _ Hfin) as Htail.
  destruct (loop_run_sticky _ _ _ _ _ _ _ _ Hloop eq_refl Hnz)
    as (Hquiet & _ & _).
  split.
  - intros x Hx. rewrite Hpost in Hx. apply in_app_or in Hx.
    destruct Hx as [Hx|Hx]; [now destruct (Hquiet x Hx)|].
    now destruct (Htail x Hx).
  - intros Hs Hok.
    destruct (rw_thread_failure_end _ _ _ _ _ _ _ _ Hrun Hl He Hs Hok)
      as (mid & last & l2' & w1' & -> & Hin & Hlast & Hfin' & Hk').
    rewrite Hcode in Hfin'.
    destruct (rw_finish_run _ _ _ _ _ Hfin') as (_ & Herr & _).
    destruct Herr as [-> ->]; [discriminate..|].
    rewrite Hk'. split; [reflexivity|].
    exists mid, last. conjuncts; auto.
Qed.

(** C10, as amended. Once a forwarding [write] has failed, by an error or
    by a short count, the worker writes no more, whatever it still reads.
    That [write] is the first to fail: every chunk read before its own was
    written whole, in the order read.  Standard output has received these
    chunks followed by the bytes the failing [write] itself transferred,
    none when it returned an error.  Only the code of this failure is acted
    on: a report for [write()] carries it, a signal is sent only when it is
    [EPIPE], and when the loop ends by a timeout or a [read] of 0 the
    statements after the loop run with it. *)
Theorem relay_first_failure :
  forall (arg : Z) (w w' : world) (o : outcome Z)
         (l pre post : list entry) (e : entry),
    rw_thread arg w = (o, w', l) ->
    l = pre ++ e :: post ->
    write_failed e = true ->
    exists chunks data,
      chunks_read pre = chunks ++ [data] /\
      e_call e = Write STDOUT_FILENO data /\
      (forall x, In x pre -> write_failed x = false) /\
      (forall x, In x post -> is_write x = false) /\
      stdout_bytes l =
        List.concat chunks ++ firstn (Z.to_nat (e_ret e)) data /\
      (forall x c, In x post -> e_call x = Perror "write()" c ->
         c = error_code e) /\
      (forall x, In x post -> is_kill x = true -> error_code e = EPIPE) /\
      (o <> Stalled -> input_ok post ->
       exists mid last l2 w1,
         post = mid ++ last :: l2 /\
         (forall x, In x (mid ++ [last]) -> is_input x = true) /\
         e_ret last = 0 /\
         rw_finish (error_code e) w1 = (o, w', l2)).
Proof.
  intros arg w w' o l pre post e Hrun Hl He.
  destruct (rw_thread_first_failure _ _ _ _ _ _ _ _ Hrun Hl He)
    as (chunks & data & en1 & o1 & w1 & post1 & l2 &
        Hread & Hcall & Hpre & Hout & Hnz & Hpost & Hloop & Hk & Hfin).
  pose proof (@rw_thread_tail o1 w1 _ _ _ Hfin) as Htail.
  destruct (loop_run_sticky _ _ _ _ _ _ _ _ Hloop eq_refl Hnz)
    as (Hquiet & Hkeep & _).
  destruct (loop_run_calls _ _ _ _ _ _ _ _ Hloop) as [_ Hcalls].
  assert (Hnow : forall x, In x post -> is_write x = false).
  { intros x Hx. rewrite Hpost in Hx. apply in_app_or in Hx.
    destruct Hx as [Hx|Hx]; [now destruct (Hquiet x Hx)|].
    now destruct (Htail x Hx). }
  exists chunks, data. conjuncts; auto.
  - rewrite Hl, stdout_bytes_app. unfold stdout_bytes at 2.
    cbn [flat_map]. fold (stdout_bytes post).
    rewrite (stdout_bytes_quiet post Hnow), app_nil_r, Hout.
    unfold written. rewrite Hcall, Z.eqb_refl. reflexivity.
  - intros x c Hx Hc. rewrite Hpost in Hx. apply in_app_or in Hx.
    destruct Hx as [Hx|Hx].
    + destruct (Hcalls x Hx) as [_ Hno]. contradiction (Hno c).
    + destruct o1 as [we| | |].
      2,3: destruct Hfin as (_ & _ & ->); contradiction.
      2: destruct Hfin as (_ & _ & -> & _); contradiction.
      rewrite (Hkeep we eq_refl) in Hfin.
      destruct (rw_finish_run _ _ _ _ _ Hfin) as (Hpipe & Herr & _).
      destruct (Z.eq_dec (error_code e) EPIPE) as [E|E].
      * destruct (Hpipe E) as [-> _]. entries Hx. discriminate Hc.
      * destruct (Herr E Hnz) as [-> _]. entries Hx; [discriminate Hc|].
        cbn in Hc. now injection Hc as <-.
  - intros x Hx Hkill. rewrite Hpost in Hx. apply in_app_or in Hx.
    destruct Hx as [Hx|Hx].
    + destruct (Hcalls x Hx) as [Hno _]. congruence.
    + destruct o1 as [we| | |].
      2,3: destruct Hfin as (_ & _ & ->); contradiction.
      2: destruct Hfin as (_ & _ & -> & _); contradiction.
      rewrite (Hkeep we eq_refl) in Hfin.
      destruct (rw_finish_run _ _ _ _ _ Hfin) as (_ & Herr & _).
      destruct (Z.eq_dec (error_code e) EPIPE) as [E|E]; [assumption|].
      destruct (Herr E Hnz) as [-> _]. entries Hx; discriminate Hkill.
  - intros Hs Hok.
    destruct (rw_thread_failure_end _ _ _ _ _ _ _ _ Hrun Hl He Hs Hok)
      as (mid & last & l2' & w1' & H1 & H2 & H3 & H4 & _).
    exists mid, last, l2', w1'. conjuncts; auto.
Qed.

(** ** The snoop protocol *)

Lemma loop_run_stamps : forall k fd empty we en l o en',
  loop_run k fd empty we en l o en' ->
  forall x, In x l -> e_kernel x = k /\ worker_call (e_call x) = true.
Proof.
  induction 1; intros x Hx; cbn [In reported] in Hx;
    repeat (destruct Hx as [<-|Hx]; [split; reflexivity|]);
    try contradiction; auto.
Qed.

(** The worker leaves the console, the terminal attributes and the signal
    mask alone, and all its calls are made in the kernel state it started
    in. *)
Lemma rw_thread_kernel : forall fd w o w' l,
  rw_thread fd w = (o, w', l) ->
  (forall x, In x l ->
     e_kernel x = w_kernel w /\ worker_call (e_call x) = true) /\
  k_active (w_kernel w') = k_active (w_kernel w) /\
  k_blocked (w_kernel w') = k_blocked (w_kernel w) /\
  k_tio (w_kernel w') = k_tio (w_kernel w) /\
  tty_fd w' = tty_fd w /\ orig_tio w' = orig_tio w /\
  w_atexit w' = w_atexit w.
Proof.
  intros fd w o w' l Hrun.
  destruct (rw_thread_run _ _ _ _ _ Hrun)
    as (o1 & w1 & l1 & l2 & -> & Hloop & Hsame & Hfin).
  destruct Hsame as (Hk & Htty & Horig & Hat & _).
  assert (Htail :
    (forall x, In x l2 ->
       e_kernel x = w_kernel w /\ worker_call (e_call x) = true) /\
    k_active (w_kernel w') = k_active (w_kernel w1) /\
    k_blocked (w_kernel w') = k_blocked (w_kernel w1) /\
    k_tio (w_kernel w') = k_tio (w_kernel w1) /\
    tty_fd w' = tty_fd w1 /\ orig_tio w' = orig_tio w1 /\
    w_atexit w' = w_atexit w1).
  { destruct o1 as [we| | |].
    - destruct (rw_finish_run _ _ _ _ _ Hfin) as (Hpipe & Herr & Hnone).
      rewrite <- Hk.
      destruct w1 as [script k en tfd otio hs th].
      unfold rw_finish in Hfin.
      destruct (Z.eqb_spec we EPIPE) as [E|E].
      + unfold kill, deliver, bind in Hfin.
        cbn -[deliverable Z.lor sigbit] in Hfin.
        destruct (deliverable _); cbn in Hfin; inversion Hfin; subst;
          (split; [intros x Hx; entries Hx; split; reflexivity
                  |cbn; conjuncts; reflexivity]).
      + destruct (Z.eqb_spec we 0) as [E0|E0]; cbn in Hfin;
          inversion Hfin; subst;
          (split; [intros x Hx; entries Hx; split; reflexivity
                  |cbn; conjuncts; reflexivity]).
    - destruct Hfin as (_ & -> & ->). split; [contradiction|conjuncts; auto].
    - destruct Hfin as (_ & -> & ->). split; [contradiction|conjuncts; auto].
    - destruct Hfin as (_ & -> & -> & _).
      split; [contradiction|conjuncts; auto]. }
  destruct Htail as (Hl2 & H1 & H2 & H3 & H4 & H5 & H6).
  split.
  - intros x Hx. apply in_app_or in Hx. destruct Hx as [Hx|Hx]; [|auto].
    eapply loop_run_stamps; eassumption.
  - conjuncts; congruence.
Qed.

Lemma worker_call_other : forall x,
  worker_call (e_call x) = true -> is_ioctl x = false /\ is_create x = false.
Proof.
  intros x. unfold is_ioctl, is_create.
  destruct (e_call x); try discriminate; split; reflexivity.
Qed.

(** The last two statements of [snoop]. *)
Lemma snoop_end_log : forall mask w o w' l,
  (restore_tty ;; sigprocmask SIG_UNBLOCK mask ;; ret tt) w = (o, w', l) ->
  forall x, In x l ->
    k_blocked (e_kernel x) = k_blocked (w_kernel w) /\
    is_ioctl x = false /\ is_create x = false.
Proof.
  intros mask [script k en tfd otio hs th] o w' l H.
  unfold restore_tty in H. unfold bind at 1 2 in H. cbn [get tty_fd] in H.
  destruct (tfd <? 0).
  - unfold sigprocmask, deliver, bind in H.
    cbn -[deliverable Z.lor Z.ldiff] in H.
    destruct (deliverable _); cbn in H; inversion H; subst;
      intros x Hx; entries Hx; conjuncts; reflexivity.
  - destruct script as [|[[] pe pv pb ps] script];
      [cbn in H; inversion H; subst; intros x Hx; entries Hx;
       conjuncts; reflexivity..|].
    unfold sigprocmask, deliver, bind in H.
    cbn -[deliverable Z.lor Z.ldiff] in H.
    destruct (deliverable _); cbn in H; inversion H; subst;
      intros x Hx; entries Hx; conjuncts; reflexivity.
Qed.

Lemma snoop_join_log : forall mask w o w' l,
  snoop_join mask w = (o, w', l) ->
  forall x, In x l ->
    k_blocked (e_kernel x) = k_blocked (w_kernel w) /\
    is_ioctl x = false /\ is_create x = false.
Proof.
  intros mask [script k en tfd otio hs th] o w' l H.
  unfold snoop_join, pthread_join in H.
  unfold bind at 1 2 in H. cbn [get w_thread] in H.
  destruct th as [[[] arg]|].
  - unfold bind at 1 in H. cbn [start_routine] in H.
    destruct (rw_thread arg _) as [[o1 w1] l1] eqn:E.
    destruct (rw_thread_kernel _ _ _ _ _ E) as (Hl1 & _ & Hb & _).
    cbn [w_kernel] in *.
    assert (Hl1' : forall x, In x l1 ->
              k_blocked (e_kernel x) = k_blocked k /\
              is_ioctl x = false /\ is_create x = false).
    { intros x Hx. destruct (Hl1 x Hx) as [-> Hc].
      split; [reflexivity|now apply worker_call_other]. }
    destruct o1 as [a| | |];
      try (cbn in H; inversion H; subst; assumption).
    destruct w1 as [script1 k1 en1 tfd1 otio1 hs1 th1]. cbn [w_kernel] in Hb.
    cbn -[restore_tty sigprocmask] in H.
    destruct ((restore_tty;; sigprocmask SIG_UNBLOCK mask;; ret tt) _)
      as [[o2 w2] l2] eqn:E2.
    pose proof (snoop_end_log _ _ _ _ _ E2) as Hl2. cbn [w_kernel] in Hl2.
    inversion H; subst. intros x Hx.
    apply in_app_or in Hx. destruct Hx as [Hx|Hx].
    + apply in_app_or in Hx. destruct Hx as [Hx|Hx]; [auto|].
      entries Hx. cbn. conjuncts; auto.
    + rewrite <- Hb. auto.
  - cbn -[restore_tty sigprocmask] in H.
    destruct ((restore_tty;; sigprocmask SIG_UNBLOCK mask;; ret tt) _)
      as [[o2 w2] l2] eqn:E2.
    pose proof (snoop_end_log _ _ _ _ _ E2) as Hl2. cbn [w_kernel] in Hl2.
    inversion H; subst. intros x [<-|Hx]; [conjuncts; reflexivity|auto].
Qed.

Lemma ioctls_none : forall l,
  (forall x, In x l -> is_ioctl x = false) -> ioctls l = [].
Proof.
  induction l as [|a l IH]; intros H; [reflexivity|].
  cbn [ioctls]. pose proof (H a (or_introl eq_refl)) as Ha.
  unfold is_ioctl in Ha. destruct (e_call a); try discriminate Ha;
    apply IH; intros x Hx; apply H; right; exact Hx.
Qed.

Lemma ioctls_app : forall l1 l2, ioctls (l1 ++ l2) = ioctls l1 ++ ioctls l2.
Proof.
  induction l1 as [|a l1 IH]; intros l2; [reflexivity|].
  cbn [app ioctls]. destruct (e_call a); rewrite IH; reflexivity.
Qed.

(** Stepping through [snoop]: one reply of the script at a time. *)
Ltac snoop_cbn H :=
  cbn -[snoop_join deliverable Z.lor Z.ldiff sigaddset sigfillset unmaskable
        Z.of_nat clear_echo] in H.

Ltac sys_step H fin :=
  match type of H with
  | context [mk_world ?script _ _ _ _ _ _] =>
      is_var script;
      let pf := fresh "pf" in
      let pe := fresh "pe" in
      let pv := fresh "pv" in
      let pb := fresh "pb" in
      let ps := fresh "ps" in
      destruct script as [|[pf pe pv pb ps] script];
      [snoop_cbn H; fin
      |destruct pf; [snoop_cbn H; fin|snoop_cbn H]]
  end.

(** The same when the program goes on after a failure of the call. *)
Ltac sys_step_on H fin :=
  match type of H with
  | context [mk_world ?script _ _ _ _ _ _] =>
      is_var script;
      let pf := fresh "pf" in
      let pe := fresh "pe" in
      let pv := fresh "pv" in
      let pb := fresh "pb" in
      let ps := fresh "ps" in
      destruct script as [|[pf pe pv pb ps] script];
      [snoop_cbn H; fin|destruct pf; snoop_cbn H]
  end.

Ltac snoop_start H :=
  unfold snoop, chvt, init_tty, ioctl_VT_GETSTATE, sigprocmask, deliver, when
    in H;
  unfold bind in H.

Ltac fd_nonneg H :=
  match type of H with
  | context [Z.of_nat ?pv <? 0] =>
      replace (Z.of_nat pv <? 0) with false in H
        by (symmetry; apply Z.ltb_ge; apply Nat2Z.is_nonneg);
      let fd := fresh "fd" in
      let E := fresh "E" in
      remember (Z.of_nat pv) as fd eqn:E; clear E; snoop_cbn H
  end.

Ltac in_log Hin :=
  cbn [In] in Hin;
  repeat (destruct Hin as [<-|Hin]; [|]); try contradiction.

Ltac choreo_leaf H :=
  inversion H; subst; clear H;
  split; [|split; [|split; [|split]]];
  [ intros e fd0 sel Hin Hc; in_log Hin;
    cbn in Hc |- *; try discriminate Hc; reflexivity
  | intros e fd0 sel Hin Hc; in_log Hin;
    cbn in Hc |- *; try discriminate Hc; split; reflexivity
  | cbn [ioctls e_call];
    first [exists 0%nat; reflexivity | exists 1%nat; reflexivity
          |exists 2%nat; reflexivity | exists 3%nat; reflexivity
          |exists 4%nat; reflexivity | exists 5%nat; reflexivity
          |exists 6%nat; reflexivity | exists 7%nat; reflexivity]
  | intros e fd0 sel Hin Hc; in_log Hin;
    cbn in Hc; try discriminate Hc; reflexivity
  | intros Ho; discriminate Ho ].

(** The leaf that runs into [snoop_join]. *)
Ltac choreo_join H :=
  match type of H with
  | context [snoop_join ?m ?w0] =>
      let E := fresh "E" in
      let Hlog := fresh "Hlog" in
      destruct (snoop_join m w0) as [[?o2 ?w2] ?l2] eqn:E;
      pose proof (snoop_join_log _ _ _ _ _ E) as Hlog;
      inversion H; subst; clear H;
      assert (Hall : forall x, In x l2 -> is_ioctl x = false)
        by (intros x Hx; now destruct (Hlog x Hx));
      split; [|split; [|split; [|split]]];
      [ intros e fd0 sel Hin Hc; in_log Hin;
        try (cbn in Hc |- *; try discriminate Hc; reflexivity);
        pose proof (Hall e Hin) as Hio;
        unfold is_ioctl in Hio; rewrite Hc in Hio; discriminate Hio
      | intros e fd0 sel Hin Hc; in_log Hin;
        try (cbn in Hc |- *; try discriminate Hc; split; reflexivity);
        pose proof (Hall e Hin) as Hio;
        unfold is_ioctl in Hio; rewrite Hc in Hio; discriminate Hio
      | exists 7%nat; cbn [ioctls e_call];
        rewrite (ioctls_none _ Hall); reflexivity
      | intros e fd0 sel Hin Hc; cbn [ioctls e_call];
        rewrite (ioctls_none _ Hall); reflexivity
      | intros _; split;
        [ cbn [ioctls e_call]; rewrite (ioctls_none _ Hall); reflexivity
        | intros e Hin Hio; in_log Hin;
          try (cbn in Hio |- *; try discriminate Hio; reflexivity);
          rewrite (Hall e Hin) in Hio; discriminate Hio ] ]
  end.

(** C3. In every run of [snoop n]: the selection is submitted with console
    [n] in the foreground; the paste is triggered with the console that was
    in the foreground at the start back in the foreground, and with the
    selection buffer taken from console [n]; the console requests of the
    run are an initial part of: query, activate [n] and wait, set the
    selection, activate the original console and wait, paste.  A run that
    triggers the paste has made all of them, in that order, so the
    selection was submitted and the console switched back before; and a
    run that returns has made them all with success. *)
Theorem snoop_choreography :
  forall (n : Z) (w w' : world) (o : outcome unit) (l : list entry),
    snoop n w = (o, w', l) ->
    (forall e fd sel, In e l ->
       e_call e = Ioctl fd (TIOCLINUX TIOCL_SETSEL sel) ->
       k_active (e_kernel e) = n)
    /\
    (forall e fd sel, In e l ->
       e_call e = Ioctl fd (TIOCLINUX TIOCL_PASTESEL sel) ->
       k_active (e_kernel e) = k_active (w_kernel w) /\
       k_sel_from (e_kernel e) = Some n)
    /\
    (exists i, ioctls l = firstn i (choreography n (k_active (w_kernel w))))
    /\
    (forall e fd sel, In e l ->
       e_call e = Ioctl fd (TIOCLINUX TIOCL_PASTESEL sel) ->
       ioctls l = choreography n (k_active (w_kernel w)))
    /\
    (o = Ret tt ->
     ioctls l = choreography n (k_active (w_kernel w)) /\
     forall e, In e l -> is_ioctl e = true -> e_ret e = 0).
Proof.
  intros n [script k en tfd otio hs th] w' o l H.
  snoop_start H.
  sys_step H ltac:(solve [choreo_leaf H]).
  fd_nonneg H.
  do 6 (sys_step H ltac:(solve [choreo_leaf H])).
  destruct (deliverable _) as [sig|]; snoop_cbn H; [solve [choreo_leaf H]|].
  sys_step_on H ltac:(solve [choreo_leaf H]).
  all: do 3 (sys_step H ltac:(solve [choreo_leaf H])).
  all: choreo_join H.
Qed.

(** The mask [snoop] blocks: the set [sigfillset] gives, less the two
    signals that cannot be blocked, [SIGPIPE] included. *)
Lemma snoop_mask_full : forall sig,
  1 <= sig <= NSIG -> sig <> SIGKILL -> sig <> SIGSTOP ->
  sig <> SIGCANCEL -> sig <> SIGSETXID ->
  sigismember (Z.ldiff (sigaddset sigfillset SIGPIPE) unmaskable) sig = true.
Proof.
  intros sig Hrange Hkill Hstop Hcancel Hxid.
  assert (Hall : forallb
            (fun s => (s =? SIGKILL) || (s =? SIGSTOP) ||
                      (s =? SIGCANCEL) || (s =? SIGSETXID) ||
                      sigismember
                        (Z.ldiff (sigaddset sigfillset SIGPIPE) unmaskable) s)%bool
            (map Z.of_nat (seq 1 64)) = true) by (vm_compute; reflexivity).
  rewrite forallb_forall in Hall.
  specialize (Hall sig).
  destruct (Z.eqb_spec sig SIGKILL); [contradiction|].
  destruct (Z.eqb_spec sig SIGSTOP); [contradiction|].
  destruct (Z.eqb_spec sig SIGCANCEL); [contradiction|].
  destruct (Z.eqb_spec sig SIGSETXID); [contradiction|].
  apply Hall. apply in_map_iff. exists (Z.to_nat sig).
  unfold NSIG in Hrange. split; [lia|]. apply in_seq. lia.
Qed.

Lemma blocked_after_block : forall k b,
  k_blocked k = Z.lor b (Z.ldiff (sigaddset sigfillset SIGPIPE) unmaskable) ->
  blocks_most k /\ sigismember (k_blocked k) SIGPIPE = true.
Proof.
  intros k b Hk.
  assert (H : blocks_most k).
  { intros sig Hrange Hkill Hstop Hcancel Hxid. rewrite Hk.
    unfold sigismember.
    rewrite Z.lor_spec. fold (sigismember (Z.ldiff (sigaddset sigfillset SIGPIPE) unmaskable) sig).
    rewrite snoop_mask_full by assumption. apply orb_true_r. }
  split; [exact H|].
  apply H; unfold NSIG, SIGPIPE, SIGKILL, SIGSTOP, SIGCANCEL, SIGSETXID; lia.
Qed.

Ltac mask_leaf H :=
  inversion H; subst; clear H;
  cbn [from_create is_create e_call];
  split;
  [ intros e Hin; in_log Hin;
    eapply blocked_after_block; cbn; reflexivity
  | intros Ho; discriminate Ho ].

Ltac mask_join H :=
  match type of H with
  | context [snoop_join ?m ?w0] =>
      let E := fresh "E" in
      let Hlog := fresh "Hlog" in
      destruct (snoop_join m w0) as [[?o2 ?w2] ?l2] eqn:E;
      pose proof (snoop_join_log _ _ _ _ _ E) as Hlog;
      inversion H; subst; clear H;
      cbn [from_create is_create e_call];
      split;
      [ intros e Hin; in_log Hin;
        try (eapply blocked_after_block; cbn; reflexivity);
        destruct (Hlog e Hin) as (Hb & _);
        eapply blocked_after_block; rewrite Hb; cbn; reflexivity
      | intros _; discriminate ]
  end.

(** C4, as amended. In every run of [snoop], every call from the creation
    of the worker on, the worker's own calls, the join, the restoration of
    the terminal and the final [sigprocmask] included, is made with most
    signals blocked, and [SIGPIPE] is one of them.  A run that returns has
    been through such a window. *)
Theorem capture_window_mask :
  forall (n : Z) (w w' : world) (o : outcome unit) (l : list entry),
    snoop n w = (o, w', l) ->
    (forall e, In e (from_create l) ->
       blocks_most (e_kernel e) /\
       sigismember (k_blocked (e_kernel e)) SIGPIPE = true)
    /\
    (o = Ret tt -> from_create l <> []).
Proof.
  intros n [script k en tfd otio hs th] w' o l H.
  snoop_start H.
  sys_step H ltac:(solve [mask_leaf H]).
  fd_nonneg H.
  do 6 (sys_step H ltac:(solve [mask_leaf H])).
  destruct (deliverable _) as [sig|]; snoop_cbn H; [solve [mask_leaf H]|].
  sys_step_on H ltac:(solve [mask_leaf H]).
  all: do 3 (sys_step H ltac:(solve [mask_leaf H])).
  all: mask_join H.
Qed.





(** C7 fails when [pthread_create] fails: it returns the error number,
    which is positive, the test [rc < 0] lets it pass, and [snoop] goes on
    to suspend the echo and trigger the paste with no worker thread: no
    [poll] or [read] is ever made, the join finds no thread, and the process
    exits with 0 having copied nothing. *)
Theorem paste_without_worker :
  exists w' l,
    process ["vcsnoop"; "/dev/tty2"]
            (initial_world (Sample.tty2 :: Script.no_thread) Sample.idle)
      = (Exited 0, w', l) /\
    In (PthreadCreate R_rw_thread 3, EAGAIN) (returns l) /\
    In (Ioctl 0 (TIOCLINUX TIOCL_PASTESEL full_screen), 0) (returns l) /\
    In (PthreadJoin, ESRCH) (returns l) /\
    forallb (fun e => negb (is_input e || is_write e)) l = true /\
    stdout_bytes l = [].
Proof.
  do 2 eexists. split; [vm_compute; reflexivity|].
  conjuncts; [cbn; tauto..|reflexivity|reflexivity].
Qed.

(** C4 as stated fails: when the worker is created, and at every call
    until it is joined, [SIGPIPE] is blocked. *)
Lemma capture_window_mask_counterexample :
  exists o w' l,
    snoop 2 (initial_world Script.capture Sample.idle) = (o, w', l) /\
    from_create l <> [] /\
    forallb (fun e => sigismember (k_blocked (e_kernel e)) SIGPIPE)
            (from_create l) = true.
Proof.
  do 3 eexists. split; [vm_compute; reflexivity|].
  split; [discriminate|reflexivity].
Qed.

(** What blocking [SIGPIPE] is for: when standard output is a broken pipe,
    the signal the worker sends stays pending until [snoop] lifts the mask,
    after the terminal attributes are back; only then is the process
    killed. *)
Example broken_pipe_is_deferred :
  exists w' l,
    process ["vcsnoop"; "/dev/tty2"]
            (initial_world
               (Sample.tty2 :: firstn 11 Script.capture
                ++ Script.broken_pipe ++ [Sample.ok 0])
               Sample.idle)
      = (Killed SIGPIPE, w', l) /\
    k_tio (w_kernel w') = Sample.cooked /\
    last (calls l) PthreadJoin
      = Sigprocmask SIG_UNBLOCK (sigaddset sigfillset SIGPIPE).
Proof.
  do 2 eexists. split; [vm_compute; reflexivity|].
  split; reflexivity.
Qed.

(** ** The theorems at sample runs *)

Lemma run_eta : forall A (r : outcome A * world * list entry),
  r = (outcome_of r, world_of r, log_of r).
Proof. intros A [[o w] l]. reflexivity. Qed.

Ltac check_inputs :=
  let x := fresh "x" in
  let Hx := fresh "Hx" in
  intros x Hx _; cbn [In] in Hx;
  repeat (destruct Hx as [<-|Hx]; [cbn; lia|]); contradiction.

Lemma cli_contract_witness :
  let w := initial_world [] Sample.idle in
  let out c := mk_entry Sample.idle c 0 0 in
  process ["vcsnoop"; "--help"] w =
    (Exited 0, w,
     [out (Fputs stdout usage_line); out (Fputs stdout options_text)])
  /\
  (exists diag,
     process ["vcsnoop"; "-x"] w =
       (Exited 1, w, map (fun s => out (Fputs stderr s)) (diag ++ [usage_line])))
  /\
  process ["vcsnoop"] w = (Exited 1, w, [out (Fputs stderr usage_line)])
  /\
  process ["vcsnoop"; "/dev/tty1"; "--"; "/dev/tty2"] w =
    (Exited 1, w, [out (Fputs stderr usage_line)]).
Proof.
  intros w out. split; [|split; [|split]].
  - apply (cli_contract "vcsnoop" "--help" [] [] [] Sample.idle (Forall_nil _)).
    left. reflexivity.
  - apply (cli_contract "vcsnoop" "-x" [] [] [] Sample.idle (Forall_nil _)).
    + reflexivity.
    + discriminate.
    + discriminate.
    + discriminate.
  - apply (cli_contract "vcsnoop" "" [] [] [] Sample.idle (Forall_nil _)).
    discriminate.
  - apply (cli_contract "vcsnoop" "" ["/dev/tty1"] ["/dev/tty2"] []
             Sample.idle).
    + constructor; [reflexivity|constructor].
    + discriminate.
Defined.

Lemma device_check_witness :
  (main ["vcsnoop"; "/dev/tty2"]
        (initial_world (Sample.tty2 :: Script.capture) Sample.idle) =
   match (snoop 2 ;; ret 0) (initial_world Script.capture Sample.idle) with
   | (o, w', l) => (o, w', mk_entry Sample.idle (Stat "/dev/tty2") 0 0 :: l)
   end)
  /\
  (exists w' l,
     process ["vcsnoop"; "/etc/passwd"]
             (initial_world [Sample.regular] Sample.idle) = (Exited 1, w', l) /\
     calls l = Stat "/etc/passwd" :: report "/etc/passwd" ENOTTY /\
     w_kernel w' = Sample.idle /\ w_script w' = [])
  /\
  (exists w' l,
     process ["vcsnoop"; "/nonexistent"]
             (initial_world [Sample.err ENOENT] Sample.idle)
       = (Exited 1, w', l) /\
     calls l = Stat "/nonexistent" :: report "/nonexistent" ENOENT /\
     w_kernel w' = Sample.idle /\ w_script w' = []).
Proof.
  split; [|split].
  - apply (device_check ["vcsnoop"; "/dev/tty2"] "/dev/tty2" Sample.tty2
             Script.capture Sample.idle eq_refl).
    + reflexivity.
    + unfold console_device. vm_compute.
      repeat split; try reflexivity; discriminate.
  - apply (device_check ["vcsnoop"; "/etc/passwd"] "/etc/passwd"
             Sample.regular [] Sample.idle eq_refl).
    + reflexivity.
    + intros [H _]. vm_compute in H. discriminate H.
  - apply (device_check ["vcsnoop"; "/nonexistent"] "/nonexistent"
             (Sample.err ENOENT) [] Sample.idle eq_refl).
    reflexivity.
Defined.

Lemma restore_tty_idempotent_witness :
  let w := initial_world [Sample.ok 0; Sample.ok 0; Sample.ok 0] Sample.idle in
  let w1 := world_of (init_tty 3 w) in
  let wr := world_of (restore_tty w1) in
  (List.length (filter is_tcsetattr (log_of ((restore_tty ;; restore_tty) w1)))
   <= 1)%nat
  /\
  (calls (log_of (restore_tty w1)) = [Tcsetattr 3 TCSAFLUSH Sample.cooked] /\
   k_tio (w_kernel wr) = Sample.cooked /\
   restore_tty wr = (Ret tt, wr, []) /\
   exists w', run_exit (w_atexit wr) 0 wr = (Exited 0, w', []))
  /\
  restore_tty w = (Ret tt, w, []).
Proof.
  intros w w1 wr.
  assert (H03 : 0 <= 3) by lia.
  destruct (restore_tty_idempotent 3 w w1 (log_of (init_tty 3 w)) H03 eq_refl)
    as (Hcount & Hfirst & Hoff).
  split; [|split].
  - apply (Hcount _ _ _ (run_eta _ _)).
  - destruct (Hfirst wr (log_of (restore_tty w1)) eq_refl)
      as (Hc & Hk & Hagain & Hexit).
    conjuncts; [exact Hc|exact Hk|exact Hagain|exact (Hexit 0 eq_refl)].
  - apply Hoff. reflexivity.
Defined.

Section WorkerSamples.

Import Script.

Let k := capturing.
Let ab : list byte := [x61; x62].
Let cd : list byte := [x63; x64].
Let ef : list byte := [x65; x66].

(** The log of the worker up to the second [write] of the sample runs. *)
Let before : list entry :=
  [polled k 3 1 0; was_read k 3 ab 2 0; wrote k ab 2 0;
   polled k 3 1 0; was_read k 3 cd 2 0].

Lemma relay_timeout_witness :
  let silent := rw_thread 3 (initial_world [Sample.ok 0] k) in
  let pasted :=
    rw_thread 3 (initial_world (firstn 3 short_write ++ [Sample.ok 0]) k) in
  (outcome_of silent = Exit EXIT_FAILURE /\
   calls (tl (log_of silent)) = report "poll()" ETIME)
  /\
  (outcome_of pasted = Ret 0 /\
   log_of pasted = firstn 3 before ++ [polled k 3 0 0]).
Proof.
  intros silent pasted.
  assert (Hsilent : log_of silent = [] ++ polled k 3 0 0 :: tl (log_of silent))
    by (vm_compute; reflexivity).
  assert (Hpasted : log_of pasted = firstn 3 before ++ polled k 3 0 0 :: [])
    by (vm_compute; reflexivity).
  split.
  - apply (relay_timeout 3 _ _ _ _ [] (tl (log_of silent)) (polled k 3 0 0)
             (run_eta _ silent) Hsilent eq_refl eq_refl).
    reflexivity.
  - destruct (relay_timeout 3 _ _ _ _ (firstn 3 before) [] (polled k 3 0 0)
                (run_eta _ pasted) Hpasted eq_refl eq_refl) as [_ Hsome].
    destruct Hsome as (_ & _ & Hclean); [vm_compute; discriminate|].
    destruct Hclean as [Ho _].
    + intros x Hx. cbn [In firstn before] in Hx.
      repeat (destruct Hx as [<-|Hx]; [reflexivity|]). contradiction.
    + split; [exact Ho|exact Hpasted].
Defined.

Lemma relay_broken_pipe_witness :
  let r := rw_thread 3 (initial_world broken_pipe k) in
  let e := wrote k cd (-1) EPIPE in
  let post :=
    [polled k 3 1 EPIPE; was_read k 3 ef 2 EPIPE; polled k 3 0 EPIPE;
     mk_entry k (Kill 0 SIGPIPE) 0 EPIPE] in
  log_of r = before ++ e :: post /\
  (forall x, In x post -> is_write x = false) /\
  exists mid last sent,
    post = mid ++ [last; sent] /\
    (forall x, In x (mid ++ [last]) -> is_input x = true) /\
    e_ret last = 0 /\
    e_call sent = Kill 0 SIGPIPE /\
    (outcome_of r = Ret 0 \/ exists sig, outcome_of r = Signaled sig).
Proof.
  intros r e post.
  assert (Hl : log_of r = before ++ e :: post) by (vm_compute; reflexivity).
  assert (Hneg : e_ret e < 0) by (cbn; lia).
  assert (Hs : outcome_of r <> Stalled) by (vm_compute; discriminate).
  destruct (relay_broken_pipe 3 _ _ _ _ before post e
              (run_eta _ r) Hl eq_refl Hneg eq_refl)
    as (Hquiet & _ & Hend).
  split; [exact Hl|]. split; [exact Hquiet|].
  apply Hend; [exact Hs|check_inputs].
Defined.

Lemma relay_short_write_witness :
  let r := rw_thread 3 (initial_world short_write k) in
  let e := wrote k cd 1 0 in
  let post :=
    polled k 3 1 0 :: was_read k 3 ef 2 0 :: polled k 3 0 0
    :: reported k "write()" EIO in
  log_of r = before ++ e :: post /\
  (forall x, In x post -> is_write x = false) /\
  outcome_of r = Exit EXIT_FAILURE /\
  exists mid last,
    post = mid ++ last :: reported k "write()" EIO /\
    (forall x, In x (mid ++ [last]) -> is_input x = true) /\
    e_ret last = 0.
Proof.
  intros r e post.
  assert (Hl : log_of r = before ++ e :: post) by (vm_compute; reflexivity).
  assert (Hret : 0 <= e_ret e) by (cbn; lia).
  assert (Hshort : e_ret e <> size cd) by (cbn; lia).
  assert (Hs : outcome_of r <> Stalled) by (vm_compute; discriminate).
  destruct (relay_short_write 3 _ _ _ _ before post e cd
              (run_eta _ r) Hl eq_refl Hret Hshort)
    as (Hquiet & Hend).
  split; [exact Hl|]. split; [exact Hquiet|].
  apply Hend; [exact Hs|check_inputs].
Defined.

Lemma relay_first_failure_witness :
  let r := rw_thread 3 (initial_world short_write k) in
  let e := wrote k cd 1 0 in
  let post :=
    polled k 3 1 0 :: was_read k 3 ef 2 0 :: polled k 3 0 0
    :: reported k "write()" EIO in
  exists chunks data,
    log_of r = before ++ e :: post /\
    chunks_read before = chunks ++ [data] /\
    e_call e = Write STDOUT_FILENO data /\
    (forall x, In x before -> write_failed x = false) /\
    (forall x, In x post -> is_write x = false) /\
    stdout_bytes (log_of r) =
      List.concat chunks ++ firstn (Z.to_nat (e_ret e)) data.
Proof.
  intros r e post.
  assert (Hl : log_of r = before ++ e :: post) by (vm_compute; reflexivity).
  destruct (relay_first_failure 3 _ _ _ _ before post e
              (run_eta _ r) Hl eq_refl)
    as (chunks & data & H1 & H2 & H3 & H4 & H5 & _).
  exists chunks, data.
  conjuncts; assumption.
Defined.

(** C10 as stated fails on a short write: of the chunks [ab], [cd], [ef]
    read, the second is written short by one byte; standard output has
    received [abc], which is neither the chunks read before the failing
    chunk nor the chunks read before the [write] failed. *)
Lemma relay_first_failure_counterexample :
  let r := rw_thread 3 (initial_world short_write k) in
  let e := wrote k cd 1 0 in
  exists post,
    log_of r = before ++ e :: post /\
    write_failed e = true /\
    forallb (fun x => negb (write_failed x)) before = true /\
    chunks_read before = [ab; cd] /\
    stdout_bytes (log_of r) = [x61; x62; x63] /\
    stdout_bytes (log_of r) <> List.concat [ab] /\
    stdout_bytes (log_of r) <> List.concat [ab; cd].
Proof.
  intros r e. eexists.
  conjuncts; try (vm_compute; reflexivity); vm_compute; discriminate.
Qed.

End WorkerSamples.

Lemma snoop_choreography_witness :
  let r := snoop 2 (initial_world Script.capture Sample.idle) in
  outcome_of r = Ret tt /\
  ioctls (log_of r) =
    [VT_GETSTATE; VT_ACTIVATE 2; VT_WAITACTIVE 2;
     TIOCLINUX TIOCL_SETSEL full_screen;
     VT_ACTIVATE 1; VT_WAITACTIVE 1;
     TIOCLINUX TIOCL_PASTESEL full_screen] /\
  Forall (fun e => is_ioctl e = true -> e_ret e = 0) (log_of r) /\
  Forall (fun e => forall fd sel,
            e_call e = Ioctl fd (TIOCLINUX TIOCL_SETSEL sel) ->
            k_active (e_kernel e) = 2) (log_of r)
  /\
  Forall (fun e => forall fd sel,
            e_call e = Ioctl fd (TIOCLINUX TIOCL_PASTESEL sel) ->
            k_active (e_kernel e) = 1 /\ k_sel_from (e_kernel e) = Some 2)
         (log_of r).
Proof.
  intros r.
  assert (Ho : outcome_of r = Ret tt) by (vm_compute; reflexivity).
  destruct (snoop_choreography 2 _ _ _ _ (run_eta _ r))
    as (Hsel & Hpaste & _ & _ & Hret).
  destruct (Hret Ho) as [Hall Hok].
  split; [exact Ho|]. split; [exact Hall|]. split; [|split].
  - apply Forall_forall. exact Hok.
  - apply Forall_forall. intros e He fd sel. exact (Hsel e fd sel He).
  - apply Forall_forall. intros e He fd sel. exact (Hpaste e fd sel He).
Defined.

Lemma capture_window_mask_witness :
  let r := snoop 2 (initial_world Script.capture Sample.idle) in
  from_create (log_of r) <> [] /\
  Forall (fun e => blocks_most (e_kernel e) /\
                   sigismember (k_blocked (e_kernel e)) SIGPIPE = true)
         (from_create (log_of r)).
Proof.
  intros r.
  assert (Ho : outcome_of r = Ret tt) by (vm_compute; reflexivity).
  destruct (capture_window_mask 2 _ _ _ _ (run_eta _ r)) as [Hmask Hwin].
  split; [exact (Hwin Ho)|]. apply Forall_forall. exact Hmask.
Defined.

(** * Further properties *)

(** ** The relay worker: what ends the loop *)

(** A [poll] or [read] that fails is fatal on the spot; a [read] that
    returns 0 ends the loop by [break]. *)
Lemma loop_run_input_end : forall k fd empty we en l o en',
  loop_run k fd empty we en l o en' ->
  forall pre e post,
    l = pre ++ e :: post ->
    is_input e = true ->
    (e_ret e < 0 ->
     o = Exit EXIT_FAILURE /\
     post = reported k (if is_poll e then "poll()" else "read()") (e_errno e))
    /\
    (is_read e = true -> e_ret e = 0 ->
     post = [] /\ exists we', o = Ret we').
Proof.
  induction 1; intros pre x post Hl Hin; unfold reported in Hl.
  all: try match goal with Hd : _ <> [] |- _ =>
         pose proof (size_pos _ Hd) as Hpos end.
  all: try (solve [unsplit Hl pre; cbn in Hin; try discriminate Hin;
                (split;
                 [intros Hneg; cbn in Hneg; try lia; split; reflexivity
                 |intros Hr Hz; cbn in Hr, Hz;
                  try discriminate Hr; try discriminate Hz; try lia;
                  (split; [reflexivity|eexists; reflexivity])])]).
  2-4: destruct pre as [|a [|b [|c pre]]].
  1: destruct pre as [|a [|b pre]].
  all: cbn [app] in Hl; inversion Hl; subst; clear Hl;
    try (cbn in Hin; discriminate Hin);
    try (solve [split;
                [intros Hneg; cbn in Hneg; lia
                |intros Hr Hz; cbn in Hr, Hz; try discriminate Hr; lia]]).
  all: exact (IHloop_run _ _ _ eq_refl Hin).
Qed.

(** X1. A [poll] or [read] of the worker that fails ends the run at once:
    the worker reports the error of that call for [poll()] or [read()] and
    exits with failure.  A [write] error recorded before is dropped: the
    run has no report for [write()] and sends no signal. *)
Theorem relay_input_failure :
  forall (arg : Z) (w w' : world) (o : outcome Z)
         (l pre post : list entry) (e : entry),
    rw_thread arg w = (o, w', l) ->
    l = pre ++ e :: post ->
    is_input e = true -> e_ret e < 0 ->
    o = Exit EXIT_FAILURE /\
    post = reported (w_kernel w)
             (if is_poll e then "poll()" else "read()") (e_errno e) /\
    (forall x, In x l ->
       is_kill x = false /\ forall c, e_call x <> Perror "write()" c).
Proof.
  intros arg w w' o l pre post e Hrun Hl Hin Hneg.
  destruct (rw_thread_run _ _ _ _ _ Hrun)
    as (o1 & w1 & l1 & l2 & -> & Hloop & _ & Hfin).
  pose proof (@rw_thread_tail o1 w1 _ _ _ Hfin) as Htail.
  destruct (split_left is_input l1 l2 pre e post Hl) as (post1 & -> & ->);
    [intros x Hx; now destruct (Htail x Hx)|assumption|].
  destruct (loop_run_input_end _ _ _ _ _ _ _ _ Hloop _ _ _ eq_refl Hin)
    as [Hfail _].
  destruct (Hfail Hneg) as [-> ->].
  destruct Hfin as (-> & _ & ->).
  rewrite !app_nil_r. conjuncts; [reflexivity..|].
  intros x Hx. now apply (loop_run_calls _ _ _ _ _ _ _ _ Hloop).
Qed.

(** X2. A [read] of the worker that returns 0 ends the loop, also when
    nothing has been read yet: the rest of the run is the statements after
    the loop, and when no [write] failed the worker returns with nothing
    more done and no error. *)
Theorem relay_end_of_file :
  forall (arg : Z) (w w' : world) (o : outcome Z)
         (l pre post : list entry) (e : entry),
    rw_thread arg w = (o, w', l) ->
    l = pre ++ e :: post ->
    is_read e = true -> e_ret e = 0 ->
    (forall x, In x post -> is_input x = false /\ is_write x = false) /\
    (exists we w1, rw_finish we w1 = (o, w', post)) /\
    ((forall x, In x pre -> write_failed x = false) ->
     o = Ret 0 /\ post = []).
Proof.
  intros arg w w' o l pre post e Hrun Hl Hread Hret.
  assert (Hin : is_input e = true).
  { unfold is_input. rewrite Hread. apply orb_true_r. }
  destruct (rw_thread_run _ _ _ _ _ Hrun)
    as (o1 & w1 & l1 & l2 & -> & Hloop & _ & Hfin).
  pose proof (@rw_thread_tail o1 w1 _ _ _ Hfin) as Htail.
  destruct (split_left is_input l1 l2 pre e post Hl) as (post1 & -> & ->);
    [intros x Hx; now destruct (Htail x Hx)|assumption|].
  destruct (loop_run_input_end _ _ _ _ _ _ _ _ Hloop _ _ _ eq_refl Hin)
    as [_ Heof].
  destruct (Heof Hread Hret) as (-> & we & ->).
  cbn [app]. split; [exact Htail|]. split; [eauto|].
  intros Hclean.
  assert (we = 0) as ->.
  { eapply loop_run_clean; [exact Hloop|reflexivity|].
    intros x Hx. apply in_app_or in Hx. destruct Hx as [Hx|[<-|[]]].
    - now apply Hclean.
    - unfold write_failed. unfold is_read in Hread.
      destruct (e_call e); try discriminate Hread. reflexivity. }
  destruct (rw_finish_run _ _ _ _ _ Hfin) as (_ & _ & Hz).
  destruct (Hz eq_refl) as (-> & -> & _). split; reflexivity.
Qed.

(** The loop exits only with [EXIT_FAILURE], and is never killed. *)
Lemma loop_run_exit_code : forall k fd empty we en l o en',
  loop_run k fd empty we en l o en' ->
  forall c, o = Exit c -> c = EXIT_FAILURE.
Proof. induction 1; intros c Ho; try discriminate Ho; auto; congruence. Qed.

Lemma loop_run_not_signaled : forall k fd empty we en l o en',
  loop_run k fd empty we en l o en' ->
  forall sig, o = Signaled sig -> False.
Proof. induction 1; intros sig Ho; try discriminate Ho; eauto. Qed.

(** ** The relay worker: forwarding *)

Lemma chunks_read_app : forall l1 l2,
  chunks_read (l1 ++ l2) = chunks_read l1 ++ chunks_read l2.
Proof.
  induction l1 as [|a l1 IH]; intros l2; [reflexivity|].
  cbn [app chunks_read]. rewrite IH.
  destruct (e_call a); try reflexivity. destruct (0 <? e_ret a); reflexivity.
Qed.

Lemma chunks_written_app : forall l1 l2,
  chunks_written (l1 ++ l2) = chunks_written l1 ++ chunks_written l2.
Proof.
  induction l1 as [|a l1 IH]; intros l2; [reflexivity|].
  cbn [app chunks_written]. rewrite IH.
  destruct (e_call a); try reflexivity.
  destruct (fd =? STDOUT_FILENO); reflexivity.
Qed.

Lemma chunks_none : forall l,
  (forall x, In x l -> is_input x = false /\ is_write x = false) ->
  chunks_read l = [] /\ chunks_written l = [].
Proof.
  induction l as [|a l IH]; intros H; [split; reflexivity|].
  destruct IH as [IHr IHw]; [intros x Hx; apply H; right; exact Hx|].
  destruct (H a (or_introl eq_refl)) as [Hi Hw].
  unfold is_input, is_read, is_write in Hi, Hw.
  apply orb_false_iff in Hi. destruct Hi as [_ Hr].
  cbn [chunks_read chunks_written].
  destruct (e_call a); try discriminate; split; assumption.
Qed.

(** While no [write] fails, each chunk read is written whole before the
    next is read. *)
Lemma loop_run_forwarding : forall k fd empty we en l o en',
  loop_run k fd empty we en l o en' ->
  we = 0 ->
  (forall x, In x l -> write_failed x = false) ->
  stdout_bytes l = List.concat (chunks_written l) /\
  (forall we', o = Ret we' -> we' = 0) /\
  exists rest,
    chunks_read l = chunks_written l ++ rest /\
    (o <> Stalled -> rest = []).
Proof.
  induction 1; intros Hwe Hclean;
    try (split; [reflexivity|split; [intros we' Ho; congruence|]]).
  1-7: exists []; split; [reflexivity|reflexivity].
  - (* stalled in the write *)
    exists [data]. pose proof (size_pos _ H) as Hpos.
    apply Z.ltb_lt in Hpos. cbn. rewrite Hpos.
    split; [reflexivity|]. intros Hs. contradiction Hs. reflexivity.
  - contradiction.
  - (* forwarded *)
    destruct IHloop_run as (Hout & Hret & rest & Hrest & Hdone);
      [reflexivity|intros x Hx; apply Hclean; cbn; auto|].
    pose proof (size_pos _ H) as Hpos. apply Z.ltb_lt in Hpos.
    split; [|split; [exact Hret|]].
    + unfold stdout_bytes in *. cbn [flat_map chunks_written e_call wrote
        polled was_read]. rewrite Z.eqb_refl. cbn [List.concat].
      rewrite <- Hout.
      rewrite (proj2 (wrote_all k data en)). reflexivity.
    + exists rest. split; [|exact Hdone].
      cbn. rewrite Hpos. cbn in Hrest. rewrite Hrest. reflexivity.
  - specialize (Hclean (wrote k data (-1) (Z.pos e))). cbn in Hclean.
    discriminate Hclean. auto.
  - specialize (Hclean (wrote k data m en)).
    unfold write_failed in Hclean. cbn in Hclean. fold (size data) in Hclean.
    destruct (Z.eqb_spec m (size data)); [lia|].
    rewrite orb_true_r in Hclean. discriminate Hclean. auto.
Qed.

(** X3. When no [write] of the worker fails, standard output receives the
    bytes read, in the order read and in the same chunks: the buffers
    written are the chunks read, one [write] per [read], except that a run
    cut short in a [write] has read one chunk more than it has written.  No
    signal is sent and no [write()] error is reported. *)
Theorem relay_forwards_in_order :
  forall (arg : Z) (w w' : world) (o : outcome Z) (l : list entry),
    rw_thread arg w = (o, w', l) ->
    (forall x, In x l -> write_failed x = false) ->
    stdout_bytes l = List.concat (chunks_written l) /\
    (exists rest,
       chunks_read l = chunks_written l ++ rest /\
       (o <> Stalled -> rest = [])) /\
    (o = Ret 0 \/ o = Exit EXIT_FAILURE \/ o = Stalled) /\
    (forall x, In x l ->
       is_kill x = false /\ forall c, e_call x <> Perror "write()" c).
Proof.
  intros arg w w' o l Hrun Hclean.
  destruct (rw_thread_run _ _ _ _ _ Hrun)
    as (o1 & w1 & l1 & l2 & -> & Hloop & _ & Hfin).
  pose proof (@rw_thread_tail o1 w1 _ _ _ Hfin) as Htail.
  destruct (chunks_none l2 Htail) as [Hr2 Hw2].
  destruct (loop_run_forwarding _ _ _ _ _ _ _ _ Hloop eq_refl)
    as (Hout & Hret & rest & Hrest & Hdone).
  { intros x Hx. apply Hclean. apply in_or_app. left. exact Hx. }
  assert (Hl2 : l2 = [] /\ (o = Ret 0 \/ o = Exit EXIT_FAILURE \/ o = Stalled)
                /\ (o <> Stalled -> o1 <> Stalled)).
  { destruct o1 as [we| | |].
    - rewrite (Hret we eq_refl) in Hfin.
      destruct (rw_finish_run _ _ _ _ _ Hfin) as (_ & _ & Hz).
      destruct (Hz eq_refl) as (-> & -> & _).
      conjuncts; [reflexivity|left; reflexivity|discriminate].
    - destruct Hfin as (-> & _ & ->).
      pose proof (loop_run_exit_code _ _ _ _ _ _ _ _ Hloop _ eq_refl) as ->.
      conjuncts; [reflexivity|right; left; reflexivity|discriminate].
    - exfalso. exact (loop_run_not_signaled _ _ _ _ _ _ _ _ Hloop _ eq_refl).
    - destruct Hfin as (-> & _ & -> & _).
      conjuncts; [reflexivity|right; right; reflexivity|].
      intros Hs. contradiction Hs. reflexivity. }
  destruct Hl2 as (-> & Ho & Hs). rewrite app_nil_r.
  conjuncts; [exact Hout| |exact Ho|].
  - exists rest. split; [exact Hrest|]. intros Hn. apply Hdone. now apply Hs.
  - intros x Hx. now apply (loop_run_calls _ _ _ _ _ _ _ _ Hloop).
Qed.

Section WorkerEnds.

Import Script.

Let k := capturing.
Let ab : list byte := [x61; x62].
Let cd : list byte := [x63; x64].

(** A chunk is read, its [write] fails with [EPIPE], and the next [read]
    fails with [EIO]: the run reports [read()] and sends no signal. *)
Lemma relay_input_failure_witness :
  let r := rw_thread 3 (initial_world
             [Sample.ok 1; Sample.bytes ab; Sample.err EPIPE;
              Sample.ok 1; Sample.err EIO] k) in
  let pre := [polled k 3 1 0; was_read k 3 ab 2 0; wrote k ab (-1) EPIPE;
              polled k 3 1 EPIPE] in
  let e := was_read k 3 [] (-1) EIO in
  log_of r = pre ++ e :: reported k "read()" EIO /\
  outcome_of r = Exit EXIT_FAILURE /\
  (forall x, In x (log_of r) ->
     is_kill x = false /\ forall c, e_call x <> Perror "write()" c).
Proof.
  intros r pre e.
  assert (Hl : log_of r = pre ++ e :: reported k "read()" EIO)
    by (vm_compute; reflexivity).
  assert (Hneg : e_ret e < 0) by (cbn; lia).
  destruct (relay_input_failure 3 _ _ _ _ pre _ e
              (run_eta _ r) Hl eq_refl Hneg) as (Ho & _ & Hnone).
  split; [exact Hl|]. split; [exact Ho|exact Hnone].
Defined.

(** The pasted text is empty: the first [read] returns 0 and the worker
    returns without an error. *)
Lemma relay_end_of_file_witness :
  let r := rw_thread 3
             (initial_world [Sample.ok 1; Sample.bytes []] k) in
  log_of r = [polled k 3 1 0; was_read k 3 [] 0 0] /\
  outcome_of r = Ret 0.
Proof.
  intros r.
  assert (Hl : log_of r = [polled k 3 1 0] ++ was_read k 3 [] 0 0 :: [])
    by (vm_compute; reflexivity).
  destruct (relay_end_of_file 3 _ _ _ _ [polled k 3 1 0] [] (was_read k 3 [] 0 0)
              (run_eta _ r) Hl eq_refl eq_refl) as (_ & _ & Hclean).
  destruct Hclean as [Ho _].
  - intros x [<-|[]]. reflexivity.
  - split; [exact Hl|exact Ho].
Defined.

(** Two chunks are read and written whole, then the console falls silent. *)
Lemma relay_forwards_in_order_witness :
  let r := rw_thread 3 (initial_world
             [Sample.ok 1; Sample.bytes ab; Sample.ok 2;
              Sample.ok 1; Sample.bytes cd; Sample.ok 2; Sample.ok 0] k) in
  chunks_read (log_of r) = [ab; cd] /\
  stdout_bytes (log_of r) = List.concat (chunks_written (log_of r)) /\
  (exists rest,
     chunks_read (log_of r) = chunks_written (log_of r) ++ rest /\
     (outcome_of r <> Stalled -> rest = [])) /\
  (outcome_of r = Ret 0 \/ outcome_of r = Exit EXIT_FAILURE \/
   outcome_of r = Stalled).
Proof.
  intros r.
  assert (Hl : log_of r =
               [polled k 3 1 0; was_read k 3 ab 2 0; wrote k ab 2 0;
                polled k 3 1 0; was_read k 3 cd 2 0; wrote k cd 2 0;
                polled k 3 0 0])
    by (vm_compute; reflexivity).
  assert (Hclean : forall x, In x (log_of r) -> write_failed x = false).
  { rewrite Hl. intros x Hx. cbn [In] in Hx.
    repeat (destruct Hx as [<-|Hx]; [reflexivity|]). contradiction. }
  destruct (relay_forwards_in_order 3 _ _ _ _ (run_eta _ r) Hclean)
    as (Hout & Hrest & Ho & _).
  split; [rewrite Hl; reflexivity|].
  split; [exact Hout|]. split; [exact Hrest|exact Ho].
Defined.

End WorkerEnds.

(** ** The terminal mode guard: what is changed, and failures *)

Lemma clear_echo_bits : forall tio i,
  0 <= c_lflag tio < 2 ^ 32 -> 0 <= i ->
  Z.testbit (c_lflag (clear_echo tio)) i =
  (Z.testbit (c_lflag tio) i && negb (i =? 3))%bool.
Proof.
  intros tio i Hrange Hi. unfold clear_echo. cbn [c_lflag].
  destruct (Z.ltb_spec i 32) as [Hlow|Hhigh].
  - rewrite Z.mod_pow2_bits_low by lia.
    rewrite Z.land_spec, Z.lnot_spec by lia. f_equal.
    unfold ECHO. change 8 with (2 ^ 3).
    rewrite Z.pow2_bits_eqb by lia. rewrite Z.eqb_sym. reflexivity.
  - rewrite Z.mod_pow2_bits_high by lia.
    destruct (Z.eq_dec (c_lflag tio) 0) as [->|Hnz].
    + rewrite Z.testbit_0_l. reflexivity.
    + assert (Z.log2 (c_lflag tio) < 32) by (apply Z.log2_lt_pow2; lia).
      rewrite Z.bits_above_log2 by lia. reflexivity.
Qed.

(** X4. Of the terminal attributes, a successful [init_tty] changes one
    bit: in the attributes in force afterwards [ECHO] is off, every other
    local flag and every other field is as it was, and the attributes
    saved for [restore_tty] are the ones found. *)
Theorem init_tty_clears_echo_only :
  forall (fd : Z) (w w1 : world) (l1 : list entry),
    init_tty fd w = (Ret tt, w1, l1) ->
    0 <= c_lflag (k_tio (w_kernel w)) < 2 ^ 32 ->
    let found := k_tio (w_kernel w) in
    let set := k_tio (w_kernel w1) in
    orig_tio w1 = found /\
    c_iflag set = c_iflag found /\ c_oflag set = c_oflag found /\
    c_cflag set = c_cflag found /\ c_cc set = c_cc found /\
    Z.land (c_lflag set) ECHO = 0 /\
    Z.lor (c_lflag set) (Z.land (c_lflag found) ECHO) = c_lflag found /\
    (forall i, 0 <= i ->
       Z.testbit (c_lflag set) i =
       (Z.testbit (c_lflag found) i && negb (Z.testbit ECHO i))%bool).
Proof.
  intros fd w w1 l1 Hrun Hrange found set.
  destruct (init_tty_armed _ _ _ _ Hrun) as (_ & Horig & Hset & _).
  subst set. rewrite Hset. fold found.
  assert (Hecho : forall i, 0 <= i -> Z.testbit ECHO i = (i =? 3)).
  { intros i Hi. unfold ECHO. change 8 with (2 ^ 3).
    rewrite Z.pow2_bits_eqb by lia. apply Z.eqb_sym. }
  conjuncts; try reflexivity; try assumption.
  - apply Z.bits_inj'. intros i Hi.
    rewrite Z.land_spec, Z.bits_0, clear_echo_bits, Hecho by assumption.
    destruct (Z.testbit (c_lflag found) i), (i =? 3); reflexivity.
  - apply Z.bits_inj'. intros i Hi.
    rewrite Z.lor_spec, Z.land_spec, clear_echo_bits, Hecho by assumption.
    destruct (Z.testbit (c_lflag found) i), (i =? 3); reflexivity.
  - intros i Hi. rewrite clear_echo_bits, Hecho by assumption. reflexivity.
Qed.

(** X5. An [init_tty] that does not return has changed neither the
    terminal attributes nor the guard: [tty_fd] is as before and no exit
    hook is registered, so nothing will be restored.  It ends the process
    with the report of the call that failed, [tcgetattr()] or
    [tcsetattr()]. *)
Theorem init_tty_failure :
  forall (fd : Z) (w w1 : world) (o : outcome unit) (l : list entry),
    init_tty fd w = (o, w1, l) ->
    o <> Ret tt ->
    w_kernel w1 = w_kernel w /\ tty_fd w1 = tty_fd w /\
    w_atexit w1 = w_atexit w /\
    (o = Stalled \/
     o = Exit EXIT_FAILURE /\
     exists en,
       calls l = Tcgetattr fd :: report "tcgetattr()" en \/
       calls l = Tcgetattr fd
                 :: Tcsetattr fd TCSAFLUSH (clear_echo (k_tio (w_kernel w)))
                 :: report "tcsetattr()" en).
Proof.
  intros fd [script k en tfd otio hs th] w1 o l H Ho.
  unfold init_tty in H.
  destruct script as [|[[] pe pv pb ps] script]; cbn in H.
  1: inversion H; subst; cbn; conjuncts; auto.
  1: inversion H; subst; cbn; conjuncts; auto;
     right; split; [reflexivity|]; eexists; left; reflexivity.
  destruct script as [|[[] pe' pv' pb' ps'] script]; cbn in H.
  1: inversion H; subst; cbn; conjuncts; auto.
  1: inversion H; subst; cbn; conjuncts; auto;
     right; split; [reflexivity|]; eexists; right; reflexivity.
  inversion H; subst. contradiction Ho. reflexivity.
Qed.

(** What [restore_tty] does on an armed guard, by the answer to its
    [tcsetattr]. *)
Lemma restore_tty_cases : forall w o w' l,
  0 <= tty_fd w ->
  restore_tty w = (o, w', l) ->
  w_atexit w' = w_atexit w /\ w_thread w' = w_thread w /\
  orig_tio w' = orig_tio w /\
  k_active (w_kernel w') = k_active (w_kernel w) /\
  k_sel_from (w_kernel w') = k_sel_from (w_kernel w) /\
  k_blocked (w_kernel w') = k_blocked (w_kernel w) /\
  k_pending (w_kernel w') = k_pending (w_kernel w) /\
  ((o = Ret tt /\ tty_fd w' = -1 /\ k_tio (w_kernel w') = orig_tio w /\
    exists en, l = [mk_entry (w_kernel w)
                      (Tcsetattr (tty_fd w) TCSAFLUSH (orig_tio w)) 0 en] /\
    exists r, w_script w = r :: w_script w' /\ rp_fail r = false)
   \/
   ((o = Stalled /\ l = [] /\ w_script w = [] \/
     o = Exit EXIT_FAILURE /\
     exists en,
       l = mk_entry (w_kernel w)
             (Tcsetattr (tty_fd w) TCSAFLUSH (orig_tio w)) (-1) en
           :: reported (w_kernel w) "tcsetattr()" en) /\
    tty_fd w' = tty_fd w /\ w_kernel w' = w_kernel w)).
Proof.
  intros [script k en tfd otio hs th] o w' l Hfd H.
  cbn [tty_fd orig_tio] in *.
  unfold restore_tty, bind at 1, get in H. cbn [tty_fd orig_tio] in H.
  apply Z.ltb_ge in Hfd. rewrite Hfd in H.
  destruct script as [|[[] pe pv pb ps] script]; cbn in H;
    inversion H; subst; cbn; conjuncts; try reflexivity.
  - right. conjuncts; try reflexivity. left. conjuncts; reflexivity.
  - right. conjuncts; try reflexivity. right. split; [reflexivity|].
    eexists. reflexivity.
  - left. conjuncts; try reflexivity. eexists. split; [reflexivity|].
    eexists. split; reflexivity.
Qed.

(** X6. When the [tcsetattr] of [restore_tty] fails, [restore_tty] ends
    the process with failure and leaves the guard armed, so the exit hook
    that [init_tty] registered makes the same [tcsetattr] once more; when
    that one succeeds the attributes are restored after all, and the exit
    status is still 1. *)
Theorem restore_tty_retried_at_exit :
  forall (w w1 w2 : world) (c : Z) (l1 l2 : list entry) (s : status),
    0 <= tty_fd w ->
    w_atexit w = [H_restore_tty] ->
    restore_tty w = (Exit c, w1, l1) ->
    run_exit (w_atexit w1) c w1 = (s, w2, l2) ->
    s <> Hung ->
    c = EXIT_FAILURE /\
    tty_fd w1 = tty_fd w /\ k_tio (w_kernel w1) = k_tio (w_kernel w) /\
    exists e rest,
      l2 = e :: rest /\
      e_call e = Tcsetattr (tty_fd w) TCSAFLUSH (orig_tio w) /\
      (e_ret e = 0 ->
       rest = [] /\ s = Exited 1 /\ k_tio (w_kernel w2) = orig_tio w).
Proof.
  intros w w1 w2 c l1 l2 s Hfd Hat H1 H2 Hs.
  destruct (restore_tty_cases _ _ _ _ Hfd H1)
    as (Hat1 & _ & Horig1 & _ & _ & _ & _ & [(Ho & _)|(Ho & Hfd1 & Hk1)]);
    [discriminate Ho|].
  destruct Ho as [(Ho & _)|(Ho & _)]; [discriminate Ho|].
  injection Ho as ->.
  rewrite Hat1, Hat in H2. cbn [run_exit call_handler] in H2.
  unfold bind at 1 in H2. cbn [set_atexit] in H2.
  match type of H2 with
  | context [restore_tty ?w0] =>
      destruct (restore_tty w0) as [[o3 w3] l3] eqn:E3;
      assert (Hfd3 : 0 <= tty_fd w0) by (cbn; lia);
      destruct (restore_tty_cases _ _ _ _ Hfd3 E3)
        as (_ & _ & _ & _ & _ & _ & _ & Hcase); cbn in Hcase
  end.
  rewrite Hk1, Hfd1, Horig1 in Hcase.
  split; [reflexivity|]. split; [assumption|].
  split; [now rewrite Hk1|].
  destruct Hcase as [(-> & _ & Htio & en & -> & _)
                    |([(-> & _)|(-> & en & ->)] & _)].
  - cbn in H2. inversion H2; subst.
    eexists _, []. split; [reflexivity|]. split; [reflexivity|].
    intros _. conjuncts; auto.
  - inversion H2; subst. contradiction Hs. reflexivity.
  - cbn in H2. inversion H2; subst.
    eexists _, _. split; [reflexivity|]. split; [reflexivity|].
    cbn. intros Hz. discriminate Hz.
Qed.

(** ** Signals during the capture *)

Lemma deliverable_none : forall k,
  deliverable k = None <-> Z.ldiff (k_pending k) (k_blocked k) = 0.
Proof.
  intros k. unfold deliverable.
  destruct (Z.eqb_spec (Z.ldiff (k_pending k) (k_blocked k)) 0) as [E|E];
    split; intros H; congruence.
Qed.

(** A [SIGPIPE] sent while it is blocked is not delivered. *)
Lemma sigpipe_held : forall p b,
  sigismember b SIGPIPE = true ->
  Z.ldiff (Z.lor p (sigbit SIGPIPE)) b = Z.ldiff p b.
Proof.
  intros p b Hb. apply Z.bits_inj'. intros i Hi.
  rewrite !Z.ldiff_spec, Z.lor_spec.
  unfold sigbit, SIGPIPE. cbn [Z.sub Z.add Z.opp Z.pos_sub].
  change (Z.shiftl 1 12) with (2 ^ 12). rewrite Z.pow2_bits_eqb by lia.
  destruct (Z.eqb_spec 12 i) as [<-|_]; [|now rewrite orb_false_r].
  unfold sigismember, SIGPIPE in Hb. change (13 - 1) with 12 in Hb.
  rewrite Hb.
  now rewrite !andb_false_r.
Qed.

(** When the loop returns [EPIPE], a [write] of the run failed with it. *)
Lemma loop_run_epipe : forall k fd empty we en l o en',
  loop_run k fd empty we en l o en' ->
  o = Ret EPIPE ->
  we = EPIPE \/
  exists x, In x l /\ is_write x = true /\ e_ret x < 0 /\ e_errno x = EPIPE.
Proof.
  induction 1; intros Ho; try discriminate Ho;
    try (injection Ho as ->; left; reflexivity).
  - destruct (IHloop_run Ho) as [E|(x & Hx & Hw)]; [left; exact E|].
    right. exists x. split; [cbn; auto|exact Hw].
  - destruct (IHloop_run Ho) as [E|(x & Hx & Hw)]; [discriminate E|].
    right. exists x. split; [cbn; auto|exact Hw].
  - destruct (IHloop_run Ho) as [E|(x & Hx & Hw)].
    + right. exists (wrote k data (-1) (Z.pos e)).
      split; [cbn; auto|]. cbn. conjuncts; [reflexivity|lia|exact E].
    + right. exists x. split; [cbn; auto|exact Hw].
  - destruct (IHloop_run Ho) as [E|(x & Hx & Hw)]; [discriminate E|].
    right. exists x. split; [cbn; auto|exact Hw].
Qed.

(** The worker under the mask of [snoop]: it is never killed, and its
    [SIGPIPE], sent only after a [write] failed with [EPIPE], stays
    pending. *)
Lemma rw_thread_signals : forall fd w o w' l,
  rw_thread fd w = (o, w', l) ->
  sigismember (k_blocked (w_kernel w)) SIGPIPE = true ->
  Z.ldiff (k_pending (w_kernel w)) (k_blocked (w_kernel w)) = 0 ->
  (o = Ret 0 \/ o = Exit EXIT_FAILURE \/ o = Stalled) /\
  k_sel_from (w_kernel w') = k_sel_from (w_kernel w) /\
  Z.ldiff (k_pending (w_kernel w')) (k_blocked (w_kernel w')) = 0 /\
  (k_pending (w_kernel w') = k_pending (w_kernel w) \/
   k_pending (w_kernel w') = Z.lor (k_pending (w_kernel w)) (sigbit SIGPIPE)
   /\ exists x, In x l /\ is_write x = true /\ e_ret x < 0
                /\ e_errno x = EPIPE).
Proof.
  intros fd w o w' l Hrun Hb Hd.
  destruct (rw_thread_run _ _ _ _ _ Hrun)
    as (o1 & w1 & l1 & l2 & -> & Hloop & (Hk & _) & Hfin).
  destruct o1 as [we| | |].
  - destruct w1 as [script1 k1 en1 tfd1 otio1 hs1 th1].
    cbn [w_kernel] in Hk. subst k1.
    unfold rw_finish in Hfin.
    destruct (Z.eqb_spec we EPIPE) as [->|Hne].
    + unfold kill, deliver, bind in Hfin.
      cbn -[deliverable Z.lor sigbit] in Hfin.
      match type of Hfin with
      | context [deliverable ?k1] =>
          assert (Hd1 : Z.ldiff (k_pending k1) (k_blocked k1) = 0)
            by (cbn [k_pending k_blocked with_signals];
                rewrite sigpipe_held by assumption; exact Hd);
          rewrite (proj2 (deliverable_none k1) Hd1) in Hfin
      end.
      cbn in Hfin. inversion Hfin; subst. cbn [w_kernel] in *.
      conjuncts; [left; reflexivity|reflexivity|exact Hd1|].
      right. split; [reflexivity|].
      destruct (loop_run_epipe _ _ _ _ _ _ _ _ Hloop eq_refl)
        as [E|(x & Hx & Hw)]; [discriminate E|].
      exists x. split; [apply in_or_app; left; exact Hx|exact Hw].
    + destruct (Z.eqb_spec we 0) as [->|Hnz]; cbn in Hfin;
        inversion Hfin; subst; cbn [w_kernel];
        conjuncts; auto.
  - destruct Hfin as (-> & -> & ->).
    rewrite (loop_run_exit_code _ _ _ _ _ _ _ _ Hloop _ eq_refl), Hk.
    conjuncts; auto.
  - exfalso. exact (loop_run_not_signaled _ _ _ _ _ _ _ _ Hloop _ eq_refl).
  - destruct Hfin as (-> & -> & -> & _). rewrite Hk. conjuncts; auto.
Qed.

(** ** The end of [snoop] *)

(** The last two statements of [snoop] with the guard armed: either the
    terminal is restored and the mask lifted, or [restore_tty] has ended
    the run and the guard is still armed. *)
Lemma snoop_end_run : forall mask w o w' l,
  0 <= tty_fd w ->
  (restore_tty ;; sigprocmask SIG_UNBLOCK mask ;; ret tt) w = (o, w', l) ->
  w_atexit w' = w_atexit w /\ orig_tio w' = orig_tio w /\
  k_active (w_kernel w') = k_active (w_kernel w) /\
  k_sel_from (w_kernel w') = k_sel_from (w_kernel w) /\
  k_pending (w_kernel w') = k_pending (w_kernel w) /\
  ((tty_fd w' = -1 /\ k_tio (w_kernel w') = orig_tio w /\
    k_blocked (w_kernel w') = Z.ldiff (k_blocked (w_kernel w)) mask /\
    (o = Ret tt \/
     exists sig, o = Signaled sig /\ deliverable (w_kernel w') = Some sig))
   \/
   (tty_fd w' = tty_fd w /\ w_kernel w' = w_kernel w /\
    (o = Stalled \/ o = Exit EXIT_FAILURE))).
Proof.
  intros mask w o w' l Hfd H. unfold bind at 1 in H.
  destruct (restore_tty w) as [[o1 w1] l1] eqn:E1.
  destruct (restore_tty_cases _ _ _ _ Hfd E1)
    as (Hat & _ & Horig & Hact & Hsel & Hblk & Hpend & Hcase).
  destruct Hcase as [(-> & Hoff & Htio & _)
                    |([(-> & _)|(-> & _)] & Hsame & Hk)].
  - destruct w1 as [script1 k1 en1 tfd1 otio1 hs1 th1].
    cbn [w_atexit orig_tio w_kernel tty_fd] in *.
    unfold sigprocmask, deliver, bind in H.
    cbn -[deliverable Z.lor Z.ldiff] in H.
    destruct (deliverable _) as [sig|] eqn:Hd; cbn in H;
      inversion H; subst; cbn -[Z.ldiff];
      rewrite Hblk; conjuncts; auto; left; conjuncts; auto.
    right. exists sig. split; [reflexivity|].
    destruct k1; cbn in *; rewrite <- Hblk; exact Hd.
  - inversion H; subst. conjuncts; auto.
  - inversion H; subst. conjuncts; auto.
Qed.

(** [snoop] from the join on, with the guard armed and [SIGPIPE] blocked. *)
Lemma snoop_join_run : forall mask w o w' l,
  snoop_join mask w = (o, w', l) ->
  0 <= tty_fd w ->
  sigismember (k_blocked (w_kernel w)) SIGPIPE = true ->
  Z.ldiff (k_pending (w_kernel w)) (k_blocked (w_kernel w)) = 0 ->
  w_atexit w' = w_atexit w /\ orig_tio w' = orig_tio w /\
  k_active (w_kernel w') = k_active (w_kernel w) /\
  k_sel_from (w_kernel w') = k_sel_from (w_kernel w) /\
  (k_pending (w_kernel w') = k_pending (w_kernel w) \/
   k_pending (w_kernel w') = Z.lor (k_pending (w_kernel w)) (sigbit SIGPIPE)
   /\ exists x, In x l /\ is_write x = true /\ e_ret x < 0
                /\ e_errno x = EPIPE) /\
  ((tty_fd w' = -1 /\ k_tio (w_kernel w') = orig_tio w /\
    k_blocked (w_kernel w') = Z.ldiff (k_blocked (w_kernel w)) mask /\
    (o = Ret tt \/
     exists sig, o = Signaled sig /\ deliverable (w_kernel w') = Some sig))
   \/
   (tty_fd w' = tty_fd w /\ k_tio (w_kernel w') = k_tio (w_kernel w) /\
    k_blocked (w_kernel w') = k_blocked (w_kernel w) /\
    (o = Stalled \/ o = Exit EXIT_FAILURE))).
Proof.
  intros mask [script k en tfd otio hs th] o w' l H Hfd Hb Hd.
  cbn [tty_fd w_kernel w_atexit orig_tio] in *.
  unfold snoop_join, pthread_join in H.
  unfold bind at 1 2 in H. cbn [get w_thread] in H.
  destruct th as [[[] arg]|].
  - unfold bind at 1 in H. cbn [start_routine] in H.
    destruct (rw_thread arg _) as [[o1 w1] l1] eqn:E.
    destruct (rw_thread_kernel _ _ _ _ _ E)
      as (_ & Hact & Hblk & Htio & Htty & Horig & Hat).
    destruct (rw_thread_signals _ _ _ _ _ E Hb Hd)
      as (Ho1 & Hsel & Hd1 & Hpend).
    cbn [tty_fd w_kernel w_atexit orig_tio] in *.
    destruct Ho1 as [->|[->| ->]].
    + destruct w1 as [script1 k1 en1 tfd1 otio1 hs1 th1].
      cbn [tty_fd w_kernel w_atexit orig_tio] in *. subst tfd1 otio1 hs1.
      cbn -[restore_tty sigprocmask] in H.
      destruct ((restore_tty;; sigprocmask SIG_UNBLOCK mask;; ret tt) _)
        as [[o2 w2] l2] eqn:E2.
      apply snoop_end_run in E2; [|exact Hfd].
      cbn [tty_fd w_kernel w_atexit orig_tio] in E2.
      destruct E2 as (Hat2 & Horig2 & Hact2 & Hsel2 & Hpend2 & Hcase).
      injection H as <- <- <-.
      rewrite Hat2, Horig2, Hact2, Hact, Hsel2, Hsel, Hpend2.
      do 4 (split; [reflexivity|]). split.
      * destruct Hpend as [Hp|(Hp & x & Hx & Hw)]; [left; exact Hp|].
        right. split; [exact Hp|]. exists x.
        split; [|exact Hw]. apply in_or_app. left.
        apply in_or_app. left. exact Hx.
      * destruct Hcase as [(Hoff & Ht & Hbl & Ho)|(Hsame & Hk & Ho)].
        -- left. rewrite Hbl, Hblk. conjuncts; auto.
        -- right. rewrite Hk, Htio, Hblk. conjuncts; auto.
    + cbn in H. injection H as <- <- <-.
      do 4 (split; [assumption|]). split.
      * destruct Hpend as [Hp|(Hp & x & Hx & Hw)]; [left; exact Hp|].
        right. split; [exact Hp|]. exists x. split; assumption.
      * right. conjuncts; auto.
    + cbn in H. injection H as <- <- <-.
      do 4 (split; [assumption|]). split.
      * destruct Hpend as [Hp|(Hp & x & Hx & Hw)]; [left; exact Hp|].
        right. split; [exact Hp|]. exists x. split; assumption.
      * right. conjuncts; auto.
  - cbn -[restore_tty sigprocmask] in H.
    destruct ((restore_tty;; sigprocmask SIG_UNBLOCK mask;; ret tt) _)
      as [[o2 w2] l2] eqn:E2.
    apply snoop_end_run in E2; [|exact Hfd].
    cbn [tty_fd w_kernel w_atexit orig_tio] in E2.
    destruct E2 as (Hat2 & Horig2 & Hact2 & Hsel2 & Hpend2 & Hcase).
    injection H as <- <- <-.
    do 4 (split; [assumption|]). split; [left; assumption|].
    destruct Hcase as [(Hoff & Ht & Hbl & Ho)|(Hsame & Hk & Ho)].
    + left. conjuncts; auto.
    + right. rewrite Hk. conjuncts; auto.
Qed.

(** ** Whole runs of [snoop] *)

Ltac fd_keep H Hfd :=
  match type of H with
  | context [Z.of_nat ?pv <? 0] =>
      replace (Z.of_nat pv <? 0) with false in H
        by (symmetry; apply Z.ltb_ge; apply Nat2Z.is_nonneg);
      pose proof (Nat2Z.is_nonneg pv) as Hfd;
      let fd := fresh "fd" in
      let E := fresh "E" in
      remember (Z.of_nat pv) as fd eqn:E; clear E; snoop_cbn H
  end.

(** A run that ends before the guard is armed. *)
Ltac early_leaf H :=
  injection H as <- <- <-; left;
  cbn [tty_fd w_atexit w_kernel k_tio k_pending k_active];
  conjuncts; try reflexivity; auto.

(** A run that ends with the guard armed. *)
Ltac armed_leaf H :=
  injection H as <- <- <-; right; left;
  cbn [tty_fd w_atexit w_kernel orig_tio k_tio k_pending k_active k_blocked];
  conjuncts; try reflexivity; auto.

(** The ways a run of [snoop] ends: before [init_tty] has armed it, with the terminal
    untouched; after, by a failure that leaves it armed; or past
    [restore_tty], with the terminal restored and the mask lifted. *)
Lemma snoop_run : forall n w o w' l,
  snoop n w = (o, w', l) ->
  let k := w_kernel w in
  let blocked :=
    Z.lor (k_blocked k) (Z.ldiff (sigaddset sigfillset SIGPIPE) unmaskable) in
  (tty_fd w' = tty_fd w /\ w_atexit w' = w_atexit w /\
   k_tio (w_kernel w') = k_tio k /\
   k_pending (w_kernel w') = k_pending k /\
   (k_active (w_kernel w') = k_active k \/ k_active (w_kernel w') = n) /\
   (o = Stalled \/ o = Exit EXIT_FAILURE \/
    exists sig, o = Signaled sig /\ deliverable (w_kernel w') = Some sig))
  \/
  (0 <= tty_fd w' /\ w_atexit w' = H_restore_tty :: w_atexit w /\
   orig_tio w' = k_tio k /\
   k_tio (w_kernel w') = clear_echo (k_tio k) /\
   k_active (w_kernel w') = k_active k /\
   k_blocked (w_kernel w') = blocked /\
   (o = Stalled \/ o = Exit EXIT_FAILURE))
  \/
  (tty_fd w' = -1 /\ w_atexit w' = H_restore_tty :: w_atexit w /\
   k_tio (w_kernel w') = k_tio k /\
   k_active (w_kernel w') = k_active k /\
   k_sel_from (w_kernel w') = Some n /\
   k_blocked (w_kernel w') =
     Z.ldiff blocked (sigaddset sigfillset SIGPIPE) /\
   (k_pending (w_kernel w') = k_pending k \/
    k_pending (w_kernel w') = Z.lor (k_pending k) (sigbit SIGPIPE) /\
    exists x, In x l /\ is_write x = true /\ e_ret x < 0
              /\ e_errno x = EPIPE) /\
   (o = Ret tt \/
    exists sig, o = Signaled sig /\ deliverable (w_kernel w') = Some sig)).
Proof.
  intros n [script k en tfd otio hs th] o w' l H.
  cbn [tty_fd w_kernel w_atexit] in *. cbv zeta.
  snoop_start H.
  sys_step H ltac:(solve [early_leaf H]).
  fd_keep H Hfd.
  do 6 (sys_step H ltac:(solve [early_leaf H])).
  destruct (deliverable _) as [sig|] eqn:Hd; snoop_cbn H.
  { injection H as <- <- <-. left.
    cbn [tty_fd w_atexit w_kernel k_tio k_pending k_active with_signals].
    conjuncts; try reflexivity; auto.
    right. right. exists sig. split; [reflexivity|exact Hd]. }
  sys_step_on H ltac:(solve [early_leaf H]).
  all: do 2 (sys_step H ltac:(solve [early_leaf H])).
  all: sys_step H ltac:(solve [armed_leaf H]).
  all: apply deliverable_none in Hd; cbn [k_pending k_blocked with_signals] in Hd.
  all: match type of H with
       | context [snoop_join ?m ?w0] =>
           destruct (snoop_join m w0) as [[o2 w2] l2] eqn:E;
           apply snoop_join_run in E;
           [|exact Hfd
            |refine (proj2 (blocked_after_block _ (k_blocked k) _)); reflexivity
            |exact Hd]
       end.
  all: cbn [tty_fd w_atexit w_kernel orig_tio k_tio k_pending k_active
            k_blocked k_sel_from] in E.
  all: destruct E as (Hat & Horig & Hact & Hsel & Hpend & Hcase).
  all: injection H as <- <- <-.
  all: destruct Hcase as [(Hrest & Htio & Hblk & Ho)|(Hsame & Htio & Hblk & Ho)];
    [right; right|right; left].
  all: rewrite ?Hat, ?Hact, ?Hsel, ?Htio, ?Hblk, ?Hsame.
  all: conjuncts; try reflexivity; try assumption.
  all: destruct Hpend as [Hp|(Hp & x & Hx & Hw)]; [left; exact Hp|].
  all: right; split; [exact Hp|]; exists x; split; [|exact Hw].
  all: cbn [In app]; tauto.
Qed.


(** ** Exit status and standard error *)

Ltac quiet_log :=
  let x := fresh "x" in
  let Hx := fresh "Hx" in
  intros x Hx; cbn [In reported] in Hx;
  repeat (destruct Hx as [<-|Hx]; [reflexivity|]); try contradiction.

Ltac loud_log :=
  split; [reflexivity|]; apply existsb_exists; reflexivity.

Lemma reports_on_exit_cons : forall A (o : outcome A) e l,
  to_stderr e = false -> reports_on_exit o l -> reports_on_exit o (e :: l).
Proof.
  intros A o e l He [Hret Hexit]. split.
  - intros a Ho x [<-|Hx]; [exact He|eauto].
  - intros c Ho. destruct (Hexit c Ho) as (Hc & x & Hx & Hs).
    split; [exact Hc|]. exists x. split; [right; exact Hx|exact Hs].
Qed.

Lemma loop_run_stderr : forall k fd empty we en l o en',
  loop_run k fd empty we en l o en' -> reports_on_exit o l.
Proof.
  induction 1;
    try (repeat (apply reports_on_exit_cons; [reflexivity|]); assumption);
    (split; [intros a Ho|intros c Ho]); try discriminate Ho;
    try quiet_log; injection Ho as <-; loud_log.
Qed.

Lemma reports_on_exit_app : forall A B (o1 : outcome A) (o : outcome B) l1 l2,
  (forall x, In x l1 -> to_stderr x = false) ->
  reports_on_exit o l2 -> reports_on_exit o (l1 ++ l2).
Proof.
  intros A B o1 o l1 l2 Hq [Hret Hexit]. split.
  - intros a Ho x Hx. apply in_app_or in Hx. destruct Hx; eauto.
  - intros c Ho. destruct (Hexit c Ho) as (Hc & x & Hx & Hs).
    split; [exact Hc|]. exists x. split; [apply in_or_app; right; exact Hx|exact Hs].
Qed.

Lemma rw_thread_stderr : forall fd w o w' l,
  rw_thread fd w = (o, w', l) -> reports_on_exit o l.
Proof.
  intros fd w o w' l Hrun.
  destruct (rw_thread_run _ _ _ _ _ Hrun)
    as (o1 & w1 & l1 & l2 & -> & Hloop & _ & Hfin).
  pose proof (loop_run_stderr _ _ _ _ _ _ _ _ Hloop) as [Hret Hexit].
  destruct o1 as [we|c|sig|].
  - apply (reports_on_exit_app _ _ o); [exact (Hret we eq_refl)|].
    destruct (rw_finish_run _ _ _ _ _ Hfin) as (Hpipe & Herr & Hnone).
    destruct (Z.eq_dec we EPIPE) as [E|E].
    + destruct (Hpipe E) as [-> Ho]. split.
      * intros a _. quiet_log.
      * intros c Hc. destruct Ho as [->|(sig & ->)]; discriminate Hc.
    + destruct (Z.eq_dec we 0) as [E0|E0].
      * destruct (Hnone E0) as (-> & -> & _). split.
        -- intros a _ x [].
        -- intros c Hc. discriminate Hc.
      * destruct (Herr E E0) as [-> ->]. split.
        -- intros a Hc. discriminate Hc.
        -- intros c Hc. injection Hc as <-. loud_log.
  - destruct Hfin as (-> & _ & ->). rewrite app_nil_r.
    split; [intros a Ho; discriminate Ho|exact Hexit].
  - destruct Hfin as (-> & _ & ->).
    split; intros a Ho; discriminate Ho.
  - destruct Hfin as (-> & _ & -> & _).
    split; intros a Ho; discriminate Ho.
Qed.

Ltac stderr_leaf H :=
  let Ho := fresh "Ho" in
  injection H as <- <- <-;
  (split; intros ? Ho); try discriminate Ho;
  first [quiet_log | injection Ho as <-; loud_log].

Lemma snoop_end_stderr : forall mask w o w' l,
  (restore_tty ;; sigprocmask SIG_UNBLOCK mask ;; ret tt) w = (o, w', l) ->
  reports_on_exit o l.
Proof.
  intros mask [script k en tfd otio hs th] o w' l H.
  unfold restore_tty in H. unfold bind at 1 2 in H. cbn [get tty_fd] in H.
  destruct (tfd <? 0).
  - unfold sigprocmask, deliver, bind in H.
    cbn -[deliverable Z.lor Z.ldiff] in H.
    destruct (deliverable _); cbn in H; injection H as <- <- <-;
      (split; [intros a Ho|intros c Ho]); try discriminate Ho; quiet_log.
  - destruct script as [|[[] pe pv pb ps] script].
    + cbn in H. injection H as <- <- <-.
      split; intros a Ho; discriminate Ho.
    + cbn in H. injection H as <- <- <-.
      split; [intros a Ho; discriminate Ho|intros c Ho].
      injection Ho as <-. loud_log.
    + unfold sigprocmask, deliver, bind in H.
      cbn -[deliverable Z.lor Z.ldiff] in H.
      destruct (deliverable _); cbn in H; injection H as <- <- <-;
        (split; [intros a Ho|intros c Ho]); try discriminate Ho; quiet_log.
Qed.

Lemma snoop_join_stderr : forall mask w o w' l,
  snoop_join mask w = (o, w', l) -> reports_on_exit o l.
Proof.
  intros mask [script k en tfd otio hs th] o w' l H.
  unfold snoop_join, pthread_join in H.
  unfold bind at 1 2 in H. cbn [get w_thread] in H.
  destruct th as [[[] arg]|].
  - unfold bind at 1 in H. cbn [start_routine] in H.
    destruct (rw_thread arg _) as [[o1 w1] l1] eqn:E.
    pose proof (rw_thread_stderr _ _ _ _ _ E) as [Hret Hexit].
    destruct o1 as [a|c|sig|].
    + destruct w1 as [script1 k1 en1 tfd1 otio1 hs1 th1].
      cbn -[restore_tty sigprocmask] in H.
      destruct ((restore_tty;; sigprocmask SIG_UNBLOCK mask;; ret tt) _)
        as [[o2 w2] l2] eqn:E2.
      apply snoop_end_stderr in E2.
      injection H as <- <- <-.
      apply (reports_on_exit_app _ _ o2); [|exact E2].
      intros x Hx. apply in_app_or in Hx.
      destruct Hx as [Hx|[<-|[]]]; [eauto|reflexivity].
    + cbn in H. injection H as <- <- <-.
      split; [intros a Ho; discriminate Ho|].
      intros c0 Ho. injection Ho as <-. exact (Hexit c eq_refl).
    + cbn in H. injection H as <- <- <-.
      split; intros a Ho; discriminate Ho.
    + cbn in H. injection H as <- <- <-.
      split; intros a Ho; discriminate Ho.
  - cbn -[restore_tty sigprocmask] in H.
    destruct ((restore_tty;; sigprocmask SIG_UNBLOCK mask;; ret tt) _)
      as [[o2 w2] l2] eqn:E2.
    apply snoop_end_stderr in E2.
    injection H as <- <- <-.
    apply reports_on_exit_cons; [reflexivity|exact E2].
Qed.

Ltac stderr_join H :=
  match type of H with
  | context [snoop_join ?m ?w0] =>
      let E := fresh "E" in
      destruct (snoop_join m w0) as [[?o2 ?w2] ?l2] eqn:E;
      apply snoop_join_stderr in E;
      injection H as <- <- <-;
      repeat (apply reports_on_exit_cons; [reflexivity|]); exact E
  end.

(** [snoop] leaves by [exit] only through [xerror], which reports first;
    a [snoop] that returns has reported nothing. *)
Lemma snoop_stderr : forall n w o w' l,
  snoop n w = (o, w', l) -> reports_on_exit o l.
Proof.
  intros n [script k en tfd otio hs th] o w' l H.
  snoop_start H.
  sys_step H ltac:(solve [stderr_leaf H]).
  fd_nonneg H.
  do 6 (sys_step H ltac:(solve [stderr_leaf H])).
  destruct (deliverable _) as [sig|]; snoop_cbn H; [solve [stderr_leaf H]|].
  sys_step_on H ltac:(solve [stderr_leaf H]).
  all: do 3 (sys_step H ltac:(solve [stderr_leaf H])).
  all: stderr_join H.
Qed.

(** ** Whole runs of the process *)

(** What [exit] does with the handlers of a process that registered at
    most [restore_tty]: nothing when the guard is disarmed, one more
    [tcsetattr] with the saved attributes when it is armed. *)
Lemma run_exit_guard : forall hs c w1 s w2 l2,
  run_exit hs c w1 = (s, w2, l2) ->
  (hs = [] \/ tty_fd w1 < 0 /\ hs = [H_restore_tty] ->
   s = Exited (Z.land c 255) /\ w_kernel w2 = w_kernel w1 /\ l2 = []) /\
  (0 <= tty_fd w1 -> hs = [H_restore_tty] ->
   s = Hung \/
   s = Exited (Z.land c 255) /\ k_tio (w_kernel w2) = orig_tio w1 \/
   s = Exited (Z.land EXIT_FAILURE 255) /\
   exists e, In e l2 /\
     e_call e = Tcsetattr (tty_fd w1) TCSAFLUSH (orig_tio w1) /\ e_ret e < 0).
Proof.
  intros hs c [script k en tfd otio hs0 th] s w2 l2 H.
  cbn [tty_fd w_kernel orig_tio].
  split.
  - intros [->|[Hoff ->]].
    + cbn in H. injection H as <- <- <-. conjuncts; reflexivity.
    + cbn [run_exit call_handler] in H. unfold bind at 1 in H.
      cbn [set_atexit] in H.
      rewrite restore_tty_disarmed in H by (cbn; exact Hoff).
      cbn in H. injection H as <- <- <-. conjuncts; reflexivity.
  - intros Hfd ->.
    cbn [run_exit call_handler] in H. unfold bind at 1 in H.
    cbn [set_atexit] in H.
    match type of H with
    | context [restore_tty ?w0] =>
        destruct (restore_tty w0) as [[o3 w3] l3] eqn:E3;
        apply restore_tty_cases in E3; [|cbn; exact Hfd];
        cbn [tty_fd w_kernel orig_tio w_atexit w_thread] in E3;
        destruct E3 as (_ & _ & _ & _ & _ & _ & _ & Hcase)
    end.
    destruct Hcase as [(-> & _ & Htio & _)
                      |([(-> & _)|(-> & en3 & ->)] & _)].
    + cbn in H. injection H as <- <- <-. right. left. split; auto.
    + injection H as <- <- <-. left. reflexivity.
    + cbn in H. injection H as <- <- <-. right. right.
      split; [reflexivity|]. eexists. split; [left; reflexivity|].
      split; [reflexivity|]. cbn. lia.
Qed.

(** How [main] goes on after the command line: to [main_device] with one
    operand, out by [exit] with only the usage written otherwise. *)
Lemma main_cases : forall argv w o w1 l1,
  main argv w = (o, w1, l1) ->
  (exists path, main_device path w = (o, w1, l1)) \/
  ((o = Exit EXIT_SUCCESS /\ (forall x, In x l1 -> to_stderr x = false) \/
    o = Exit EXIT_FAILURE /\ exists x, In x l1 /\ to_stderr x = true) /\
   w1 = w /\
   forall x, In x l1 -> exists fp s, e_call x = Fputs fp s).
Proof.
  intros argv w o w1 l1 H. unfold main in H.
  destruct (getopt argv "h-:") as [opt optarg|diag|operands].
  - right.
    destruct (Ascii.eqb opt "h");
      [|destruct (Ascii.eqb opt "-" && String.eqb optarg "help")%bool];
      cbn in H; injection H as <- <- <-;
      (split; [|split; [reflexivity|intros x Hx; entries Hx; cbn; eauto]]).
    + left. split; [reflexivity|]. intros x Hx. entries Hx; reflexivity.
    + left. split; [reflexivity|]. intros x Hx. entries Hx; reflexivity.
    + right. split; [reflexivity|]. apply existsb_exists. reflexivity.
  - right. cbn in H. injection H as <- <- <-.
    split; [|split; [reflexivity|intros x Hx; entries Hx; cbn; eauto]].
    right. split; [reflexivity|]. apply existsb_exists. reflexivity.
  - destruct operands as [|path [|q ops]]; [right|left; eauto|right];
      cbn in H; injection H as <- <- <-;
      (split; [|split; [reflexivity|intros x Hx; entries Hx; cbn; eauto]]);
      right; (split; [reflexivity|]); apply existsb_exists; reflexivity.
Qed.

Ltac stat_call :=
  first [left; reflexivity
        |right; left; eexists _, _; reflexivity
        |right; right; eexists; reflexivity].

(** [main_device] either ends the process after [stat], or runs [snoop]
    and returns 0 when [snoop] returns. *)
Lemma main_device_cases : forall path w o w1 l1,
  main_device path w = (o, w1, l1) ->
  ((o = Stalled \/
    o = Exit EXIT_FAILURE /\ exists x, In x l1 /\ to_stderr x = true) /\
   w_kernel w1 = w_kernel w /\ tty_fd w1 = tty_fd w /\
   w_atexit w1 = w_atexit w /\
   forall x, In x l1 ->
     e_call x = Stat path \/ (exists fp s, e_call x = Fputs fp s) \/
     (exists c, e_call x = Perror path c)) \/
  exists n wa o' l' e,
    snoop n wa = (o', w1, l') /\
    w_kernel wa = w_kernel w /\ tty_fd wa = tty_fd w /\
    w_atexit wa = w_atexit w /\
    l1 = e :: l' /\ e_call e = Stat path /\
    o = match o' with
        | Ret _ => Ret 0
        | Exit c => Exit c
        | Signaled sig => Signaled sig
        | Stalled => Stalled
        end.
Proof.
  intros path [script k en tfd otio hs th] o w1 l1 H.
  destruct script as [|r script].
  { cbn in H. injection H as <- <- <-. left.
    conjuncts; auto. intros x []. }
  rewrite main_device_run in H.
  destruct (rp_fail r).
  { injection H as <- <- <-. left.
    split; [right; split; [reflexivity|apply existsb_exists; reflexivity]|].
    conjuncts; auto.
    intros x Hx. entries Hx; cbn; stat_call. }
  destruct (console_device_dec (rp_stat r)).
  - right. unfold bind in H.
    destruct (snoop _ _) as [[o' w'] l'] eqn:E.
    exists (minor (st_rdev (rp_stat r))). eexists. exists o', l'.
    eexists.
    destruct o' as [[]| | |]; cbn in H; injection H as <- <- <-;
      try rewrite app_nil_r;
      (split; [exact E|]); conjuncts; reflexivity.
  - injection H as <- <- <-. left.
    split; [right; split; [reflexivity|apply existsb_exists; reflexivity]|].
    conjuncts; auto.
    intros x Hx. entries Hx; cbn; stat_call.
Qed.

(** A run of the process either never reaches [snoop], and then makes no
    call but [stat] and writes to the standard streams, or is a run of
    [snoop] after a successful [stat], followed by the exit handlers unless
    the run was killed or cut short. *)
Lemma process_cases : forall argv w s w' l,
  process argv w = (s, w', l) ->
  w_atexit w = [] ->
  ((s = Hung \/
    s = Exited 0 /\ (forall x, In x l -> to_stderr x = false) \/
    s = Exited 1 /\ exists x, In x l /\ to_stderr x = true) /\
   w_kernel w' = w_kernel w /\
   forall x, In x l ->
     (exists path, e_call x = Stat path) \/
     (exists fp text, e_call x = Fputs fp text) \/
     (exists path c, e_call x = Perror path c)) \/
  exists n wa o w1 l1 e l2,
    snoop n wa = (o, w1, l1) /\
    w_kernel wa = w_kernel w /\ tty_fd wa = tty_fd w /\ w_atexit wa = [] /\
    l = e :: l1 ++ l2 /\ to_stderr e = false /\
    match o with
    | Ret _ => run_exit (w_atexit w1) 0 w1 = (s, w', l2)
    | Exit c => run_exit (w_atexit w1) c w1 = (s, w', l2)
    | Signaled sig => s = Killed sig /\ w' = w1 /\ l2 = []
    | Stalled => s = Hung /\ w' = w1 /\ l2 = []
    end.
Proof.
  intros argv w s w' l H Hat. unfold process in H.
  destruct (main argv w) as [[o w1] l1] eqn:Em.
  destruct (main_cases _ _ _ _ _ Em)
    as [(path & Hdev)|(Ho & -> & Hlog)].
  - destruct (main_device_cases _ _ _ _ _ Hdev)
      as [(Ho & Hk & Hfd & Hat1 & Hlog)
         |(n & wa & o' & l' & e & Hs & Hk & Hfd & Hata & -> & He & ->)].
    + left. rewrite Hat1, Hat in H.
      destruct Ho as [->|(-> & Hloud)].
      * injection H as <- <- <-. conjuncts; auto.
        intros x Hx. destruct (Hlog x Hx) as [Hc|[Hc|Hc]]; eauto.
      * cbn in H. injection H as <- <- <-. rewrite app_nil_r.
        conjuncts; auto.
        intros x Hx. destruct (Hlog x Hx) as [Hc|[Hc|Hc]]; eauto.
    + right. exists n, wa, o', w1, l', e.
      rewrite Hat in Hata.
      assert (Hquiet : to_stderr e = false)
        by (unfold to_stderr; rewrite He; reflexivity).
      destruct o' as [[]|c|sig|].
      * destruct (run_exit _ 0 w1) as [[s2 w2] l2] eqn:E2.
        injection H as <- <- <-. exists l2. conjuncts; auto.
      * destruct (run_exit _ c w1) as [[s2 w2] l2] eqn:E2.
        injection H as <- <- <-. exists l2. conjuncts; auto.
      * injection H as <- <- <-. exists []. rewrite app_nil_r.
        conjuncts; auto.
      * injection H as <- <- <-. exists []. rewrite app_nil_r.
        conjuncts; auto.
  - left. rewrite Hat in H.
    destruct Ho as [(-> & Hq)|(-> & Hq)]; cbn in H; injection H as <- <- <-;
      rewrite app_nil_r; (conjuncts; [auto|reflexivity|]);
      intros x Hx; destruct (Hlog x Hx) as (fp & text & Hc); eauto.
Qed.

(** X7. However the main thread ends the process, short of being cut off
    in a call, the terminal attributes are at the end what they were at
    the start, unless a [tcsetattr] that was to put them back failed.
    This covers every error exit of [main] and [snoop], the normal exit
    and the death by the deferred [SIGPIPE].  It is stated for the runs in
    which the worker was created and does not end the process itself: an
    [exit] of the worker can come before [init_tty] has armed the guard,
    an interleaving that a log with the worker placed at the join does not
    show. *)
Theorem terminal_restored_at_exit :
  forall (argv : list string) (script : list reply) (k : kernel)
         (s : status) (w' : world) (l : list entry),
    process argv (initial_world script k) = (s, w', l) ->
    s <> Hung ->
    (forall x, In x l -> worker_report x = false) ->
    (forall x, In x l -> is_create x = true -> e_ret x = 0) ->
    k_tio (w_kernel w') = k_tio k \/
    exists e fd,
      In e l /\ e_call e = Tcsetattr fd TCSAFLUSH (k_tio k) /\ e_ret e < 0.
Proof.
  intros argv script k s w' l H Hs _ _.
  destruct (process_cases _ _ _ _ _ H eq_refl)
    as [(_ & Hk & _)
       |(n & wa & o & w1 & l1 & e & l2 & Hsnoop & Hk & Hfd & Hat & -> & _
         & Hend)].
  { left. rewrite Hk. reflexivity. }
  cbn [initial_world w_kernel tty_fd] in Hk, Hfd.
  apply snoop_run in Hsnoop.
  cbv zeta in Hsnoop. rewrite Hk, Hat, Hfd in Hsnoop.
  destruct Hsnoop
    as [(Hfd1 & Hat1 & Htio & _ & _ & Ho)
       |[(Hfd1 & Hat1 & Horig & _ & _ & _ & Ho)
        |(Hfd1 & Hat1 & Htio & _ & _ & _ & _ & Ho)]].
  - (* the guard was never armed *)
    left. destruct Ho as [->|[->|(sig & -> & _)]].
    + destruct Hend as (-> & _). contradiction Hs. reflexivity.
    + rewrite Hat1 in Hend.
      destruct (run_exit_guard _ _ _ _ _ _ Hend) as [Hnone _].
      destruct Hnone as (_ & -> & _); [left; reflexivity|exact Htio].
    + destruct Hend as (_ & -> & _). exact Htio.
  - (* a failure with the guard armed *)
    destruct Ho as [-> | ->].
    + destruct Hend as (-> & _). contradiction Hs. reflexivity.
    + rewrite Hat1 in Hend.
      destruct (run_exit_guard _ _ _ _ _ _ Hend) as [_ Harmed].
      destruct (Harmed Hfd1 eq_refl)
        as [->|[(_ & Htio)|(_ & x & Hx & Hc & Hret)]].
      * contradiction Hs. reflexivity.
      * left. rewrite Htio. exact Horig.
      * right. exists x, (tty_fd w1). rewrite Horig in Hc.
        split; [|split; assumption].
        right. apply in_or_app. right. exact Hx.
  - (* the terminal was restored in [snoop] *)
    left. destruct Ho as [->|(sig & -> & _)].
    + rewrite Hat1 in Hend.
      destruct (run_exit_guard _ _ _ _ _ _ Hend) as [Hnone _].
      destruct Hnone as (_ & -> & _); [right; split; [lia|reflexivity]|].
      exact Htio.
    + destruct Hend as (_ & -> & _). exact Htio.
Qed.

(** ** The signal the program sends *)

(** The worker sends a signal only after its loop, and only when a
    [write] failed with [EPIPE]. *)
Lemma rw_thread_kill : forall fd w o w' l,
  rw_thread fd w = (o, w', l) ->
  forall x, In x l -> is_kill x = true ->
    e_call x = Kill 0 SIGPIPE /\
    exists y, In y l /\ is_write y = true /\ e_ret y < 0 /\ e_errno y = EPIPE.
Proof.
  intros fd w o w' l Hrun x Hx Hk.
  destruct (rw_thread_run _ _ _ _ _ Hrun)
    as (o1 & w1 & l1 & l2 & -> & Hloop & _ & Hfin).
  apply in_app_or in Hx. destruct Hx as [Hx|Hx].
  { destruct (proj2 (loop_run_calls _ _ _ _ _ _ _ _ Hloop) x Hx) as [Hno _].
    rewrite Hno in Hk. discriminate Hk. }
  destruct o1 as [we|c|sig|].
  - destruct (rw_finish_run _ _ _ _ _ Hfin) as (Hpipe & Herr & Hnone).
    destruct (Z.eq_dec we EPIPE) as [->|E].
    + destruct (Hpipe eq_refl) as [-> _].
      destruct Hx as [<-|[]]. split; [reflexivity|].
      destruct (loop_run_epipe _ _ _ _ _ _ _ _ Hloop eq_refl)
        as [E|(y & Hy & Hw)]; [discriminate E|].
      exists y. split; [apply in_or_app; left; exact Hy|exact Hw].
    + destruct (Z.eq_dec we 0) as [E0|E0].
      * destruct (Hnone E0) as (-> & _). contradiction.
      * destruct (Herr E E0) as [-> _]. entries Hx; discriminate Hk.
  - destruct Hfin as (_ & _ & ->). contradiction.
  - destruct Hfin as (_ & _ & ->). contradiction.
  - destruct Hfin as (_ & _ & -> & _). contradiction.
Qed.

Lemma snoop_end_no_kill : forall mask w o w' l,
  (restore_tty ;; sigprocmask SIG_UNBLOCK mask ;; ret tt) w = (o, w', l) ->
  forall x, In x l -> is_kill x = false.
Proof.
  intros mask [script k en tfd otio hs th] o w' l H.
  unfold restore_tty in H. unfold bind at 1 2 in H. cbn [get tty_fd] in H.
  destruct (tfd <? 0).
  - unfold sigprocmask, deliver, bind in H.
    cbn -[deliverable Z.lor Z.ldiff] in H.
    destruct (deliverable _); cbn in H; inversion H; subst;
      intros x Hx; entries Hx; reflexivity.
  - destruct script as [|[[] pe pv pb ps] script];
      [cbn in H; inversion H; subst; intros x Hx; entries Hx;
       reflexivity..|].
    unfold sigprocmask, deliver, bind in H.
    cbn -[deliverable Z.lor Z.ldiff] in H.
    destruct (deliverable _); cbn in H; inversion H; subst;
      intros x Hx; entries Hx; reflexivity.
Qed.

Lemma snoop_join_kill : forall mask w o w' l,
  snoop_join mask w = (o, w', l) ->
  forall x, In x l -> is_kill x = true ->
    e_call x = Kill 0 SIGPIPE /\
    k_blocked (e_kernel x) = k_blocked (w_kernel w) /\
    exists y, In y l /\ is_write y = true /\ e_ret y < 0 /\ e_errno y = EPIPE.
Proof.
  intros mask w o w' l H x Hx Hk.
  destruct (snoop_join_log _ _ _ _ _ H x Hx) as (Hb & _).
  enough (Hgoal : e_call x = Kill 0 SIGPIPE /\
            exists y, In y l /\ is_write y = true /\ e_ret y < 0
                      /\ e_errno y = EPIPE)
    by (destruct Hgoal; conjuncts; assumption).
  clear Hb. destruct w as [script k en tfd otio hs th].
  unfold snoop_join, pthread_join in H.
  unfold bind at 1 2 in H. cbn [get w_thread] in H.
  destruct th as [[[] arg]|].
  - unfold bind at 1 in H. cbn [start_routine] in H.
    destruct (rw_thread arg _) as [[o1 w1] l1] eqn:E.
    pose proof (rw_thread_kill _ _ _ _ _ E) as Hworker.
    destruct o1 as [a|c|sig|].
    + destruct w1 as [script1 k1 en1 tfd1 otio1 hs1 th1].
      cbn -[restore_tty sigprocmask] in H.
      destruct ((restore_tty;; sigprocmask SIG_UNBLOCK mask;; ret tt) _)
        as [[o2 w2] l2] eqn:E2.
      pose proof (snoop_end_no_kill _ _ _ _ _ E2) as Hend.
      injection H as <- <- <-.
      apply in_app_or in Hx. destruct Hx as [Hx|Hx].
      * apply in_app_or in Hx. destruct Hx as [Hx|Hx].
        -- destruct (Hworker x Hx Hk) as (Hc & y & Hy & Hw).
           split; [exact Hc|]. exists y. split; [|exact Hw].
           apply in_or_app. left. apply in_or_app. left. exact Hy.
        -- entries Hx. discriminate Hk.
      * rewrite (Hend x Hx) in Hk. discriminate Hk.
    + cbn in H. injection H as <- <- <-. exact (Hworker x Hx Hk).
    + cbn in H. injection H as <- <- <-. exact (Hworker x Hx Hk).
    + cbn in H. injection H as <- <- <-. exact (Hworker x Hx Hk).
  - cbn -[restore_tty sigprocmask] in H.
    destruct ((restore_tty;; sigprocmask SIG_UNBLOCK mask;; ret tt) _)
      as [[o2 w2] l2] eqn:E2.
    pose proof (snoop_end_no_kill _ _ _ _ _ E2) as Hend.
    injection H as <- <- <-.
    destruct Hx as [<-|Hx]; [discriminate Hk|].
    rewrite (Hend x Hx) in Hk. discriminate Hk.
Qed.

Lemma sigpipe_blocked : forall b,
  sigismember
    (Z.lor b (Z.ldiff (sigaddset sigfillset SIGPIPE) unmaskable)) SIGPIPE
  = true.
Proof.
  intros b. unfold sigismember. rewrite Z.lor_spec.
  replace (Z.testbit (Z.ldiff (sigaddset sigfillset SIGPIPE) unmaskable)
                     (SIGPIPE - 1)) with true by (vm_compute; reflexivity).
  apply orb_true_r.
Qed.

Ltac kill_leaf H :=
  let x := fresh "x" in
  let Hin := fresh "Hin" in
  let Hk := fresh "Hk" in
  injection H as <- <- <-;
  intros x Hin Hk; in_log Hin; cbn in Hk; discriminate Hk.

Ltac kill_join H :=
  match type of H with
  | context [snoop_join ?m ?w0] =>
      let E := fresh "E" in
      let Hlog := fresh "Hlog" in
      let x := fresh "x" in
      let y := fresh "y" in
      let Hin := fresh "Hin" in
      let Hk := fresh "Hk" in
      let Hc := fresh "Hc" in
      let Hb := fresh "Hb" in
      let Hy := fresh "Hy" in
      let Hw := fresh "Hw" in
      destruct (snoop_join m w0) as [[?o2 ?w2] ?l2] eqn:E;
      pose proof (snoop_join_kill _ _ _ _ _ E) as Hlog;
      injection H as <- <- <-;
      intros x Hin Hk; in_log Hin; try (cbn in Hk; discriminate Hk);
      destruct (Hlog x Hin Hk) as (Hc & Hb & y & Hy & Hw);
      split; [exact Hc|];
      split; [rewrite Hb; apply sigpipe_blocked|];
      exists y; split; [cbn [In]; repeat right; exact Hy|exact Hw]
  end.

(** X8. The only signal the program sends is [SIGPIPE], to its process
    group, and only after a [write] of the worker failed with [EPIPE];
    [SIGPIPE] is blocked when it is sent, so the sender outlives the
    call. *)
Theorem kill_only_after_epipe :
  forall (n : Z) (w w' : world) (o : outcome unit) (l : list entry),
    snoop n w = (o, w', l) ->
    forall x, In x l -> is_kill x = true ->
      e_call x = Kill 0 SIGPIPE /\
      sigismember (k_blocked (e_kernel x)) SIGPIPE = true /\
      exists y, In y l /\ is_write y = true /\ e_ret y < 0
                /\ e_errno y = EPIPE.
Proof.
  intros n [script k en tfd otio hs th] w' o l H.
  snoop_start H.
  sys_step H ltac:(solve [kill_leaf H]).
  fd_nonneg H.
  do 6 (sys_step H ltac:(solve [kill_leaf H])).
  destruct (deliverable _) as [sig|]; snoop_cbn H; [solve [kill_leaf H]|].
  sys_step_on H ltac:(solve [kill_leaf H]).
  all: do 3 (sys_step H ltac:(solve [kill_leaf H])).
  all: kill_join H.
Qed.

(** X12. The exit status tells whether anything was reported: a process
    that exits with 0 has written nothing to standard error, and a process
    that exits with another status exits with 1 and has written to
    standard error first. *)
Theorem exit_status_reports :
  forall (argv : list string) (script : list reply) (k : kernel)
         (c : Z) (w' : world) (l : list entry),
    process argv (initial_world script k) = (Exited c, w', l) ->
    c = EXIT_SUCCESS /\ (forall x, In x l -> to_stderr x = false) \/
    c = EXIT_FAILURE /\ exists x, In x l /\ to_stderr x = true.
Proof.
  intros argv script k c w' l H.
  destruct (process_cases _ _ _ _ _ H eq_refl)
    as [(Hs & _)
       |(n & wa & o & w1 & l1 & e & l2 & Hsnoop & Hk & Hfd & Hat & -> & He
         & Hend)].
  { destruct Hs as [Hs|[(Hs & Hq)|(Hs & Hq)]]; [discriminate Hs|..];
      injection Hs as ->; [left|right]; split; auto. }
  cbn [initial_world w_kernel tty_fd] in Hk, Hfd.
  pose proof (snoop_stderr _ _ _ _ _ Hsnoop) as [Hret Hexit].
  apply snoop_run in Hsnoop.
  cbv zeta in Hsnoop. rewrite Hat, Hfd in Hsnoop.
  assert (Hloud : forall c0, o = Exit c0 ->
            c0 = EXIT_FAILURE /\
            exists x, In x (e :: l1 ++ l2) /\ to_stderr x = true).
  { intros c0 Ho. destruct (Hexit c0 Ho) as (Hc & x & Hx & Hsx).
    split; [exact Hc|]. exists x. split; [|exact Hsx].
    right. apply in_or_app. left. exact Hx. }
  destruct Hsnoop
    as [(Hfd1 & Hat1 & _ & _ & _ & Ho)
       |[(Hfd1 & Hat1 & _ & _ & _ & _ & Ho)
        |(Hfd1 & Hat1 & _ & _ & _ & _ & _ & Ho)]].
  - destruct Ho as [->|[->|(sig & -> & _)]].
    + destruct Hend as (Hs & _). discriminate Hs.
    + rewrite Hat1 in Hend.
      destruct (run_exit_guard _ _ _ _ _ _ Hend) as [Hnone _].
      destruct Hnone as (Hs & _); [left; reflexivity|].
      injection Hs as ->. right.
      split; [reflexivity|exact (proj2 (Hloud _ eq_refl))].
    + destruct Hend as (Hs & _). discriminate Hs.
  - destruct Ho as [-> | ->].
    + destruct Hend as (Hs & _). discriminate Hs.
    + rewrite Hat1 in Hend.
      destruct (run_exit_guard _ _ _ _ _ _ Hend) as [_ Harmed].
      destruct (Harmed Hfd1 eq_refl) as [Hs|[(Hs & _)|(Hs & _)]];
        [discriminate Hs|..]; injection Hs as ->; right;
        (split; [reflexivity|exact (proj2 (Hloud _ eq_refl))]).
  - destruct Ho as [->|(sig & -> & _)].
    + rewrite Hat1 in Hend.
      destruct (run_exit_guard _ _ _ _ _ _ Hend) as [Hnone _].
      destruct Hnone as (Hs & _ & ->); [right; split; [lia|reflexivity]|].
      injection Hs as ->. left. split; [reflexivity|].
      rewrite app_nil_r. intros x [<-|Hx]; [exact He|].
      exact (Hret tt eq_refl x Hx).
    + destruct Hend as (Hs & _). discriminate Hs.
Qed.

(** ** What [snoop] leaves behind *)

(** X9. A [snoop] that returns has put things back: the console that was
    in the foreground is in the foreground again, the terminal attributes
    are the ones found, and the guard is disarmed.  What it does not put
    back is the selection buffer: it holds the screen of console [n]. *)
Theorem snoop_round_trip :
  forall (n : Z) (w w' : world) (l : list entry),
    snoop n w = (Ret tt, w', l) ->
    k_active (w_kernel w') = k_active (w_kernel w) /\
    k_tio (w_kernel w') = k_tio (w_kernel w) /\
    tty_fd w' = -1 /\
    w_atexit w' = H_restore_tty :: w_atexit w /\
    k_sel_from (w_kernel w') = Some n.
Proof.
  intros n w w' l H.
  destruct (snoop_run _ _ _ _ _ H)
    as [(_ & _ & _ & _ & _ & Ho)
       |[(_ & _ & _ & _ & _ & _ & Ho)
        |(Hfd & Hat & Htio & Hact & Hsel & _)]].
  - destruct Ho as [Ho|[Ho|(sig & Ho & _)]]; discriminate Ho.
  - destruct Ho as [Ho|Ho]; discriminate Ho.
  - conjuncts; assumption.
Qed.

Lemma snoop_mask_members : forall sig,
  1 <= sig <= NSIG ->
  sigismember (sigaddset sigfillset SIGPIPE) sig =
  negb ((sig =? SIGCANCEL) || (sig =? SIGSETXID)).
Proof.
  intros sig Hrange.
  assert (Hall : forallb
            (fun s => Bool.eqb
                        (sigismember (sigaddset sigfillset SIGPIPE) s)
                        (negb ((s =? SIGCANCEL) || (s =? SIGSETXID))))
            (map Z.of_nat (seq 1 64)) = true)
    by (vm_compute; reflexivity).
  rewrite forallb_forall in Hall. apply Bool.eqb_prop. apply Hall.
  apply in_map_iff. exists (Z.to_nat sig).
  unfold NSIG in Hrange. split; [lia|]. apply in_seq. lia.
Qed.

(** X10. A [snoop] that returns does not put the signal mask back: of the
    signals [sigfillset] gives, none is blocked afterwards, whatever was
    blocked when [snoop] was called, because the final [sigprocmask]
    unblocks the whole set it blocked and not the part that was not
    blocked before.  The two signals the C library keeps out of the set
    are blocked afterwards exactly if they were before. *)
Theorem snoop_mask_not_restored :
  forall (n : Z) (w w' : world) (l : list entry),
    snoop n w = (Ret tt, w', l) ->
    forall sig, 1 <= sig <= NSIG ->
      sigismember (k_blocked (w_kernel w')) sig =
      if (sig =? SIGCANCEL) || (sig =? SIGSETXID)
      then sigismember (k_blocked (w_kernel w)) sig
      else false.
Proof.
  intros n w w' l H sig Hrange.
  destruct (snoop_run _ _ _ _ _ H)
    as [(_ & _ & _ & _ & _ & Ho)
       |[(_ & _ & _ & _ & _ & _ & Ho)
        |(_ & _ & _ & _ & _ & Hblk & _)]].
  - destruct Ho as [Ho|[Ho|(s & Ho & _)]]; discriminate Ho.
  - destruct Ho as [Ho|Ho]; discriminate Ho.
  - rewrite Hblk. unfold sigismember.
    rewrite Z.ldiff_spec, Z.lor_spec, Z.ldiff_spec.
    fold (sigismember (sigaddset sigfillset SIGPIPE) sig).
    rewrite snoop_mask_members by assumption.
    destruct ((sig =? SIGCANCEL) || (sig =? SIGSETXID))%bool; cbn [negb].
    + rewrite andb_false_l, orb_false_r, andb_true_r. reflexivity.
    + apply andb_false_r.
Qed.

(** ** Failures of the console requests *)

Ltac failed_leaf H :=
  injection H as <- <- <-;
  intros e Hin Hio Hneg; in_log Hin;
  cbn in Hio, Hneg; try discriminate Hio; try lia;
  (split; [reflexivity|split; [reflexivity|]]);
  intros fd0 sel Hc; cbn in Hc; try discriminate Hc; reflexivity.

Ltac failed_join H :=
  match type of H with
  | context [snoop_join ?m ?w0] =>
      let E := fresh "E" in
      let Hlog := fresh "Hlog" in
      destruct (snoop_join m w0) as [[?o2 ?w2] ?l2] eqn:E;
      pose proof (snoop_join_log _ _ _ _ _ E) as Hlog;
      injection H as <- <- <-;
      intros e Hin Hio Hneg; in_log Hin;
      try (cbn in Hio, Hneg; try discriminate Hio; lia);
      destruct (Hlog e Hin) as (_ & Hno & _);
      rewrite Hno in Hio; discriminate Hio
  end.

(** X11. [snoop] has no way back from a failed console request: it ends
    the process with failure at once, and the kernel state stays as it was
    when the request was made.  In particular, when the selection cannot
    be set, console [n] stays in the foreground. *)
Theorem console_request_failure :
  forall (n : Z) (w w' : world) (o : outcome unit) (l : list entry),
    snoop n w = (o, w', l) ->
    forall e, In e l -> is_ioctl e = true -> e_ret e < 0 ->
      o = Exit EXIT_FAILURE /\
      w_kernel w' = e_kernel e /\
      (forall fd sel,
         e_call e = Ioctl fd (TIOCLINUX TIOCL_SETSEL sel) ->
         k_active (w_kernel w') = n).
Proof.
  intros n [script k en tfd otio hs th] w' o l H.
  snoop_start H.
  sys_step H ltac:(solve [failed_leaf H]).
  fd_nonneg H.
  do 6 (sys_step H ltac:(solve [failed_leaf H])).
  destruct (deliverable _) as [sig|]; snoop_cbn H; [solve [failed_leaf H]|].
  sys_step_on H ltac:(solve [failed_leaf H]).
  all: do 3 (sys_step H ltac:(solve [failed_leaf H])).
  all: failed_join H.
Qed.

(** ** The relay worker: sizes *)

Ltac bounded_done H :=
  let x := fresh "x" in
  let Hx := fresh "Hx" in
  injection H as <- <- <-;
  intros x Hx; cbn [In] in Hx;
  repeat (destruct Hx as [<-|Hx];
          [unfold bounded_transfer; cbn [e_call]; auto; try lia|]);
  try contradiction.

Ltac bounded_next IH H :=
  match type of H with
  | context [rw_loop ?f ?fd ?b ?we ?w0] =>
      let E := fresh "E" in
      let x := fresh "x" in
      let Hx := fresh "Hx" in
      let Hrest := fresh "Hrest" in
      destruct (rw_loop f fd b we w0) as [[?o2 ?w2] ?l2] eqn:E;
      pose proof (IH _ _ _ _ _ _ _ E) as Hrest;
      injection H as <- <- <-;
      intros x Hx; cbn [In app] in Hx;
      repeat (destruct Hx as [<-|Hx];
              [unfold bounded_transfer; cbn [e_call]; auto; try lia|]);
      try contradiction; auto
  end.

Lemma rw_loop_bounded : forall fuel fd empty we w o w' l,
  rw_loop fuel fd empty we w = (o, w', l) ->
  forall x, In x l -> bounded_transfer fd x.
Proof.
  induction fuel as [|fuel IH]; intros fd empty we w o w' l H.
  - bounded_done H.
  - destruct w as [script k en tfd otio hs th].
    destruct script as [|[pf pe pv pb ps] script]; [cbn in H; bounded_done H|].
    destruct pf; [cbn in H; bounded_done H|].
    destruct pv as [|pv]; [destruct empty; cbn in H; bounded_done H|].
    assert (Hrc : Z.min (Z.of_nat (S pv)) 1 = 1) by lia.
    cbn -[Z.min Z.of_nat firstn Z.to_nat] in H. rewrite Hrc in H. clear Hrc.
    destruct script as [|[pf' pe' pv' pb' ps'] script];
      [cbn in H; bounded_done H|].
    destruct pf'; [cbn in H; bounded_done H; unfold size, PIPE_BUF; cbn; lia|].
    cbn -[Z.min Z.of_nat firstn Z.to_nat List.length] in H.
    remember (firstn (Z.to_nat PIPE_BUF) pb') as data eqn:Edata.
    assert (Hle : size data <= PIPE_BUF).
    { subst data. unfold size. rewrite length_firstn. unfold PIPE_BUF. lia. }
    clear Edata. fold (size data) in H.
    destruct data as [|b d];
      [cbn in H; bounded_done H; unfold size, PIPE_BUF; cbn; lia|].
    assert (Hne : b :: d <> []) by discriminate.
    pose proof (size_pos _ Hne) as Hpos.
    remember (b :: d) as data eqn:Edata. clear Edata b d.
    destruct (Z.eqb_spec (size data) 0) as [E|_]; [lia|].
    destruct (Z.ltb_spec (size data) 0) as [E|_]; [lia|].
    destruct (Z.eqb_spec we 0) as [->|Hwe].
    + destruct script as [|[pf2 pe2 pv2 pb2 ps2] script];
        [cbn in H; bounded_done H|].
      destruct pf2.
      * cbn -[Z.min Z.of_nat firstn Z.to_nat List.length] in H.
        bounded_next IH H.
      * unfold bind in H. cbn -[Z.min Z.of_nat size] in H.
        fold (size data) in H.
        destruct (Z.ltb_spec (Z.min (Z.of_nat pv2) (size data)) 0) as [E|_];
          [lia|].
        destruct (Z.eqb_spec (Z.min (Z.of_nat pv2) (size data)) (size data))
          as [Em|Em]; cbn [negb] in H.
        -- rewrite Em in H. cbn -[Z.of_nat List.length] in H.
           bounded_next IH H.
        -- cbn -[Z.min Z.of_nat List.length] in H.
           bounded_next IH H.
    + cbn -[Z.of_nat List.length] in H.
      bounded_next IH H.
Qed.

(** X13. Every transfer of the worker is bounded by [PIPE_BUF]: it polls
    and reads only the descriptor it was given, asks [read] for [PIPE_BUF]
    bytes and gets no more, and writes only to standard output, a buffer
    that is never empty and never longer than [PIPE_BUF]. *)
Theorem relay_bounded_transfers :
  forall (arg : Z) (w w' : world) (o : outcome Z) (l : list entry),
    rw_thread arg w = (o, w', l) ->
    forall e, In e l -> bounded_transfer arg e.
Proof.
  intros arg w w' o l H e He.
  unfold rw_thread in H. unfold bind at 1, get in H.
  unfold bind at 1 in H.
  destruct (rw_loop _ arg true 0 w) as [[o1 w1] l1] eqn:E.
  pose proof (rw_loop_bounded _ _ _ _ _ _ _ _ E) as Hloop.
  assert (Hfin : forall we o2 w2 l2, rw_finish we w1 = (o2, w2, l2) ->
            forall x, In x l2 -> bounded_transfer arg x).
  { intros we o2 w2 l2 Hf x Hx.
    destruct (rw_finish_log _ _ _ _ _ Hf x Hx) as [Hi Hw].
    unfold is_input, is_poll, is_read in Hi. unfold is_write in Hw.
    unfold bounded_transfer.
    destruct (e_call x); try exact I; discriminate. }
  destruct o1 as [we|c|sig|].
  - destruct (rw_finish we w1) as [[o2 w2] l2] eqn:E2.
    injection H as <- <- <-.
    apply in_app_or in He. destruct He; eauto.
  - injection H as <- <- <-. auto.
  - injection H as <- <- <-. auto.
  - injection H as <- <- <-. auto.
Qed.

(** ** The paste *)


(** ** The further properties at sample runs *)

Lemma init_tty_clears_echo_only_witness :
  let w := initial_world [Sample.ok 0; Sample.ok 0] Sample.idle in
  let r := init_tty 3 w in
  outcome_of r = Ret tt /\
  orig_tio (world_of r) = Sample.cooked /\
  Z.land (c_lflag (k_tio (w_kernel (world_of r)))) ECHO = 0 /\
  Z.lor (c_lflag (k_tio (w_kernel (world_of r)))) (Z.land 11 ECHO) = 11.
Proof.
  intros w r.
  assert (Ho : outcome_of r = Ret tt) by (vm_compute; reflexivity).
  pose proof (run_eta _ r) as E. rewrite Ho in E.
  assert (Hrange : 0 <= c_lflag (k_tio (w_kernel w)) < 2 ^ 32)
    by (vm_compute; split; [discriminate|reflexivity]).
  destruct (init_tty_clears_echo_only 3 w _ _ E Hrange)
    as (Horig & _ & _ & _ & _ & Hoff & Hrest & _).
  split; [exact Ho|]. split; [exact Horig|].
  split; [exact Hoff|exact Hrest].
Defined.

Lemma init_tty_failure_witness :
  let w := initial_world [Sample.ok 0; Sample.err EIO] Sample.idle in
  let r := init_tty 3 w in
  outcome_of r = Exit EXIT_FAILURE /\
  w_kernel (world_of r) = Sample.idle /\
  tty_fd (world_of r) = -1 /\
  w_atexit (world_of r) = [].
Proof.
  intros w r.
  assert (Ho : outcome_of r = Exit EXIT_FAILURE) by (vm_compute; reflexivity).
  assert (Hne : outcome_of r <> Ret tt) by (rewrite Ho; discriminate).
  destruct (init_tty_failure 3 w _ _ _ (run_eta _ r) Hne)
    as (Hk & Hfd & Hat & _).
  split; [exact Ho|]. split; [exact Hk|]. split; [exact Hfd|exact Hat].
Defined.

(** The echo is suspended, the [tcsetattr] of [restore_tty] fails with
    [EIO], and the one made by the exit hook succeeds. *)
Lemma restore_tty_retried_at_exit_witness :
  let w := world_of (init_tty 3 (initial_world
             [Sample.ok 0; Sample.ok 0; Sample.err EIO; Sample.ok 0]
             Sample.idle)) in
  let r1 := restore_tty w in
  let r2 := run_exit (w_atexit (world_of r1)) 1 (world_of r1) in
  outcome_of r1 = Exit 1 /\
  fst (fst r2) = Exited 1 /\
  k_tio (w_kernel (snd (fst r2))) = Sample.cooked /\
  calls (snd r2) = [Tcsetattr 3 TCSAFLUSH Sample.cooked].
Proof.
  intros w r1 r2.
  assert (Hfd : 0 <= tty_fd w) by (vm_compute; discriminate).
  assert (Hat : w_atexit w = [H_restore_tty]) by (vm_compute; reflexivity).
  assert (H1 : restore_tty w = (Exit 1, world_of r1, log_of r1))
    by (vm_compute; reflexivity).
  assert (H2 : run_exit (w_atexit (world_of r1)) 1 (world_of r1)
               = (fst (fst r2), snd (fst r2), snd r2))
    by (vm_compute; reflexivity).
  assert (Hs : fst (fst r2) <> Hung) by (vm_compute; discriminate).
  destruct (restore_tty_retried_at_exit w _ _ 1 _ _ _ Hfd Hat H1 H2 Hs)
    as (_ & _ & _ & e & rest & Hl & Hc & Hok).
  assert (Hret : e_ret e = 0).
  { assert (Hhd : map e_ret (snd r2) = [0]) by (vm_compute; reflexivity).
    rewrite Hl in Hhd. cbn in Hhd. now injection Hhd. }
  destruct (Hok Hret) as (-> & Hst & Htio).
  split; [vm_compute; reflexivity|]. split; [exact Hst|].
  split; [exact Htio|]. rewrite Hl. cbn. rewrite Hc. reflexivity.
Defined.

Section ProcessSamples.

Import Script.

(** Standard output is a broken pipe: the process is killed by the
    [SIGPIPE] it sent itself. *)
Let piped : status * world * list entry :=
  process ["vcsnoop"; "/dev/tty2"]
          (initial_world
             (Sample.tty2 :: firstn 11 capture ++ broken_pipe ++ [Sample.ok 0])
             Sample.idle).

(** Everything succeeds. *)
Let captured : status * world * list entry :=
  process ["vcsnoop"; "/dev/tty2"]
          (initial_world (Sample.tty2 :: capture) Sample.idle).

(** The operand is a regular file. *)
Let refused : status * world * list entry :=
  process ["vcsnoop"; "/etc/passwd"]
          (initial_world [Sample.regular] Sample.idle).

Lemma terminal_restored_at_exit_witness :
  fst (fst piped) = Killed SIGPIPE /\
  k_tio (w_kernel (snd (fst piped))) = Sample.cooked.
Proof.
  assert (Hs : fst (fst piped) = Killed SIGPIPE) by (vm_compute; reflexivity).
  assert (Hrun : piped = (fst (fst piped), snd (fst piped), snd piped))
    by (destruct piped as [[s w] l]; reflexivity).
  assert (Hne : fst (fst piped) <> Hung) by (rewrite Hs; discriminate).
  assert (Hworker : forall x, In x (snd piped) -> worker_report x = false).
  { assert (Hall : forallb (fun x => negb (worker_report x)) (snd piped)
                   = true) by (vm_compute; reflexivity).
    rewrite forallb_forall in Hall. intros x Hx.
    apply negb_true_iff. exact (Hall x Hx). }
  assert (Hcreate : forall x, In x (snd piped) ->
                      is_create x = true -> e_ret x = 0).
  { assert (Hall : forallb (fun x => negb (is_create x) || (e_ret x =? 0))
                           (snd piped) = true) by (vm_compute; reflexivity).
    rewrite forallb_forall in Hall. intros x Hx Hc.
    specialize (Hall x Hx). cbv beta in Hall.
    destruct (is_create x); [|discriminate Hc].
    apply Z.eqb_eq. exact Hall. }
  split; [exact Hs|].
  destruct (terminal_restored_at_exit _ _ _ _ _ _ Hrun Hne Hworker Hcreate)
    as [Htio|(e & fd & He & Hc & Hret)]; [exact Htio|].
  assert (Hall : forallb (fun x => negb (is_tcsetattr x) || (0 <=? e_ret x))
                         (snd piped) = true)
    by (vm_compute; reflexivity).
  rewrite forallb_forall in Hall. specialize (Hall e He).
  unfold is_tcsetattr in Hall. rewrite Hc in Hall.
  apply Z.leb_le in Hall. lia.
Defined.

Lemma kill_only_after_epipe_witness :
  let r := snoop 2 (initial_world
             (firstn 11 capture ++ broken_pipe ++ [Sample.ok 0])
             Sample.idle) in
  exists x,
    In x (log_of r) /\
    e_call x = Kill 0 SIGPIPE /\
    sigismember (k_blocked (e_kernel x)) SIGPIPE = true /\
    exists y, In y (log_of r) /\ is_write y = true /\ e_ret y < 0
              /\ e_errno y = EPIPE.
Proof.
  intros r.
  assert (Hx : exists x, In x (log_of r) /\ is_kill x = true).
  { apply existsb_exists. vm_compute. reflexivity. }
  destruct Hx as (x & Hx & Hk). exists x. split; [exact Hx|].
  exact (kill_only_after_epipe 2 _ _ _ _ (run_eta _ r) x Hx Hk).
Defined.

Lemma exit_status_reports_witness :
  (fst (fst captured) = Exited 0 /\
   Forall (fun x => to_stderr x = false) (snd captured)) /\
  (fst (fst refused) = Exited 1 /\
   exists x, In x (snd refused) /\ to_stderr x = true).
Proof.
  assert (Hc : captured = (Exited 0, snd (fst captured), snd captured))
    by (vm_compute; reflexivity).
  assert (Hr : refused = (Exited 1, snd (fst refused), snd refused))
    by (vm_compute; reflexivity).
  split.
  - split; [vm_compute; reflexivity|].
    destruct (exit_status_reports _ _ _ _ _ _ Hc) as [(_ & Hq)|(Hx & _)];
      [|discriminate Hx].
    apply Forall_forall. exact Hq.
  - split; [vm_compute; reflexivity|].
    destruct (exit_status_reports _ _ _ _ _ _ Hr) as [(Hx & _)|(_ & Hl)];
      [discriminate Hx|exact Hl].
Defined.

End ProcessSamples.

Section SnoopSamples.

Import Script.

(** [SIGINT] and [SIGCANCEL] are blocked when [snoop] is called. *)
Let masked : kernel :=
  mk_kernel 1 None Sample.cooked (Z.lor (sigbit 2) (sigbit SIGCANCEL)) 0.

Lemma snoop_round_trip_witness :
  let r := snoop 2 (initial_world capture Sample.idle) in
  outcome_of r = Ret tt /\
  k_active (w_kernel (world_of r)) = 1 /\
  k_tio (w_kernel (world_of r)) = Sample.cooked /\
  tty_fd (world_of r) = -1 /\
  k_sel_from (w_kernel (world_of r)) = Some 2.
Proof.
  intros r.
  assert (Ho : outcome_of r = Ret tt) by (vm_compute; reflexivity).
  pose proof (run_eta _ r) as E. rewrite Ho in E.
  destruct (snoop_round_trip 2 _ _ _ E) as (Hact & Htio & Hfd & _ & Hsel).
  split; [exact Ho|]. conjuncts; assumption.
Defined.

Lemma snoop_mask_not_restored_witness :
  let r := snoop 2 (initial_world capture masked) in
  outcome_of r = Ret tt /\
  sigismember (k_blocked masked) 2 = true /\
  sigismember (k_blocked (w_kernel (world_of r))) 2 = false /\
  sigismember (k_blocked (w_kernel (world_of r))) SIGCANCEL = true.
Proof.
  intros r.
  assert (Ho : outcome_of r = Ret tt) by (vm_compute; reflexivity).
  pose proof (run_eta _ r) as E. rewrite Ho in E.
  assert (Hint : 1 <= 2 <= NSIG) by (unfold NSIG; lia).
  assert (Hcancel : 1 <= SIGCANCEL <= NSIG)
    by (unfold NSIG, SIGCANCEL; lia).
  split; [exact Ho|]. split; [reflexivity|]. split.
  - exact (snoop_mask_not_restored 2 _ _ _ E 2 Hint).
  - exact (snoop_mask_not_restored 2 _ _ _ E SIGCANCEL Hcancel).
Defined.

(** The selection cannot be set. *)
Lemma console_request_failure_witness :
  let r := snoop 2 (initial_world
             [Sample.ok 3; Sample.ok 0; Sample.ok 0; Sample.ok 0;
              Sample.err EIO] Sample.idle) in
  let e := mk_entry (mk_kernel 2 None Sample.cooked 0 0)
             (Ioctl 0 (TIOCLINUX TIOCL_SETSEL full_screen)) (-1) EIO in
  nth_error (log_of r) 4 = Some e /\
  outcome_of r = Exit EXIT_FAILURE /\
  k_active (w_kernel (world_of r)) = 2.
Proof.
  intros r e.
  assert (He : nth_error (log_of r) 4 = Some e) by (vm_compute; reflexivity).
  assert (Hret : e_ret e < 0) by (cbn; lia).
  destruct (console_request_failure 2 _ _ _ _ (run_eta _ r) e
              (nth_error_In _ _ He) eq_refl Hret) as (Ho & _ & Hact).
  split; [exact He|]. split; [exact Ho|].
  exact (Hact 0 full_screen eq_refl).
Defined.


Lemma relay_bounded_transfers_witness :
  let r := rw_thread 3 (initial_world short_write capturing) in
  Forall (bounded_transfer 3) (log_of r).
Proof.
  intros r. apply Forall_forall.
  exact (relay_bounded_transfers 3 _ _ _ _ (run_eta _ r)).
Defined.

End SnoopSamples.
